(** * A shallow embedding of the 68080 emulator core

    The development follows the C sources under [68080_Emu/]:
    - [m68k_cpu.h]            the processor state, status bits and enums;
    - [m68k_cpu.c]            instruction fetch and the sized memory accessors;
    - [m68k_cpu_extended.c]   init/reset, flags, condition test, breakpoints;
    - [m68k_decode.c]         the instruction decoder;
    - [m68k_execute.c]        the general execute family;
    - [m68k_execute2.c]       the branch and special families and the step;
    - [m68k_addressing.c]     BCD handlers and the effective-address resolver.

    Conventions.  Every C integer is a [Z]; a store into a [uintN_t] object
    is written with the wrap [uN], a cast to [intN_t] with [sN].  The
    processor is one record passed in and returned (the C code mutates it
    through a pointer); the memory buffer is a [list Z] of bytes passed
    together with [mem_size], as in every C signature.  [printf] calls have
    no effect on the state and are left out. *)

From Stdlib Require Import ZArith Lia Bool.
From stdpp Require Import base list numbers.

Open Scope Z_scope.

(** ** Fixed-width integers *)

Definition u8  (z : Z) : Z := z mod 0x100.
Definition u16 (z : Z) : Z := z mod 0x10000.
Definition u32 (z : Z) : Z := z mod 0x100000000.
Definition u64 (z : Z) : Z := z mod 0x10000000000000000.

(** [size_t] is taken to be 64 bits wide (an LP64 host). *)
Definition size_t (z : Z) : Z := u64 z.

Definition s8 (z : Z) : Z :=
  let x := u8 z in if x <? 0x80 then x else x - 0x100.
Definition s16 (z : Z) : Z :=
  let x := u16 z in if x <? 0x8000 then x else x - 0x10000.
Definition s32 (z : Z) : Z :=
  let x := u32 z in if x <? 0x80000000 then x else x - 0x100000000.

(** Array access [arr[i]] and in-place store [arr[i] = v].  A C array has
    no bounds check; the model reads [0] and stores nothing outside the
    list, and the theorems that depend on an element state the length. *)
Definition idx (arr : list Z) (i : Z) : Z := default 0 (arr !! Z.to_nat i).
Definition upd (arr : list Z) (i v : Z) : list Z := <[Z.to_nat i := v]> arr.

(** ** Status register flags ([m68k_cpu.h]) *)

Definition SR_CARRY      : Z := 0x0001.
Definition SR_OVERFLOW   : Z := 0x0002.
Definition SR_ZERO       : Z := 0x0004.
Definition SR_NEGATIVE   : Z := 0x0008.
Definition SR_EXTEND     : Z := 0x0010.
Definition SR_INTERRUPT  : Z := 0x0700.
Definition SR_SUPERVISOR : Z := 0x2000.
Definition SR_TRACE      : Z := 0x8000.

(** ** Operation tags ([OpCode] in [m68k_cpu.h]), in declaration order *)

Inductive OpCode : Set :=
  | OP_NOP | OP_MOVE | OP_MOVEA | OP_MOVEM | OP_MOVEP | OP_MOVEQ | OP_EXG
  | OP_SWAP | OP_LEA | OP_PEA | OP_LINK | OP_UNLK | OP_ADD | OP_ADDA
  | OP_ADDI | OP_ADDQ | OP_ADDX | OP_SUB | OP_SUBA | OP_SUBI | OP_SUBQ
  | OP_SUBX | OP_MULS | OP_MULU | OP_DIVS | OP_DIVU | OP_NEG | OP_NEGX
  | OP_CLR | OP_EXT | OP_AND | OP_ANDI | OP_OR | OP_ORI | OP_EOR | OP_EORI
  | OP_NOT | OP_ASL | OP_ASR | OP_LSL | OP_LSR | OP_ROL | OP_ROR | OP_ROXL
  | OP_ROXR | OP_BCHG | OP_BCLR | OP_BSET | OP_BTST | OP_CMP | OP_CMPA
  | OP_CMPI | OP_CMPM | OP_TST | OP_BRA | OP_BSR | OP_BCC | OP_BCS | OP_BEQ
  | OP_BNE | OP_BGE | OP_BGT | OP_BHI | OP_BLE | OP_BLS | OP_BLT | OP_BMI
  | OP_BPL | OP_BVC | OP_BVS | OP_SCC | OP_SCS | OP_SEQ | OP_SNE | OP_SGE
  | OP_SGT | OP_SHI | OP_SLE | OP_SLS | OP_SLT | OP_SMI | OP_SPL | OP_SVC
  | OP_SVS | OP_ST | OP_SF | OP_JMP | OP_JSR | OP_RTS | OP_RTR | OP_RTE
  | OP_DBCC | OP_DBCS | OP_DBEQ | OP_DBNE | OP_DBGE | OP_DBGT | OP_DBHI
  | OP_DBLE | OP_DBLS | OP_DBLT | OP_DBMI | OP_DBPL | OP_DBVC | OP_DBVS
  | OP_DBT | OP_DBF | OP_TRAP | OP_TRAPV | OP_CHK | OP_RESET | OP_STOP
  | OP_ANDI_SR | OP_EORI_SR | OP_ORI_SR | OP_ANDI_CCR | OP_EORI_CCR
  | OP_ORI_CCR | OP_MOVE_SR | OP_MOVE_CCR | OP_MOVE_USP | OP_TAS | OP_NBCD
  | OP_ABCD | OP_SBCD | OP_MOVEC | OP_MOVES | OP_RTD | OP_BKPT | OP_BFCHG
  | OP_BFCLR | OP_BFEXTS | OP_BFEXTU | OP_BFFFO | OP_BFINS | OP_BFSET
  | OP_BFTST | OP_CALLM | OP_CAS | OP_CAS2 | OP_CMP2 | OP_DIVSL | OP_DIVUL
  | OP_EXTB | OP_PACK | OP_UNPK | OP_VADD | OP_VSUB | OP_VMUL | OP_VDIV
  | OP_VAND | OP_VOR | OP_VXOR | OP_VNOT | OP_VLOAD | OP_VSTORE | OP_VMOVE
  | OP_VDOT | OP_VCROSS | OP_VABS | OP_VSQRT | OP_VMIN | OP_VMAX | OP_VSUM
  | OP_ADD64 | OP_SUB64 | OP_MUL64 | OP_DIV64 | OP_MOVE64 | OP_CMP64
  | OP_FMOVE | OP_FADD | OP_FSUB | OP_FMUL | OP_FDIV | OP_FSQRT | OP_FABS
  | OP_FNEG | OP_FCMP | OP_FTST | OP_FSIN | OP_FCOS | OP_FTAN | OP_ILLEGAL
  | OP_COUNT.

Definition OpCode_enum : list OpCode :=
  [OP_NOP; OP_MOVE; OP_MOVEA; OP_MOVEM; OP_MOVEP; OP_MOVEQ;
   OP_EXG; OP_SWAP; OP_LEA; OP_PEA; OP_LINK; OP_UNLK;
   OP_ADD; OP_ADDA; OP_ADDI; OP_ADDQ; OP_ADDX; OP_SUB;
   OP_SUBA; OP_SUBI; OP_SUBQ; OP_SUBX; OP_MULS; OP_MULU;
   OP_DIVS; OP_DIVU; OP_NEG; OP_NEGX; OP_CLR; OP_EXT;
   OP_AND; OP_ANDI; OP_OR; OP_ORI; OP_EOR; OP_EORI;
   OP_NOT; OP_ASL; OP_ASR; OP_LSL; OP_LSR; OP_ROL;
   OP_ROR; OP_ROXL; OP_ROXR; OP_BCHG; OP_BCLR; OP_BSET;
   OP_BTST; OP_CMP; OP_CMPA; OP_CMPI; OP_CMPM; OP_TST;
   OP_BRA; OP_BSR; OP_BCC; OP_BCS; OP_BEQ; OP_BNE;
   OP_BGE; OP_BGT; OP_BHI; OP_BLE; OP_BLS; OP_BLT;
   OP_BMI; OP_BPL; OP_BVC; OP_BVS; OP_SCC; OP_SCS;
   OP_SEQ; OP_SNE; OP_SGE; OP_SGT; OP_SHI; OP_SLE;
   OP_SLS; OP_SLT; OP_SMI; OP_SPL; OP_SVC; OP_SVS;
   OP_ST; OP_SF; OP_JMP; OP_JSR; OP_RTS; OP_RTR;
   OP_RTE; OP_DBCC; OP_DBCS; OP_DBEQ; OP_DBNE; OP_DBGE;
   OP_DBGT; OP_DBHI; OP_DBLE; OP_DBLS; OP_DBLT; OP_DBMI;
   OP_DBPL; OP_DBVC; OP_DBVS; OP_DBT; OP_DBF; OP_TRAP;
   OP_TRAPV; OP_CHK; OP_RESET; OP_STOP; OP_ANDI_SR; OP_EORI_SR;
   OP_ORI_SR; OP_ANDI_CCR; OP_EORI_CCR; OP_ORI_CCR; OP_MOVE_SR; OP_MOVE_CCR;
   OP_MOVE_USP; OP_TAS; OP_NBCD; OP_ABCD; OP_SBCD; OP_MOVEC;
   OP_MOVES; OP_RTD; OP_BKPT; OP_BFCHG; OP_BFCLR; OP_BFEXTS;
   OP_BFEXTU; OP_BFFFO; OP_BFINS; OP_BFSET; OP_BFTST; OP_CALLM;
   OP_CAS; OP_CAS2; OP_CMP2; OP_DIVSL; OP_DIVUL; OP_EXTB;
   OP_PACK; OP_UNPK; OP_VADD; OP_VSUB; OP_VMUL; OP_VDIV;
   OP_VAND; OP_VOR; OP_VXOR; OP_VNOT; OP_VLOAD; OP_VSTORE;
   OP_VMOVE; OP_VDOT; OP_VCROSS; OP_VABS; OP_VSQRT; OP_VMIN;
   OP_VMAX; OP_VSUM; OP_ADD64; OP_SUB64; OP_MUL64; OP_DIV64;
   OP_MOVE64; OP_CMP64; OP_FMOVE; OP_FADD; OP_FSUB; OP_FMUL;
   OP_FDIV; OP_FSQRT; OP_FABS; OP_FNEG; OP_FCMP; OP_FTST;
   OP_FSIN; OP_FCOS; OP_FTAN; OP_ILLEGAL; OP_COUNT].

(** The enum is a C [int]: the decoder adds offsets to a tag and the step
    compares tags by range. *)
Definition OpCode_to_Z (op : OpCode) : Z :=
  match op with
  | OP_NOP => 0 | OP_MOVE => 1 | OP_MOVEA => 2 | OP_MOVEM => 3
  | OP_MOVEP => 4 | OP_MOVEQ => 5 | OP_EXG => 6 | OP_SWAP => 7 | OP_LEA => 8
  | OP_PEA => 9 | OP_LINK => 10 | OP_UNLK => 11 | OP_ADD => 12
  | OP_ADDA => 13 | OP_ADDI => 14 | OP_ADDQ => 15 | OP_ADDX => 16
  | OP_SUB => 17 | OP_SUBA => 18 | OP_SUBI => 19 | OP_SUBQ => 20
  | OP_SUBX => 21 | OP_MULS => 22 | OP_MULU => 23 | OP_DIVS => 24
  | OP_DIVU => 25 | OP_NEG => 26 | OP_NEGX => 27 | OP_CLR => 28
  | OP_EXT => 29 | OP_AND => 30 | OP_ANDI => 31 | OP_OR => 32 | OP_ORI => 33
  | OP_EOR => 34 | OP_EORI => 35 | OP_NOT => 36 | OP_ASL => 37 | OP_ASR => 38
  | OP_LSL => 39 | OP_LSR => 40 | OP_ROL => 41 | OP_ROR => 42 | OP_ROXL => 43
  | OP_ROXR => 44 | OP_BCHG => 45 | OP_BCLR => 46 | OP_BSET => 47
  | OP_BTST => 48 | OP_CMP => 49 | OP_CMPA => 50 | OP_CMPI => 51
  | OP_CMPM => 52 | OP_TST => 53 | OP_BRA => 54 | OP_BSR => 55 | OP_BCC => 56
  | OP_BCS => 57 | OP_BEQ => 58 | OP_BNE => 59 | OP_BGE => 60 | OP_BGT => 61
  | OP_BHI => 62 | OP_BLE => 63 | OP_BLS => 64 | OP_BLT => 65 | OP_BMI => 66
  | OP_BPL => 67 | OP_BVC => 68 | OP_BVS => 69 | OP_SCC => 70 | OP_SCS => 71
  | OP_SEQ => 72 | OP_SNE => 73 | OP_SGE => 74 | OP_SGT => 75 | OP_SHI => 76
  | OP_SLE => 77 | OP_SLS => 78 | OP_SLT => 79 | OP_SMI => 80 | OP_SPL => 81
  | OP_SVC => 82 | OP_SVS => 83 | OP_ST => 84 | OP_SF => 85 | OP_JMP => 86
  | OP_JSR => 87 | OP_RTS => 88 | OP_RTR => 89 | OP_RTE => 90 | OP_DBCC => 91
  | OP_DBCS => 92 | OP_DBEQ => 93 | OP_DBNE => 94 | OP_DBGE => 95
  | OP_DBGT => 96 | OP_DBHI => 97 | OP_DBLE => 98 | OP_DBLS => 99
  | OP_DBLT => 100 | OP_DBMI => 101 | OP_DBPL => 102 | OP_DBVC => 103
  | OP_DBVS => 104 | OP_DBT => 105 | OP_DBF => 106 | OP_TRAP => 107
  | OP_TRAPV => 108 | OP_CHK => 109 | OP_RESET => 110 | OP_STOP => 111
  | OP_ANDI_SR => 112 | OP_EORI_SR => 113 | OP_ORI_SR => 114
  | OP_ANDI_CCR => 115 | OP_EORI_CCR => 116 | OP_ORI_CCR => 117
  | OP_MOVE_SR => 118 | OP_MOVE_CCR => 119 | OP_MOVE_USP => 120
  | OP_TAS => 121 | OP_NBCD => 122 | OP_ABCD => 123 | OP_SBCD => 124
  | OP_MOVEC => 125 | OP_MOVES => 126 | OP_RTD => 127 | OP_BKPT => 128
  | OP_BFCHG => 129 | OP_BFCLR => 130 | OP_BFEXTS => 131 | OP_BFEXTU => 132
  | OP_BFFFO => 133 | OP_BFINS => 134 | OP_BFSET => 135 | OP_BFTST => 136
  | OP_CALLM => 137 | OP_CAS => 138 | OP_CAS2 => 139 | OP_CMP2 => 140
  | OP_DIVSL => 141 | OP_DIVUL => 142 | OP_EXTB => 143 | OP_PACK => 144
  | OP_UNPK => 145 | OP_VADD => 146 | OP_VSUB => 147 | OP_VMUL => 148
  | OP_VDIV => 149 | OP_VAND => 150 | OP_VOR => 151 | OP_VXOR => 152
  | OP_VNOT => 153 | OP_VLOAD => 154 | OP_VSTORE => 155 | OP_VMOVE => 156
  | OP_VDOT => 157 | OP_VCROSS => 158 | OP_VABS => 159 | OP_VSQRT => 160
  | OP_VMIN => 161 | OP_VMAX => 162 | OP_VSUM => 163 | OP_ADD64 => 164
  | OP_SUB64 => 165 | OP_MUL64 => 166 | OP_DIV64 => 167 | OP_MOVE64 => 168
  | OP_CMP64 => 169 | OP_FMOVE => 170 | OP_FADD => 171 | OP_FSUB => 172
  | OP_FMUL => 173 | OP_FDIV => 174 | OP_FSQRT => 175 | OP_FABS => 176
  | OP_FNEG => 177 | OP_FCMP => 178 | OP_FTST => 179 | OP_FSIN => 180
  | OP_FCOS => 181 | OP_FTAN => 182 | OP_ILLEGAL => 183 | OP_COUNT => 184
  end.

Definition OpCode_of_Z (z : Z) : OpCode :=
  default OP_ILLEGAL (OpCode_enum !! Z.to_nat z).

(** ** Operand sizes ([OperandSize]) *)

Inductive OperandSize : Set :=
  | SIZE_BYTE | SIZE_WORD | SIZE_LONG | SIZE_QUAD | SIZE_VECTOR.

Definition OperandSize_to_Z (size : OperandSize) : Z :=
  match size with
  | SIZE_BYTE => 1 | SIZE_WORD => 2 | SIZE_LONG => 4
  | SIZE_QUAD => 8 | SIZE_VECTOR => 64
  end.

(** ** Processor state ([m68k_cpu.h]) *)

(** [fp] holds the raw 64-bit patterns of the eight [double] registers. *)
Record Apollo_Regs : Type := mkApollo {
  v : list Z;      (* uint64_t v[16] *)
  vr : list Z;     (* uint32_t vr[8] *)
  fp : list Z;     (* double fp[8] *)
  fpcr : Z;
  fpsr : Z;
  fpiar : Z
}.

Record M68K_Breakpoint : Type := mkBreakpoint {
  address : Z;          (* uint32_t *)
  enabled : bool;
  hit_count : Z;        (* uint64_t *)
  condition : list Z    (* char condition[64] *)
}.

Record M68K_CPU : Type := mkCPU {
  d : list Z;  (* uint32_t d[8] *)
  a : list Z;  (* uint32_t a[8]; a[7] is the stack pointer *)
  pc : Z;  (* uint32_t *)
  sr : Z;  (* uint16_t *)
  usp : Z;
  ssp : Z;
  apollo : Apollo_Regs;  (* Apollo 68080 extended registers *)
  apollo_mode : bool;
  halted : bool;
  trace_mode : bool;
  cycle_count : Z;  (* uint64_t *)
  instruction_count : Z;  (* uint64_t *)
  bus_data : list Z;  (* uint8_t bus_data[128] *)
  bus_address : Z;
  bus_active : bool;
  bus_transfers : Z;
  icache : list Z;  (* uint8_t icache[32768] *)
  dcache : list Z;  (* uint8_t dcache[32768] *)
  icache_valid : list bool;  (* bool icache_valid[256] *)
  dcache_valid : list bool;  (* bool dcache_valid[256] *)
  cache_hits : Z;
  cache_misses : Z;
  breakpoints : list M68K_Breakpoint;  (* M68K_Breakpoint* (heap array) *)
  num_breakpoints : Z;  (* int *)
  max_breakpoints : Z;  (* int *)
  breakpoint_hit : bool;
  breakpoint_addr : Z;
  vbr : Z;
  branch_count : Z;
  branch_taken : Z;
  load_count : Z;
  store_count : Z
}.

(** Field stores: [set_f x cpu] is [cpu] after [cpu->f = x]. *)

Definition set_d (x : list Z) (c : M68K_CPU) : M68K_CPU :=
  mkCPU x (a c) (pc c) (sr c) (usp c) (ssp c) (apollo c) (apollo_mode c)
    (halted c) (trace_mode c) (cycle_count c) (instruction_count c)
    (bus_data c) (bus_address c) (bus_active c) (bus_transfers c) (icache c)
    (dcache c) (icache_valid c) (dcache_valid c) (cache_hits c)
    (cache_misses c) (breakpoints c) (num_breakpoints c) (max_breakpoints c)
    (breakpoint_hit c) (breakpoint_addr c) (vbr c) (branch_count c)
    (branch_taken c) (load_count c) (store_count c).

Definition set_a (x : list Z) (c : M68K_CPU) : M68K_CPU :=
  mkCPU (d c) x (pc c) (sr c) (usp c) (ssp c) (apollo c) (apollo_mode c)
    (halted c) (trace_mode c) (cycle_count c) (instruction_count c)
    (bus_data c) (bus_address c) (bus_active c) (bus_transfers c) (icache c)
    (dcache c) (icache_valid c) (dcache_valid c) (cache_hits c)
    (cache_misses c) (breakpoints c) (num_breakpoints c) (max_breakpoints c)
    (breakpoint_hit c) (breakpoint_addr c) (vbr c) (branch_count c)
    (branch_taken c) (load_count c) (store_count c).

Definition set_pc (x : Z) (c : M68K_CPU) : M68K_CPU :=
  mkCPU (d c) (a c) x (sr c) (usp c) (ssp c) (apollo c) (apollo_mode c)
    (halted c) (trace_mode c) (cycle_count c) (instruction_count c)
    (bus_data c) (bus_address c) (bus_active c) (bus_transfers c) (icache c)
    (dcache c) (icache_valid c) (dcache_valid c) (cache_hits c)
    (cache_misses c) (breakpoints c) (num_breakpoints c) (max_breakpoints c)
    (breakpoint_hit c) (breakpoint_addr c) (vbr c) (branch_count c)
    (branch_taken c) (load_count c) (store_count c).

Definition set_sr (x : Z) (c : M68K_CPU) : M68K_CPU :=
  mkCPU (d c) (a c) (pc c) x (usp c) (ssp c) (apollo c) (apollo_mode c)
    (halted c) (trace_mode c) (cycle_count c) (instruction_count c)
    (bus_data c) (bus_address c) (bus_active c) (bus_transfers c) (icache c)
    (dcache c) (icache_valid c) (dcache_valid c) (cache_hits c)
    (cache_misses c) (breakpoints c) (num_breakpoints c) (max_breakpoints c)
    (breakpoint_hit c) (breakpoint_addr c) (vbr c) (branch_count c)
    (branch_taken c) (load_count c) (store_count c).

Definition set_usp (x : Z) (c : M68K_CPU) : M68K_CPU :=
  mkCPU (d c) (a c) (pc c) (sr c) x (ssp c) (apollo c) (apollo_mode c)
    (halted c) (trace_mode c) (cycle_count c) (instruction_count c)
    (bus_data c) (bus_address c) (bus_active c) (bus_transfers c) (icache c)
    (dcache c) (icache_valid c) (dcache_valid c) (cache_hits c)
    (cache_misses c) (breakpoints c) (num_breakpoints c) (max_breakpoints c)
    (breakpoint_hit c) (breakpoint_addr c) (vbr c) (branch_count c)
    (branch_taken c) (load_count c) (store_count c).

Definition set_ssp (x : Z) (c : M68K_CPU) : M68K_CPU :=
  mkCPU (d c) (a c) (pc c) (sr c) (usp c) x (apollo c) (apollo_mode c)
    (halted c) (trace_mode c) (cycle_count c) (instruction_count c)
    (bus_data c) (bus_address c) (bus_active c) (bus_transfers c) (icache c)
    (dcache c) (icache_valid c) (dcache_valid c) (cache_hits c)
    (cache_misses c) (breakpoints c) (num_breakpoints c) (max_breakpoints c)
    (breakpoint_hit c) (breakpoint_addr c) (vbr c) (branch_count c)
    (branch_taken c) (load_count c) (store_count c).

Definition set_apollo (x : Apollo_Regs) (c : M68K_CPU) : M68K_CPU :=
  mkCPU (d c) (a c) (pc c) (sr c) (usp c) (ssp c) x (apollo_mode c)
    (halted c) (trace_mode c) (cycle_count c) (instruction_count c)
    (bus_data c) (bus_address c) (bus_active c) (bus_transfers c) (icache c)
    (dcache c) (icache_valid c) (dcache_valid c) (cache_hits c)
    (cache_misses c) (breakpoints c) (num_breakpoints c) (max_breakpoints c)
    (breakpoint_hit c) (breakpoint_addr c) (vbr c) (branch_count c)
    (branch_taken c) (load_count c) (store_count c).

Definition set_apollo_mode (x : bool) (c : M68K_CPU) : M68K_CPU :=
  mkCPU (d c) (a c) (pc c) (sr c) (usp c) (ssp c) (apollo c) x (halted c)
    (trace_mode c) (cycle_count c) (instruction_count c) (bus_data c)
    (bus_address c) (bus_active c) (bus_transfers c) (icache c) (dcache c)
    (icache_valid c) (dcache_valid c) (cache_hits c) (cache_misses c)
    (breakpoints c) (num_breakpoints c) (max_breakpoints c)
    (breakpoint_hit c) (breakpoint_addr c) (vbr c) (branch_count c)
    (branch_taken c) (load_count c) (store_count c).

Definition set_halted (x : bool) (c : M68K_CPU) : M68K_CPU :=
  mkCPU (d c) (a c) (pc c) (sr c) (usp c) (ssp c) (apollo c) (apollo_mode c)
    x (trace_mode c) (cycle_count c) (instruction_count c) (bus_data c)
    (bus_address c) (bus_active c) (bus_transfers c) (icache c) (dcache c)
    (icache_valid c) (dcache_valid c) (cache_hits c) (cache_misses c)
    (breakpoints c) (num_breakpoints c) (max_breakpoints c)
    (breakpoint_hit c) (breakpoint_addr c) (vbr c) (branch_count c)
    (branch_taken c) (load_count c) (store_count c).

Definition set_cycle_count (x : Z) (c : M68K_CPU) : M68K_CPU :=
  mkCPU (d c) (a c) (pc c) (sr c) (usp c) (ssp c) (apollo c) (apollo_mode c)
    (halted c) (trace_mode c) x (instruction_count c) (bus_data c)
    (bus_address c) (bus_active c) (bus_transfers c) (icache c) (dcache c)
    (icache_valid c) (dcache_valid c) (cache_hits c) (cache_misses c)
    (breakpoints c) (num_breakpoints c) (max_breakpoints c)
    (breakpoint_hit c) (breakpoint_addr c) (vbr c) (branch_count c)
    (branch_taken c) (load_count c) (store_count c).

Definition set_instruction_count (x : Z) (c : M68K_CPU) : M68K_CPU :=
  mkCPU (d c) (a c) (pc c) (sr c) (usp c) (ssp c) (apollo c) (apollo_mode c)
    (halted c) (trace_mode c) (cycle_count c) x (bus_data c) (bus_address c)
    (bus_active c) (bus_transfers c) (icache c) (dcache c) (icache_valid c)
    (dcache_valid c) (cache_hits c) (cache_misses c) (breakpoints c)
    (num_breakpoints c) (max_breakpoints c) (breakpoint_hit c)
    (breakpoint_addr c) (vbr c) (branch_count c) (branch_taken c)
    (load_count c) (store_count c).

Definition set_bus_data (x : list Z) (c : M68K_CPU) : M68K_CPU :=
  mkCPU (d c) (a c) (pc c) (sr c) (usp c) (ssp c) (apollo c) (apollo_mode c)
    (halted c) (trace_mode c) (cycle_count c) (instruction_count c) x
    (bus_address c) (bus_active c) (bus_transfers c) (icache c) (dcache c)
    (icache_valid c) (dcache_valid c) (cache_hits c) (cache_misses c)
    (breakpoints c) (num_breakpoints c) (max_breakpoints c)
    (breakpoint_hit c) (breakpoint_addr c) (vbr c) (branch_count c)
    (branch_taken c) (load_count c) (store_count c).

Definition set_bus_address (x : Z) (c : M68K_CPU) : M68K_CPU :=
  mkCPU (d c) (a c) (pc c) (sr c) (usp c) (ssp c) (apollo c) (apollo_mode c)
    (halted c) (trace_mode c) (cycle_count c) (instruction_count c)
    (bus_data c) x (bus_active c) (bus_transfers c) (icache c) (dcache c)
    (icache_valid c) (dcache_valid c) (cache_hits c) (cache_misses c)
    (breakpoints c) (num_breakpoints c) (max_breakpoints c)
    (breakpoint_hit c) (breakpoint_addr c) (vbr c) (branch_count c)
    (branch_taken c) (load_count c) (store_count c).

Definition set_bus_active (x : bool) (c : M68K_CPU) : M68K_CPU :=
  mkCPU (d c) (a c) (pc c) (sr c) (usp c) (ssp c) (apollo c) (apollo_mode c)
    (halted c) (trace_mode c) (cycle_count c) (instruction_count c)
    (bus_data c) (bus_address c) x (bus_transfers c) (icache c) (dcache c)
    (icache_valid c) (dcache_valid c) (cache_hits c) (cache_misses c)
    (breakpoints c) (num_breakpoints c) (max_breakpoints c)
    (breakpoint_hit c) (breakpoint_addr c) (vbr c) (branch_count c)
    (branch_taken c) (load_count c) (store_count c).

Definition set_breakpoints (x : list M68K_Breakpoint) (c : M68K_CPU) : M68K_CPU :=
  mkCPU (d c) (a c) (pc c) (sr c) (usp c) (ssp c) (apollo c) (apollo_mode c)
    (halted c) (trace_mode c) (cycle_count c) (instruction_count c)
    (bus_data c) (bus_address c) (bus_active c) (bus_transfers c) (icache c)
    (dcache c) (icache_valid c) (dcache_valid c) (cache_hits c)
    (cache_misses c) x (num_breakpoints c) (max_breakpoints c)
    (breakpoint_hit c) (breakpoint_addr c) (vbr c) (branch_count c)
    (branch_taken c) (load_count c) (store_count c).

Definition set_num_breakpoints (x : Z) (c : M68K_CPU) : M68K_CPU :=
  mkCPU (d c) (a c) (pc c) (sr c) (usp c) (ssp c) (apollo c) (apollo_mode c)
    (halted c) (trace_mode c) (cycle_count c) (instruction_count c)
    (bus_data c) (bus_address c) (bus_active c) (bus_transfers c) (icache c)
    (dcache c) (icache_valid c) (dcache_valid c) (cache_hits c)
    (cache_misses c) (breakpoints c) x (max_breakpoints c)
    (breakpoint_hit c) (breakpoint_addr c) (vbr c) (branch_count c)
    (branch_taken c) (load_count c) (store_count c).

Definition set_max_breakpoints (x : Z) (c : M68K_CPU) : M68K_CPU :=
  mkCPU (d c) (a c) (pc c) (sr c) (usp c) (ssp c) (apollo c) (apollo_mode c)
    (halted c) (trace_mode c) (cycle_count c) (instruction_count c)
    (bus_data c) (bus_address c) (bus_active c) (bus_transfers c) (icache c)
    (dcache c) (icache_valid c) (dcache_valid c) (cache_hits c)
    (cache_misses c) (breakpoints c) (num_breakpoints c) x
    (breakpoint_hit c) (breakpoint_addr c) (vbr c) (branch_count c)
    (branch_taken c) (load_count c) (store_count c).

Definition set_breakpoint_hit (x : bool) (c : M68K_CPU) : M68K_CPU :=
  mkCPU (d c) (a c) (pc c) (sr c) (usp c) (ssp c) (apollo c) (apollo_mode c)
    (halted c) (trace_mode c) (cycle_count c) (instruction_count c)
    (bus_data c) (bus_address c) (bus_active c) (bus_transfers c) (icache c)
    (dcache c) (icache_valid c) (dcache_valid c) (cache_hits c)
    (cache_misses c) (breakpoints c) (num_breakpoints c) (max_breakpoints c)
    x (breakpoint_addr c) (vbr c) (branch_count c) (branch_taken c)
    (load_count c) (store_count c).

Definition set_breakpoint_addr (x : Z) (c : M68K_CPU) : M68K_CPU :=
  mkCPU (d c) (a c) (pc c) (sr c) (usp c) (ssp c) (apollo c) (apollo_mode c)
    (halted c) (trace_mode c) (cycle_count c) (instruction_count c)
    (bus_data c) (bus_address c) (bus_active c) (bus_transfers c) (icache c)
    (dcache c) (icache_valid c) (dcache_valid c) (cache_hits c)
    (cache_misses c) (breakpoints c) (num_breakpoints c) (max_breakpoints c)
    (breakpoint_hit c) x (vbr c) (branch_count c) (branch_taken c)
    (load_count c) (store_count c).

Definition set_branch_count (x : Z) (c : M68K_CPU) : M68K_CPU :=
  mkCPU (d c) (a c) (pc c) (sr c) (usp c) (ssp c) (apollo c) (apollo_mode c)
    (halted c) (trace_mode c) (cycle_count c) (instruction_count c)
    (bus_data c) (bus_address c) (bus_active c) (bus_transfers c) (icache c)
    (dcache c) (icache_valid c) (dcache_valid c) (cache_hits c)
    (cache_misses c) (breakpoints c) (num_breakpoints c) (max_breakpoints c)
    (breakpoint_hit c) (breakpoint_addr c) (vbr c) x (branch_taken c)
    (load_count c) (store_count c).

Definition set_branch_taken (x : Z) (c : M68K_CPU) : M68K_CPU :=
  mkCPU (d c) (a c) (pc c) (sr c) (usp c) (ssp c) (apollo c) (apollo_mode c)
    (halted c) (trace_mode c) (cycle_count c) (instruction_count c)
    (bus_data c) (bus_address c) (bus_active c) (bus_transfers c) (icache c)
    (dcache c) (icache_valid c) (dcache_valid c) (cache_hits c)
    (cache_misses c) (breakpoints c) (num_breakpoints c) (max_breakpoints c)
    (breakpoint_hit c) (breakpoint_addr c) (vbr c) (branch_count c) x
    (load_count c) (store_count c).

Definition set_load_count (x : Z) (c : M68K_CPU) : M68K_CPU :=
  mkCPU (d c) (a c) (pc c) (sr c) (usp c) (ssp c) (apollo c) (apollo_mode c)
    (halted c) (trace_mode c) (cycle_count c) (instruction_count c)
    (bus_data c) (bus_address c) (bus_active c) (bus_transfers c) (icache c)
    (dcache c) (icache_valid c) (dcache_valid c) (cache_hits c)
    (cache_misses c) (breakpoints c) (num_breakpoints c) (max_breakpoints c)
    (breakpoint_hit c) (breakpoint_addr c) (vbr c) (branch_count c)
    (branch_taken c) x (store_count c).

Definition set_store_count (x : Z) (c : M68K_CPU) : M68K_CPU :=
  mkCPU (d c) (a c) (pc c) (sr c) (usp c) (ssp c) (apollo c) (apollo_mode c)
    (halted c) (trace_mode c) (cycle_count c) (instruction_count c)
    (bus_data c) (bus_address c) (bus_active c) (bus_transfers c) (icache c)
    (dcache c) (icache_valid c) (dcache_valid c) (cache_hits c)
    (cache_misses c) (breakpoints c) (num_breakpoints c) (max_breakpoints c)
    (breakpoint_hit c) (breakpoint_addr c) (vbr c) (branch_count c)
    (branch_taken c) (load_count c) x.

(** ** Memory and bus interface ([m68k_cpu.c]) *)

Definition byte_at (memory : list Z) (addr : Z) : Z := idx memory addr.

(** [memcpy(cpu->bus_data, &memory[base], 128)]: the simulated 1024-bit
    burst.  The C call reads past the buffer when fewer than 128 bytes
    follow [base]; the model reads zeroes there. *)
Definition bus_burst (memory : list Z) (base : Z) : list Z :=
  map (fun i : nat => byte_at memory (base + Z.of_nat i)) (seq 0 128).

(** [addr & ~0x7F] on a [uint32_t]. *)
Definition align128 (addr : Z) : Z := Z.land addr 0xFFFFFF80.

Definition m68k_fetch_word (cpu : M68K_CPU) (memory : list Z) (mem_size : Z)
  : Z * M68K_CPU :=
  if pc cpu >=? size_t (mem_size - 1) then
    (0, set_halted true cpu)
  else
    let cpu := set_bus_address (align128 (pc cpu)) cpu in
    let cpu := set_bus_active true cpu in
    let cpu := set_bus_data (bus_burst memory (bus_address cpu)) cpu in
    let word :=
      u16 (Z.lor (Z.shiftl (byte_at memory (pc cpu)) 8)
                 (byte_at memory (u32 (pc cpu + 1)))) in
    let cpu := set_pc (u32 (pc cpu + 2)) cpu in
    let cpu := set_cycle_count (u64 (cycle_count cpu + 1)) cpu in
    (word, cpu).

Definition m68k_fetch_long (cpu : M68K_CPU) (memory : list Z) (mem_size : Z)
  : Z * M68K_CPU :=
  let '(high, cpu) := m68k_fetch_word cpu memory mem_size in
  let '(low, cpu) := m68k_fetch_word cpu memory mem_size in
  (u32 (Z.lor (Z.shiftl high 16) low), cpu).

Definition m68k_read_memory (cpu : M68K_CPU) (memory : list Z) (mem_size : Z)
    (addr : Z) (size : OperandSize) : Z * M68K_CPU :=
  if addr >=? mem_size then
    (0, cpu)
  else
    let cpu := set_bus_address (align128 addr) cpu in
    let cpu := set_bus_active true cpu in
    let cpu := set_bus_data (bus_burst memory (bus_address cpu)) cpu in
    let cpu := set_load_count (u64 (load_count cpu + 1)) cpu in
    let value :=
      match size with
      | SIZE_BYTE => byte_at memory addr
      | SIZE_WORD =>
          if u32 (addr + 1) <? mem_size then
            u32 (Z.lor (Z.shiftl (byte_at memory addr) 8)
                       (byte_at memory (u32 (addr + 1))))
          else 0
      | SIZE_LONG =>
          if u32 (addr + 3) <? mem_size then
            u32 (Z.lor (Z.lor (Z.lor
                   (Z.shiftl (byte_at memory addr) 24)
                   (Z.shiftl (byte_at memory (u32 (addr + 1))) 16))
                   (Z.shiftl (byte_at memory (u32 (addr + 2))) 8))
                   (byte_at memory (u32 (addr + 3))))
          else 0
      | _ => 0
      end in
    let cpu := set_cycle_count (u64 (cycle_count cpu + 1)) cpu in
    (value, cpu).

Definition m68k_write_memory (cpu : M68K_CPU) (memory : list Z) (mem_size : Z)
    (addr value : Z) (size : OperandSize) : M68K_CPU * list Z :=
  if addr >=? mem_size then
    (cpu, memory)
  else
    let cpu := set_bus_address (align128 addr) cpu in
    let cpu := set_bus_active true cpu in
    let cpu := set_store_count (u64 (store_count cpu + 1)) cpu in
    let memory :=
      match size with
      | SIZE_BYTE => upd memory addr (Z.land value 0xFF)
      | SIZE_WORD =>
          if u32 (addr + 1) <? mem_size then
            let memory := upd memory addr (Z.land (Z.shiftr value 8) 0xFF) in
            upd memory (u32 (addr + 1)) (Z.land value 0xFF)
          else memory
      | SIZE_LONG =>
          if u32 (addr + 3) <? mem_size then
            let memory := upd memory addr (Z.land (Z.shiftr value 24) 0xFF) in
            let memory :=
              upd memory (u32 (addr + 1)) (Z.land (Z.shiftr value 16) 0xFF) in
            let memory :=
              upd memory (u32 (addr + 2)) (Z.land (Z.shiftr value 8) 0xFF) in
            upd memory (u32 (addr + 3)) (Z.land value 0xFF)
          else memory
      | _ => memory
      end in
    let cpu := set_cycle_count (u64 (cycle_count cpu + 1)) cpu in
    (cpu, memory).

(** ** Initialisation and reset ([m68k_cpu_extended.c]) *)

Definition zero_breakpoint : M68K_Breakpoint :=
  mkBreakpoint 0 false 0 (repeat 0 64).

Definition zero_apollo : Apollo_Regs :=
  mkApollo (repeat 0 16) (repeat 0 8) (repeat 0 8) 0 0 0.

(** [m68k_init] overwrites the whole structure ([memset] to zero) and then
    stores the non-zero defaults; [calloc] yields a zeroed table of 32
    breakpoints.  Nothing of the previous contents survives, so the result
    does not depend on [cpu]. *)
Definition m68k_init (cpu : M68K_CPU) : M68K_CPU :=
  let cpu :=
    mkCPU (repeat 0 8) (repeat 0 8) 0 0 0 0 zero_apollo false false false
      0 0 (repeat 0 128) 0 false 0 (repeat 0 (Z.to_nat 32768)) (repeat 0 (Z.to_nat 32768))
      (repeat false 256) (repeat false 256) 0 0 [] 0 0 false 0 0 0 0 0 0 in
  let cpu := set_sr SR_SUPERVISOR cpu in
  let cpu := set_ssp 0x10000 cpu in
  let cpu := set_apollo_mode true cpu in
  let cpu := set_max_breakpoints 32 cpu in
  set_breakpoints (repeat zero_breakpoint (Z.to_nat (max_breakpoints cpu))) cpu.

Definition m68k_reset (cpu : M68K_CPU) : M68K_CPU :=
  let cycles := cycle_count cpu in
  let instrs := instruction_count cpu in
  let apollo := apollo_mode cpu in
  let bp := breakpoints cpu in
  let num_bp := num_breakpoints cpu in
  let max_bp := max_breakpoints cpu in
  let cpu := m68k_init cpu in
  let cpu := set_cycle_count cycles cpu in
  let cpu := set_instruction_count instrs cpu in
  let cpu := set_apollo_mode apollo cpu in
  let cpu := set_breakpoints bp cpu in
  let cpu := set_num_breakpoints num_bp cpu in
  set_max_breakpoints max_bp cpu.

(** ** Flags and condition test ([m68k_cpu_extended.c]) *)

Definition m68k_get_flag (cpu : M68K_CPU) (flag : Z) : bool :=
  negb (Z.land (sr cpu) flag =? 0).

Definition m68k_set_flag (cpu : M68K_CPU) (flag : Z) (value : bool) : M68K_CPU :=
  if value then set_sr (u16 (Z.lor (sr cpu) flag)) cpu
  else set_sr (u16 (Z.land (sr cpu) (Z.lnot flag))) cpu.

Definition m68k_set_flags (cpu : M68K_CPU) (result : Z) (size : OperandSize)
  : M68K_CPU :=
  let result := u32 result in
  let '(is_zero, is_neg) :=
    match size with
    | SIZE_BYTE => (u8 result =? 0, s8 result <? 0)
    | SIZE_WORD => (u16 result =? 0, s16 result <? 0)
    | SIZE_LONG => (result =? 0, s32 result <? 0)
    | _ => (false, false)
    end in
  let cpu := m68k_set_flag cpu SR_ZERO is_zero in
  m68k_set_flag cpu SR_NEGATIVE is_neg.

Definition m68k_test_condition (cpu : M68K_CPU) (condition : Z) : bool :=
  let c := m68k_get_flag cpu SR_CARRY in
  let v := m68k_get_flag cpu SR_OVERFLOW in
  let z := m68k_get_flag cpu SR_ZERO in
  let n := m68k_get_flag cpu SR_NEGATIVE in
  match condition with
  | 0x0 => true
  | 0x1 => false
  | 0x2 => negb c && negb z
  | 0x3 => c || z
  | 0x4 => negb c
  | 0x5 => c
  | 0x6 => negb z
  | 0x7 => z
  | 0x8 => negb v
  | 0x9 => v
  | 0xA => negb n
  | 0xB => n
  | 0xC => (n && v) || (negb n && negb v)
  | 0xD => (n && negb v) || (negb n && v)
  | 0xE => negb z && ((n && v) || (negb n && negb v))
  | 0xF => z || (n && negb v) || (negb n && v)
  | _ => false
  end.

(** ** Breakpoints ([m68k_cpu_extended.c]) *)

Definition set_hit_count (x : Z) (bp : M68K_Breakpoint) : M68K_Breakpoint :=
  mkBreakpoint (address bp) (enabled bp) x (condition bp).

Definition set_enabled (x : bool) (bp : M68K_Breakpoint) : M68K_Breakpoint :=
  mkBreakpoint (address bp) x (hit_count bp) (condition bp).

(** [realloc] to [n] entries: the old entries are kept and the new tail is
    uninitialised in C; it is only ever read after being stored to. *)
Definition realloc_breakpoints (bps : list M68K_Breakpoint) (n : Z)
  : list M68K_Breakpoint :=
  take (Z.to_nat n) bps ++ repeat zero_breakpoint (Z.to_nat n - length bps).

Definition m68k_add_breakpoint (cpu : M68K_CPU) (addr : Z) : M68K_CPU :=
  let cpu :=
    if num_breakpoints cpu >=? max_breakpoints cpu then
      let cpu := set_max_breakpoints (s32 (max_breakpoints cpu * 2)) cpu in
      set_breakpoints
        (realloc_breakpoints (breakpoints cpu) (max_breakpoints cpu)) cpu
    else cpu in
  let n := Z.to_nat (num_breakpoints cpu) in
  let cpu :=
    set_breakpoints
      (alter (fun bp => mkBreakpoint addr true 0 (condition bp)) n
             (breakpoints cpu)) cpu in
  set_num_breakpoints (s32 (num_breakpoints cpu + 1)) cpu.

(** The loop of [m68k_check_breakpoint]: entries [i], [i+1], ... below
    [num_breakpoints] are tried in order, [n] of them remaining; the first
    enabled entry at [addr] ends the loop. *)
Fixpoint find_breakpoint (bps : list M68K_Breakpoint) (addr : Z)
    (i n : nat) : option nat :=
  match n with
  | O => None
  | S n' =>
      match bps !! i with
      | Some bp =>
          if enabled bp && (address bp =? addr) then Some i
          else find_breakpoint bps addr (S i) n'
      | None => find_breakpoint bps addr (S i) n'
      end
  end.

Definition m68k_check_breakpoint (cpu : M68K_CPU) (addr : Z)
  : bool * M68K_CPU :=
  match find_breakpoint (breakpoints cpu) addr 0
          (Z.to_nat (num_breakpoints cpu)) with
  | Some i =>
      let cpu :=
        set_breakpoints
          (alter (fun bp => set_hit_count (u64 (hit_count bp + 1)) bp) i
                 (breakpoints cpu)) cpu in
      let cpu := set_breakpoint_hit true cpu in
      let cpu := set_breakpoint_addr addr cpu in
      (true, cpu)
  | None => (false, cpu)
  end.

(** ** Instruction decoder ([m68k_decode.c]) *)

(** The C function writes its results through [op] and [params]; the model
    returns them.  [params] is the 8-byte scratch array. *)
Definition m68k_decode_instruction (cpu : M68K_CPU) (opcode : Z)
  : OpCode * list Z :=
  let op := OP_ILLEGAL in
  let params := repeat 0 8 in
  let hi4 := Z.land (Z.shiftr opcode 12) 0xF in
  let reg_dst := Z.land (Z.shiftr opcode 9) 0x7 in
  (* Line 0: bit manipulation, MOVEP, immediate *)
  if hi4 =? 0x0 then
    if Z.land opcode 0xF1C0 =? 0x0100 then
      let type := Z.land (Z.shiftr opcode 6) 0x3 in
      (if type =? 0 then OP_BTST else if type =? 1 then OP_BCHG
       else if type =? 2 then OP_BCLR else OP_BSET, params)
    else if Z.land opcode 0xFFC0 =? 0x0800 then (OP_BTST, params)
    else if Z.land opcode 0xFF00 =? 0x0000 then
      let operation := Z.land (Z.shiftr opcode 9) 0x7 in
      (match operation with
       | 0 => OP_ORI | 1 => OP_ANDI | 2 => OP_SUBI | 3 => OP_ADDI
       | 5 => OP_EORI | 6 => OP_CMPI | _ => op
       end, params)
    else if Z.land opcode 0xF138 =? 0x0108 then (OP_MOVEP, params)
    else (op, params)
  (* Lines 1, 2, 3: MOVE *)
  else if (hi4 =? 0x1) || (hi4 =? 0x2) || (hi4 =? 0x3) then
    (if Z.land opcode 0x01C0 =? 0x0040 then OP_MOVEA else OP_MOVE,
     upd params 0 hi4)
  (* Line 4: miscellaneous *)
  else if hi4 =? 0x4 then
    if Z.land opcode 0xFFC0 =? 0x4E40 then
      (OP_TRAP, upd params 0 (Z.land opcode 0xF))
    else if opcode =? 0x4E70 then (OP_RESET, params)
    else if opcode =? 0x4E71 then (OP_NOP, params)
    else if opcode =? 0x4E72 then (OP_STOP, params)
    else if opcode =? 0x4E73 then (OP_RTE, params)
    else if opcode =? 0x4E75 then (OP_RTS, params)
    else if opcode =? 0x4E76 then (OP_TRAPV, params)
    else if opcode =? 0x4E77 then (OP_RTR, params)
    else if Z.land opcode 0xFFF0 =? 0x4E50 then (OP_LINK, params)
    else if Z.land opcode 0xFFF8 =? 0x4E58 then (OP_UNLK, params)
    else if Z.land opcode 0xFFC0 =? 0x4E80 then (OP_JSR, params)
    else if Z.land opcode 0xFFC0 =? 0x4EC0 then (OP_JMP, params)
    else if Z.land opcode 0xFF00 =? 0x4000 then
      let type := Z.land (Z.shiftr opcode 9) 0x7 in
      (match type with
       | 0 => OP_NEGX | 2 => OP_CLR | 4 => OP_NEG | 6 => OP_NOT | _ => op
       end, params)
    else if Z.land opcode 0xFB80 =? 0x4880 then (OP_EXT, params)
    else if Z.land opcode 0xFFC0 =? 0x4AC0 then (OP_TAS, params)
    else if Z.land opcode 0xFF00 =? 0x4A00 then (OP_TST, params)
    else if Z.land opcode 0xFFC0 =? 0x4800 then (OP_NBCD, params)
    else if Z.land opcode 0xFFF8 =? 0x4840 then (OP_SWAP, params)
    else if Z.land opcode 0xFFF8 =? 0x4848 then (OP_BKPT, params)
    else if Z.land opcode 0xFFC0 =? 0x4840 then (OP_PEA, params)
    else if Z.land opcode 0xFB80 =? 0x4880 then (OP_MOVEM, params)
    else if Z.land opcode 0xFFC0 =? 0x44C0 then (OP_MOVE_CCR, params)
    else if Z.land opcode 0xFFC0 =? 0x46C0 then (OP_MOVE_SR, params)
    else if Z.land opcode 0xFF00 =? 0x4200 then (OP_CLR, params)
    else if Z.land opcode 0xF1C0 =? 0x41C0 then (OP_LEA, params)
    else if Z.land opcode 0xF1C0 =? 0x4180 then (OP_CHK, params)
    else (op, params)
  (* Line 5: ADDQ, SUBQ, Scc, DBcc *)
  else if hi4 =? 0x5 then
    if Z.land opcode 0xF0C0 =? 0x50C0 then
      if Z.land opcode 0x38 =? 0x08 then
        (OpCode_of_Z (OpCode_to_Z OP_DBCC + Z.land (Z.shiftr opcode 8) 0xF),
         upd params 0 (Z.land (Z.shiftr opcode 8) 0xF))
      else
        (OpCode_of_Z (OpCode_to_Z OP_SCC + Z.land (Z.shiftr opcode 8) 0xF),
         upd params 0 (Z.land (Z.shiftr opcode 8) 0xF))
    else
      (if negb (Z.land (Z.shiftr opcode 8) 1 =? 0) then OP_SUBQ else OP_ADDQ,
       upd params 0 (if negb (reg_dst =? 0) then reg_dst else 8))
  (* Line 6: Bcc, BSR, BRA *)
  else if hi4 =? 0x6 then
    let cond := Z.land (Z.shiftr opcode 8) 0xF in
    (if cond =? 0x0 then OP_BRA
     else if cond =? 0x1 then OP_BSR
     else OpCode_of_Z (OpCode_to_Z OP_BCC + (cond - 2)),
     upd params 0 (Z.land opcode 0xFF))
  (* Line 7: MOVEQ *)
  else if hi4 =? 0x7 then
    if Z.land opcode 0x0100 =? 0 then
      (OP_MOVEQ, upd (upd params 0 (Z.land opcode 0xFF)) 1 reg_dst)
    else (op, params)
  (* Line 8: OR, DIV, SBCD *)
  else if hi4 =? 0x8 then
    if Z.land opcode 0x01F0 =? 0x0100 then (OP_SBCD, params)
    else if Z.land opcode 0x01C0 =? 0x01C0 then
      (if negb (Z.land (Z.shiftr opcode 8) 1 =? 0) then OP_DIVS else OP_DIVU,
       params)
    else (OP_OR, params)
  (* Line 9: SUB, SUBX *)
  else if hi4 =? 0x9 then
    if Z.land opcode 0xF130 =? 0x9100 then (OP_SUBX, params)
    else if Z.land opcode 0x00C0 =? 0x00C0 then (OP_SUBA, params)
    else (OP_SUB, params)
  (* Line A: unassigned *)
  else if hi4 =? 0xA then (OP_ILLEGAL, params)
  (* Line B: CMP, EOR *)
  else if hi4 =? 0xB then
    if Z.land opcode 0x0100 =? 0x0100 then
      if Z.land opcode 0x0038 =? 0x0008 then (OP_CMPM, params)
      else (OP_EOR, params)
    else
      if Z.land opcode 0x00C0 =? 0x00C0 then (OP_CMPA, params)
      else (OP_CMP, params)
  (* Line C: AND, MUL, ABCD, EXG *)
  else if hi4 =? 0xC then
    if Z.land opcode 0x01F0 =? 0x0100 then (OP_ABCD, params)
    else if Z.land opcode 0xF130 =? 0xC100 then (OP_EXG, params)
    else if Z.land opcode 0x01C0 =? 0x01C0 then
      (if negb (Z.land (Z.shiftr opcode 8) 1 =? 0) then OP_MULS else OP_MULU,
       params)
    else (OP_AND, params)
  (* Line D: ADD, ADDX *)
  else if hi4 =? 0xD then
    if Z.land opcode 0xF130 =? 0xD100 then (OP_ADDX, params)
    else if Z.land opcode 0x00C0 =? 0x00C0 then (OP_ADDA, params)
    else (OP_ADD, params)
  (* Line E: shift/rotate *)
  else if hi4 =? 0xE then
    if Z.land opcode 0x0018 =? 0x0000 then
      let type := Z.land (Z.shiftr opcode 3) 0x3 in
      let dir := Z.land (Z.shiftr opcode 8) 0x1 in
      (match type with
       | 0 => if negb (dir =? 0) then OP_ASR else OP_ASL
       | 1 => if negb (dir =? 0) then OP_LSR else OP_LSL
       | 2 => if negb (dir =? 0) then OP_ROXR else OP_ROXL
       | 3 => if negb (dir =? 0) then OP_ROR else OP_ROL
       | _ => op
       end, params)
    else (op, params)
  (* Line F: unassigned / FPU *)
  else if hi4 =? 0xF then (OP_ILLEGAL, params)
  else (op, params).

(** ** Routines outside this development

    [m68k_set_flags_add] and [m68k_set_flags_sub] are declared in
    [m68k_cpu.h] and called by the execute family, but no source file of
    the repository defines them.  [m68k_execute_complete]
    ([m68k_execute_complete.c]: FPU, bit-field, 68020+, SIMD and 64-bit
    handlers) and the float arithmetic of the VCROSS handler work on
    floating-point data.  They are taken as parameters: every theorem below
    holds whatever these routines do. *)
Record Externals : Type := mkExternals {
  m68k_set_flags_add :
    M68K_CPU -> Z -> Z -> Z -> OperandSize -> M68K_CPU;
  m68k_set_flags_sub :
    M68K_CPU -> Z -> Z -> Z -> OperandSize -> M68K_CPU;
  m68k_execute_complete :
    M68K_CPU -> list Z -> Z -> OpCode -> Z -> M68K_CPU * list Z;
  (* dst[0..2] = src1 x src2 on the float lanes of apollo.v *)
  vcross_lanes : list Z -> Z -> Z -> Z -> list Z
}.

Definition OpCode_eqb (x y : OpCode) : bool :=
  OpCode_to_Z x =? OpCode_to_Z y.

(** ** Branch and control-flow family ([m68k_execute2.c]) *)

Definition m68k_execute_branches (cpu : M68K_CPU) (memory : list Z)
    (mem_size : Z) (op : OpCode) (opcode : Z) : M68K_CPU * list Z :=
  let reg := Z.land opcode 0x7 in
  let displacement := s8 (Z.land opcode 0xFF) in
  match op with
  | OP_BRA =>
      let '(displacement, cpu) :=
        if displacement =? 0 then
          let '(w, cpu) := m68k_fetch_word cpu memory mem_size in
          (s8 (s16 w), cpu)
        else (displacement, cpu) in
      let cpu := set_pc (u32 (pc cpu + displacement)) cpu in
      let cpu := set_branch_count (u64 (branch_count cpu + 1)) cpu in
      let cpu := set_branch_taken (u64 (branch_taken cpu + 1)) cpu in
      (cpu, memory)
  | OP_BSR =>
      let '(displacement, cpu) :=
        if displacement =? 0 then
          let '(w, cpu) := m68k_fetch_word cpu memory mem_size in
          (s8 (s16 w), cpu)
        else (displacement, cpu) in
      let cpu := set_a (upd (a cpu) 7 (u32 (idx (a cpu) 7 - 4))) cpu in
      let '(cpu, memory) :=
        m68k_write_memory cpu memory mem_size (idx (a cpu) 7) (pc cpu)
          SIZE_LONG in
      let cpu := set_pc (u32 (pc cpu + displacement)) cpu in
      let cpu := set_branch_count (u64 (branch_count cpu + 1)) cpu in
      let cpu := set_branch_taken (u64 (branch_taken cpu + 1)) cpu in
      (cpu, memory)
  | OP_BEQ | OP_BNE | OP_BCC | OP_BCS | OP_BGE | OP_BLT | OP_BGT | OP_BLE
  | OP_BHI | OP_BLS | OP_BPL | OP_BMI | OP_BVC | OP_BVS =>
      let condition := Z.land (Z.shiftr opcode 8) 0xF in
      let cpu := set_branch_count (u64 (branch_count cpu + 1)) cpu in
      if m68k_test_condition cpu condition then
        let '(displacement, cpu) :=
          if displacement =? 0 then
            let '(w, cpu) := m68k_fetch_word cpu memory mem_size in
            (s8 (s16 w), cpu)
          else (displacement, cpu) in
        let cpu := set_pc (u32 (pc cpu + displacement)) cpu in
        let cpu := set_branch_taken (u64 (branch_taken cpu + 1)) cpu in
        (cpu, memory)
      else (cpu, memory)
  | OP_DBCC | OP_DBCS | OP_DBEQ | OP_DBNE | OP_DBGE | OP_DBLT | OP_DBGT
  | OP_DBLE | OP_DBHI | OP_DBLS | OP_DBPL | OP_DBMI | OP_DBVC | OP_DBVS
  | OP_DBT | OP_DBF =>
      let condition := Z.land (Z.shiftr opcode 8) 0xF in
      let '(w, cpu) := m68k_fetch_word cpu memory mem_size in
      let displacement := s16 w in
      if negb (m68k_test_condition cpu condition) then
        let counter := Z.land (idx (d cpu) reg) 0xFFFF in
        let counter := u16 (counter - 1) in
        let cpu :=
          set_d (upd (d cpu) reg
                   (Z.lor (Z.land (idx (d cpu) reg) 0xFFFF0000) counter))
                cpu in
        if negb (counter =? 0xFFFF) then
          (set_pc (u32 (pc cpu + displacement)) cpu, memory)
        else (cpu, memory)
      else (cpu, memory)
  | OP_JMP =>
      let mode := Z.land (Z.shiftr opcode 3) 0x7 in
      let reg := Z.land opcode 0x7 in
      if mode =? 2 then (set_pc (idx (a cpu) reg) cpu, memory)
      else if (mode =? 7) && (reg =? 0) then
        let '(w, cpu) := m68k_fetch_word cpu memory mem_size in
        (set_pc w cpu, memory)
      else if (mode =? 7) && (reg =? 1) then
        let '(l, cpu) := m68k_fetch_long cpu memory mem_size in
        (set_pc l cpu, memory)
      else (cpu, memory)
  | OP_JSR =>
      let mode := Z.land (Z.shiftr opcode 3) 0x7 in
      let reg := Z.land opcode 0x7 in
      let '(target, cpu) :=
        if mode =? 2 then (idx (a cpu) reg, cpu)
        else if (mode =? 7) && (reg =? 0) then
          m68k_fetch_word cpu memory mem_size
        else if (mode =? 7) && (reg =? 1) then
          m68k_fetch_long cpu memory mem_size
        else (0, cpu) in
      let cpu := set_a (upd (a cpu) 7 (u32 (idx (a cpu) 7 - 4))) cpu in
      let '(cpu, memory) :=
        m68k_write_memory cpu memory mem_size (idx (a cpu) 7) (pc cpu)
          SIZE_LONG in
      (set_pc target cpu, memory)
  | OP_RTS =>
      let '(return_addr, cpu) :=
        m68k_read_memory cpu memory mem_size (idx (a cpu) 7) SIZE_LONG in
      let cpu := set_a (upd (a cpu) 7 (u32 (idx (a cpu) 7 + 4))) cpu in
      (set_pc return_addr cpu, memory)
  | OP_RTR =>
      let '(ccr, cpu) :=
        m68k_read_memory cpu memory mem_size (idx (a cpu) 7) SIZE_WORD in
      let ccr := u16 ccr in
      let cpu := set_a (upd (a cpu) 7 (u32 (idx (a cpu) 7 + 2))) cpu in
      let cpu :=
        set_sr (u16 (Z.lor (Z.land (sr cpu) 0xFF00) (Z.land ccr 0x00FF)))
               cpu in
      let '(return_addr, cpu) :=
        m68k_read_memory cpu memory mem_size (idx (a cpu) 7) SIZE_LONG in
      let cpu := set_a (upd (a cpu) 7 (u32 (idx (a cpu) 7 + 4))) cpu in
      (set_pc return_addr cpu, memory)
  | OP_RTE =>
      if Z.land (sr cpu) SR_SUPERVISOR =? 0 then
        (set_halted true cpu, memory)
      else
        let '(w, cpu) :=
          m68k_read_memory cpu memory mem_size (idx (a cpu) 7) SIZE_WORD in
        let cpu := set_sr (u16 w) cpu in
        let cpu := set_a (upd (a cpu) 7 (u32 (idx (a cpu) 7 + 2))) cpu in
        let '(return_addr, cpu) :=
          m68k_read_memory cpu memory mem_size (idx (a cpu) 7) SIZE_LONG in
        let cpu := set_a (upd (a cpu) 7 (u32 (idx (a cpu) 7 + 4))) cpu in
        (set_pc return_addr cpu, memory)
  | OP_SCC | OP_SCS | OP_SEQ | OP_SNE | OP_SGE | OP_SLT | OP_SGT | OP_SLE
  | OP_SHI | OP_SLS | OP_SPL | OP_SMI | OP_SVC | OP_SVS | OP_ST | OP_SF =>
      let condition := Z.land (Z.shiftr opcode 8) 0xF in
      let reg := Z.land opcode 0x7 in
      if m68k_test_condition cpu condition then
        (set_d (upd (d cpu) reg
                  (Z.lor (Z.land (idx (d cpu) reg) 0xFFFFFF00) 0xFF)) cpu,
         memory)
      else
        (set_d (upd (d cpu) reg (Z.land (idx (d cpu) reg) 0xFFFFFF00)) cpu,
         memory)
  | _ => (cpu, memory)
  end.

(** ** Special and system family ([m68k_execute2.c]) *)

(** The pair of calls [m68k_set_flag(cpu, SR_CARRY, false);
    m68k_set_flag(cpu, SR_OVERFLOW, false);] that ends the logic, multiply,
    divide and test handlers. *)
Definition clear_cv (cpu : M68K_CPU) : M68K_CPU :=
  let cpu := m68k_set_flag cpu SR_CARRY false in
  m68k_set_flag cpu SR_OVERFLOW false.

Definition m68k_execute_special (cpu : M68K_CPU) (memory : list Z)
    (mem_size : Z) (op : OpCode) (opcode : Z) : M68K_CPU * list Z :=
  let reg := Z.land opcode 0x7 in
  match op with
  | OP_LEA =>
      let mode := Z.land (Z.shiftr opcode 3) 0x7 in
      let reg_src := Z.land opcode 0x7 in
      let reg_dst := Z.land (Z.shiftr opcode 9) 0x7 in
      if mode =? 2 then
        (set_a (upd (a cpu) reg_dst (idx (a cpu) reg_src)) cpu, memory)
      else if mode =? 5 then
        let '(w, cpu) := m68k_fetch_word cpu memory mem_size in
        let disp := s16 w in
        (set_a (upd (a cpu) reg_dst (u32 (idx (a cpu) reg_src + disp))) cpu,
         memory)
      else if (mode =? 7) && (reg_src =? 0) then
        let '(w, cpu) := m68k_fetch_word cpu memory mem_size in
        (set_a (upd (a cpu) reg_dst w) cpu, memory)
      else if (mode =? 7) && (reg_src =? 1) then
        let '(l, cpu) := m68k_fetch_long cpu memory mem_size in
        (set_a (upd (a cpu) reg_dst l) cpu, memory)
      else (cpu, memory)
  | OP_PEA =>
      let mode := Z.land (Z.shiftr opcode 3) 0x7 in
      let reg := Z.land opcode 0x7 in
      let ea := if mode =? 2 then idx (a cpu) reg else 0 in
      let cpu := set_a (upd (a cpu) 7 (u32 (idx (a cpu) 7 - 4))) cpu in
      m68k_write_memory cpu memory mem_size (idx (a cpu) 7) ea SIZE_LONG
  | OP_LINK =>
      let '(w, cpu) := m68k_fetch_word cpu memory mem_size in
      let displacement := s16 w in
      let cpu := set_a (upd (a cpu) 7 (u32 (idx (a cpu) 7 - 4))) cpu in
      let '(cpu, memory) :=
        m68k_write_memory cpu memory mem_size (idx (a cpu) 7)
          (idx (a cpu) reg) SIZE_LONG in
      let cpu := set_a (upd (a cpu) reg (idx (a cpu) 7)) cpu in
      let cpu :=
        set_a (upd (a cpu) 7 (u32 (idx (a cpu) 7 + displacement))) cpu in
      (cpu, memory)
  | OP_UNLK =>
      let cpu := set_a (upd (a cpu) 7 (idx (a cpu) reg)) cpu in
      let '(x, cpu) :=
        m68k_read_memory cpu memory mem_size (idx (a cpu) 7) SIZE_LONG in
      let cpu := set_a (upd (a cpu) reg x) cpu in
      let cpu := set_a (upd (a cpu) 7 (u32 (idx (a cpu) 7 + 4))) cpu in
      (cpu, memory)
  | OP_SWAP =>
      let value := idx (d cpu) reg in
      let cpu :=
        set_d (upd (d cpu) reg
                 (u32 (Z.lor (Z.shiftl (Z.land value 0xFFFF) 16)
                             (Z.land (Z.shiftr value 16) 0xFFFF)))) cpu in
      let cpu := m68k_set_flags cpu (idx (d cpu) reg) SIZE_LONG in
      (clear_cv cpu, memory)
  | OP_EXT =>
      let cpu :=
        if Z.land opcode 0x0040 =? 0 then
          let byte_val := s8 (Z.land (idx (d cpu) reg) 0xFF) in
          set_d (upd (d cpu) reg
                   (Z.lor (Z.land (idx (d cpu) reg) 0xFFFF0000)
                          (u16 byte_val))) cpu
        else
          let word_val := s16 (Z.land (idx (d cpu) reg) 0xFFFF) in
          set_d (upd (d cpu) reg (u32 word_val)) cpu in
      let cpu := m68k_set_flags cpu (idx (d cpu) reg) SIZE_LONG in
      (clear_cv cpu, memory)
  | OP_EXG =>
      let reg1 := Z.land (Z.shiftr opcode 9) 0x7 in
      let reg2 := Z.land opcode 0x7 in
      let mode := Z.land (Z.shiftr opcode 3) 0x1F in
      if mode =? 0x08 then
        let temp := idx (d cpu) reg1 in
        let cpu := set_d (upd (d cpu) reg1 (idx (d cpu) reg2)) cpu in
        (set_d (upd (d cpu) reg2 temp) cpu, memory)
      else if mode =? 0x09 then
        let temp := idx (a cpu) reg1 in
        let cpu := set_a (upd (a cpu) reg1 (idx (a cpu) reg2)) cpu in
        (set_a (upd (a cpu) reg2 temp) cpu, memory)
      else if mode =? 0x11 then
        let temp := idx (d cpu) reg1 in
        let cpu := set_d (upd (d cpu) reg1 (idx (a cpu) reg2)) cpu in
        (set_a (upd (a cpu) reg2 temp) cpu, memory)
      else (cpu, memory)
  | OP_TRAP => (cpu, memory)
  | OP_TRAPV =>
      if m68k_get_flag cpu SR_OVERFLOW then (set_halted true cpu, memory)
      else (cpu, memory)
  | OP_CHK =>
      let reg_data := Z.land (Z.shiftr opcode 9) 0x7 in
      let data := s16 (Z.land (idx (d cpu) reg_data) 0xFFFF) in
      let upper := s16 (Z.land (idx (d cpu) reg) 0xFFFF) in
      if (data <? 0) || (data >? upper) then (set_halted true cpu, memory)
      else (cpu, memory)
  | OP_TAS =>
      let value := Z.land (idx (d cpu) reg) 0xFF in
      let cpu := m68k_set_flags cpu value SIZE_BYTE in
      let cpu := clear_cv cpu in
      (set_d (upd (d cpu) reg (Z.lor (idx (d cpu) reg) 0x80)) cpu, memory)
  | OP_RESET =>
      if negb (Z.land (sr cpu) SR_SUPERVISOR =? 0) then (cpu, memory)
      else (set_halted true cpu, memory)
  | OP_STOP =>
      if negb (Z.land (sr cpu) SR_SUPERVISOR =? 0) then
        let '(immediate, cpu) := m68k_fetch_word cpu memory mem_size in
        let cpu := set_sr immediate cpu in
        (set_halted true cpu, memory)
      else (set_halted true cpu, memory)
  | _ => (cpu, memory)
  end.

(** ** General execute family ([m68k_execute.c]) *)

Definition get_size (opcode : Z) : OperandSize :=
  let size_bits := Z.land (Z.shiftr opcode 6) 0x3 in
  match size_bits with
  | 0 => SIZE_BYTE
  | 1 => SIZE_WORD
  | 2 => SIZE_LONG
  | _ => SIZE_WORD
  end.

(** The body of the shift/rotate [for] loop, run [count] times. *)
Fixpoint shift_loop (op : OpCode) (count : nat) (value : Z) (cpu : M68K_CPU)
  : Z * M68K_CPU :=
  match count with
  | O => (value, cpu)
  | S count' =>
      let '(carry, value) :=
        if OpCode_eqb op OP_ASL || OpCode_eqb op OP_LSL
           || OpCode_eqb op OP_ROL || OpCode_eqb op OP_ROXL then
          let carry := negb (Z.land value 0x80000000 =? 0) in
          let value := u32 (Z.shiftl value 1) in
          let value :=
            if OpCode_eqb op OP_ROL
            then Z.lor value (if carry then 1 else 0) else value in
          let value :=
            if OpCode_eqb op OP_ROXL
            then Z.lor value (if m68k_get_flag cpu SR_EXTEND then 1 else 0)
            else value in
          (carry, value)
        else
          let carry := negb (Z.land value 0x1 =? 0) in
          let value :=
            if OpCode_eqb op OP_ASR then u32 (Z.shiftr (s32 value) 1)
            else Z.shiftr value 1 in
          let value :=
            if OpCode_eqb op OP_ROR
            then Z.lor value (if carry then 0x80000000 else 0) else value in
          let value :=
            if OpCode_eqb op OP_ROXR
            then Z.lor value
                   (if m68k_get_flag cpu SR_EXTEND then 0x80000000 else 0)
            else value in
          (carry, value) in
      let cpu := m68k_set_flag cpu SR_CARRY carry in
      let cpu := m68k_set_flag cpu SR_EXTEND carry in
      shift_loop op count' value cpu
  end.

Section Execute.

Variable E : Externals.

(** The immediate operand of ADDI/SUBI/CMPI/ANDI/ORI/EORI. *)
Definition fetch_immediate (cpu : M68K_CPU) (memory : list Z) (mem_size : Z)
    (size : OperandSize) : Z * M68K_CPU :=
  match size with
  | SIZE_LONG => m68k_fetch_long cpu memory mem_size
  | _ => m68k_fetch_word cpu memory mem_size
  end.

(** The general handler ([m68k_execute.c]).  It is fallible: the result is
    [None] on the one input for which the C code has no defined result, the
    signed division of [INT_MIN] by [-1] in the DIVS case (line 335); on
    every other input it is the state and memory the C code leaves. *)
Definition m68k_execute_instruction (cpu : M68K_CPU) (memory : list Z)
    (mem_size : Z) (op : OpCode) (opcode : Z)
  : option (M68K_CPU * list Z) :=
  let reg_dst := Z.land (Z.shiftr opcode 9) 0x7 in
  let reg_src := Z.land opcode 0x7 in
  let size := get_size opcode in
  let result : option (M68K_CPU * list Z) :=
    match op with
    | OP_NOP => Some (cpu, memory)
    | OP_MOVE =>
        let value := idx (d cpu) reg_src in
        let cpu := set_d (upd (d cpu) reg_dst value) cpu in
        Some (m68k_set_flags cpu value size, memory)
    | OP_MOVEA =>
        Some (set_a (upd (a cpu) reg_dst (idx (d cpu) reg_src)) cpu, memory)
    | OP_MOVEQ =>
        let immediate := s8 (Z.land opcode 0xFF) in
        let cpu := set_d (upd (d cpu) reg_dst (u32 immediate)) cpu in
        Some (m68k_set_flags cpu (idx (d cpu) reg_dst) SIZE_LONG, memory)
    | OP_ADD =>
        let src := idx (d cpu) reg_src in
        let dst := idx (d cpu) reg_dst in
        let result := u32 (dst + src) in
        let cpu := set_d (upd (d cpu) reg_dst result) cpu in
        Some (m68k_set_flags_add E cpu src dst result size, memory)
    | OP_ADDA =>
        Some (set_a (upd (a cpu) reg_dst
                  (u32 (idx (a cpu) reg_dst + idx (d cpu) reg_src))) cpu,
         memory)
    | OP_ADDI =>
        let '(immediate, cpu) := fetch_immediate cpu memory mem_size size in
        let dst := idx (d cpu) reg_dst in
        let result := u32 (dst + immediate) in
        let cpu := set_d (upd (d cpu) reg_dst result) cpu in
        Some (m68k_set_flags_add E cpu immediate dst result size, memory)
    | OP_ADDQ =>
        let quick := if negb (reg_dst =? 0) then reg_dst else 8 in
        let dst := idx (d cpu) reg_src in
        let result := u32 (dst + quick) in
        let cpu := set_d (upd (d cpu) reg_src result) cpu in
        Some (m68k_set_flags_add E cpu quick dst result size, memory)
    | OP_ADDX =>
        let src := idx (d cpu) reg_src in
        let dst := idx (d cpu) reg_dst in
        let extend := if m68k_get_flag cpu SR_EXTEND then 1 else 0 in
        let result := u32 (dst + src + extend) in
        let cpu := set_d (upd (d cpu) reg_dst result) cpu in
        Some (m68k_set_flags_add E cpu (u32 (src + extend)) dst result size,
         memory)
    | OP_SUB =>
        let src := idx (d cpu) reg_src in
        let dst := idx (d cpu) reg_dst in
        let result := u32 (dst - src) in
        let cpu := set_d (upd (d cpu) reg_dst result) cpu in
        Some (m68k_set_flags_sub E cpu src dst result size, memory)
    | OP_SUBA =>
        Some (set_a (upd (a cpu) reg_dst
                  (u32 (idx (a cpu) reg_dst - idx (d cpu) reg_src))) cpu,
         memory)
    | OP_SUBI =>
        let '(immediate, cpu) := fetch_immediate cpu memory mem_size size in
        let dst := idx (d cpu) reg_dst in
        let result := u32 (dst - immediate) in
        let cpu := set_d (upd (d cpu) reg_dst result) cpu in
        Some (m68k_set_flags_sub E cpu immediate dst result size, memory)
    | OP_SUBQ =>
        let quick := if negb (reg_dst =? 0) then reg_dst else 8 in
        let dst := idx (d cpu) reg_src in
        let result := u32 (dst - quick) in
        let cpu := set_d (upd (d cpu) reg_src result) cpu in
        Some (m68k_set_flags_sub E cpu quick dst result size, memory)
    | OP_SUBX =>
        let src := idx (d cpu) reg_src in
        let dst := idx (d cpu) reg_dst in
        let extend := if m68k_get_flag cpu SR_EXTEND then 1 else 0 in
        let result := u32 (dst - src - extend) in
        let cpu := set_d (upd (d cpu) reg_dst result) cpu in
        Some (m68k_set_flags_sub E cpu (u32 (src + extend)) dst result size,
         memory)
    | OP_CMP =>
        let src := idx (d cpu) reg_src in
        let dst := idx (d cpu) reg_dst in
        let result := u32 (dst - src) in
        Some (m68k_set_flags_sub E cpu src dst result size, memory)
    | OP_CMPA =>
        let src := idx (d cpu) reg_src in
        let dst := idx (a cpu) reg_dst in
        let result := u32 (dst - src) in
        Some (m68k_set_flags_sub E cpu src dst result SIZE_LONG, memory)
    | OP_CMPI =>
        let '(immediate, cpu) := fetch_immediate cpu memory mem_size size in
        let dst := idx (d cpu) reg_dst in
        let result := u32 (dst - immediate) in
        Some (m68k_set_flags_sub E cpu immediate dst result size, memory)
    | OP_AND =>
        let src := idx (d cpu) reg_src in
        let dst := idx (d cpu) reg_dst in
        let result := Z.land dst src in
        let cpu := set_d (upd (d cpu) reg_dst result) cpu in
        Some (clear_cv (m68k_set_flags cpu result size), memory)
    | OP_ANDI =>
        let '(immediate, cpu) := fetch_immediate cpu memory mem_size size in
        let dst := idx (d cpu) reg_dst in
        let result := Z.land dst immediate in
        let cpu := set_d (upd (d cpu) reg_dst result) cpu in
        Some (clear_cv (m68k_set_flags cpu result size), memory)
    | OP_OR =>
        let src := idx (d cpu) reg_src in
        let dst := idx (d cpu) reg_dst in
        let result := Z.lor dst src in
        let cpu := set_d (upd (d cpu) reg_dst result) cpu in
        Some (clear_cv (m68k_set_flags cpu result size), memory)
    | OP_ORI =>
        let '(immediate, cpu) := fetch_immediate cpu memory mem_size size in
        let dst := idx (d cpu) reg_dst in
        let result := Z.lor dst immediate in
        let cpu := set_d (upd (d cpu) reg_dst result) cpu in
        Some (clear_cv (m68k_set_flags cpu result size), memory)
    | OP_EOR =>
        let src := idx (d cpu) reg_src in
        let dst := idx (d cpu) reg_dst in
        let result := Z.lxor dst src in
        let cpu := set_d (upd (d cpu) reg_dst result) cpu in
        Some (clear_cv (m68k_set_flags cpu result size), memory)
    | OP_EORI =>
        let '(immediate, cpu) := fetch_immediate cpu memory mem_size size in
        let dst := idx (d cpu) reg_dst in
        let result := Z.lxor dst immediate in
        let cpu := set_d (upd (d cpu) reg_dst result) cpu in
        Some (clear_cv (m68k_set_flags cpu result size), memory)
    | OP_NOT =>
        let result := u32 (Z.lnot (idx (d cpu) reg_dst)) in
        let cpu := set_d (upd (d cpu) reg_dst result) cpu in
        Some (clear_cv (m68k_set_flags cpu result size), memory)
    | OP_NEG =>
        let dst := idx (d cpu) reg_dst in
        let result := u32 (- s32 dst) in
        let cpu := set_d (upd (d cpu) reg_dst result) cpu in
        Some (m68k_set_flags_sub E cpu dst 0 result size, memory)
    | OP_NEGX =>
        let dst := idx (d cpu) reg_dst in
        let extend := if m68k_get_flag cpu SR_EXTEND then 1 else 0 in
        let result := u32 (- s32 dst - extend) in
        let cpu := set_d (upd (d cpu) reg_dst result) cpu in
        Some (m68k_set_flags_sub E cpu (u32 (dst + extend)) 0 result size, memory)
    | OP_CLR =>
        let cpu := set_d (upd (d cpu) reg_dst 0) cpu in
        let cpu := m68k_set_flag cpu SR_NEGATIVE false in
        let cpu := m68k_set_flag cpu SR_ZERO true in
        let cpu := m68k_set_flag cpu SR_OVERFLOW false in
        Some (m68k_set_flag cpu SR_CARRY false, memory)
    | OP_TST =>
        Some (clear_cv (m68k_set_flags cpu (idx (d cpu) reg_dst) size), memory)
    | OP_MULU =>
        let src := Z.land (idx (d cpu) reg_src) 0xFFFF in
        let dst := Z.land (idx (d cpu) reg_dst) 0xFFFF in
        let result := u32 (src * dst) in
        let cpu := set_d (upd (d cpu) reg_dst result) cpu in
        let cpu := clear_cv (m68k_set_flags cpu result SIZE_LONG) in
        Some (set_cycle_count (u64 (cycle_count cpu + 70)) cpu, memory)
    | OP_MULS =>
        let src := s16 (Z.land (idx (d cpu) reg_src) 0xFFFF) in
        let dst := s16 (Z.land (idx (d cpu) reg_dst) 0xFFFF) in
        let result := s32 (src * dst) in
        let cpu := set_d (upd (d cpu) reg_dst (u32 result)) cpu in
        let cpu := clear_cv (m68k_set_flags cpu result SIZE_LONG) in
        Some (set_cycle_count (u64 (cycle_count cpu + 70)) cpu, memory)
    | OP_DIVU =>
        let src := Z.land (idx (d cpu) reg_src) 0xFFFF in
        let dst := idx (d cpu) reg_dst in
        let cpu :=
          if src =? 0 then set_halted true cpu
          else
            let quotient := u16 (Z.quot dst src) in
            let remainder := u16 (Z.rem dst src) in
            let cpu :=
              set_d (upd (d cpu) reg_dst
                       (u32 (Z.lor (Z.shiftl remainder 16) quotient))) cpu in
            clear_cv (m68k_set_flags cpu quotient SIZE_WORD) in
        Some (set_cycle_count (u64 (cycle_count cpu + 140)) cpu, memory)
    | OP_DIVS =>
        let src := s16 (Z.land (idx (d cpu) reg_src) 0xFFFF) in
        let dst := s32 (idx (d cpu) reg_dst) in
        if src =? 0 then
          let cpu := set_halted true cpu in
          Some (set_cycle_count (u64 (cycle_count cpu + 158)) cpu, memory)
        else if (dst =? -0x80000000) && (src =? -1) then
          (* [INT_MIN / -1] in [int]: the quotient is not representable and
             the C division has no defined result *)
          None
        else
          let quotient := s16 (Z.quot dst src) in
          let remainder := s16 (Z.rem dst src) in
          let cpu :=
            set_d (upd (d cpu) reg_dst
                     (u32 (Z.lor (Z.shiftl (u16 remainder) 16)
                                 (u16 quotient)))) cpu in
          let cpu := clear_cv (m68k_set_flags cpu quotient SIZE_WORD) in
          Some (set_cycle_count (u64 (cycle_count cpu + 158)) cpu, memory)
    | OP_ASL | OP_ASR | OP_LSL | OP_LSR
    | OP_ROL | OP_ROR | OP_ROXL | OP_ROXR =>
        let count := Z.land (Z.shiftr opcode 9) 0x7 in
        let count := if count =? 0 then 8 else count in
        let value := idx (d cpu) reg_dst in
        let '(value, cpu) := shift_loop op (Z.to_nat count) value cpu in
        let cpu := set_d (upd (d cpu) reg_dst value) cpu in
        Some (m68k_set_flags cpu value size, memory)
    | OP_VCROSS =>
        if negb (apollo_mode cpu) then Some (cpu, memory)
        else
          let r := apollo cpu in
          let lanes :=
            vcross_lanes E (v r) reg_dst reg_src
              (Z.land (Z.shiftr opcode 6) 0xF) in
          Some (set_apollo (mkApollo lanes (vr r) (fp r) (fpcr r) (fpsr r)
                              (fpiar r)) cpu, memory)
    | _ => Some (m68k_execute_complete E cpu memory mem_size op opcode)
    end in
  match result with
  | Some (cpu, memory) =>
      Some (set_instruction_count (u64 (instruction_count cpu + 1)) cpu,
            memory)
  | None => None
  end.

(** ** Step controller ([m68k_execute2.c]) *)

Definition m68k_execute_cycle (cpu : M68K_CPU) (memory : list Z)
    (mem_size : Z) : option (M68K_CPU * list Z) :=
  if halted cpu then Some (cpu, memory)
  else
    let cpu := set_bus_active false cpu in
    let '(hit, cpu) := m68k_check_breakpoint cpu (pc cpu) in
    if hit then Some (set_halted true cpu, memory)
    else
      let '(opcode, cpu) := m68k_fetch_word cpu memory mem_size in
      let '(op, params) := m68k_decode_instruction cpu opcode in
      if (OpCode_to_Z OP_BRA <=? OpCode_to_Z op)
         && (OpCode_to_Z op <=? OpCode_to_Z OP_DBF) then
        Some (m68k_execute_branches cpu memory mem_size op opcode)
      else if (OpCode_to_Z OP_LEA <=? OpCode_to_Z op)
              && (OpCode_to_Z op <=? OpCode_to_Z OP_STOP) then
        Some (m68k_execute_special cpu memory mem_size op opcode)
      else
        m68k_execute_instruction cpu memory mem_size op opcode.

End Execute.

(** ** BCD handlers ([m68k_addressing.c]) *)

Definition m68k_execute_bcd (cpu : M68K_CPU) (op : OpCode) (opcode : Z)
  : M68K_CPU :=
  let reg_src := Z.land opcode 0x7 in
  let reg_dst := Z.land (Z.shiftr opcode 9) 0x7 in
  match op with
  | OP_ABCD =>
      let src := Z.land (idx (d cpu) reg_src) 0xFF in
      let dst := Z.land (idx (d cpu) reg_dst) 0xFF in
      let extend := if m68k_get_flag cpu SR_EXTEND then 1 else 0 in
      let low := u8 (Z.land dst 0xF + Z.land src 0xF + extend) in
      let '(low, carry_low) :=
        if low >? 9 then (u8 (low + 6), 1) else (low, 0) in
      let high :=
        u8 (Z.land (Z.shiftr dst 4) 0xF + Z.land (Z.shiftr src 4) 0xF
            + carry_low) in
      let '(high, carry_high) :=
        if high >? 9 then (u8 (high + 6), 1) else (high, 0) in
      let result :=
        u8 (Z.lor (Z.shiftl (Z.land high 0xF) 4) (Z.land low 0xF)) in
      let cpu :=
        set_d (upd (d cpu) reg_dst
                 (Z.lor (Z.land (idx (d cpu) reg_dst) 0xFFFFFF00) result))
              cpu in
      let cpu := m68k_set_flag cpu SR_CARRY (negb (carry_high =? 0)) in
      let cpu := m68k_set_flag cpu SR_EXTEND (negb (carry_high =? 0)) in
      if negb (result =? 0) then m68k_set_flag cpu SR_ZERO false else cpu
  | OP_SBCD =>
      let src := Z.land (idx (d cpu) reg_src) 0xFF in
      let dst := Z.land (idx (d cpu) reg_dst) 0xFF in
      let extend := if m68k_get_flag cpu SR_EXTEND then 1 else 0 in
      let low := s16 (Z.land dst 0xF - Z.land src 0xF - extend) in
      let '(low, borrow_low) :=
        if low <? 0 then (s16 (low - 6), 1) else (low, 0) in
      let high :=
        s16 (Z.land (Z.shiftr dst 4) 0xF - Z.land (Z.shiftr src 4) 0xF
             - borrow_low) in
      let '(high, borrow_high) :=
        if high <? 0 then (s16 (high - 6), 1) else (high, 0) in
      let result :=
        u8 (Z.lor (Z.shiftl (Z.land high 0xF) 4) (Z.land low 0xF)) in
      let cpu :=
        set_d (upd (d cpu) reg_dst
                 (Z.lor (Z.land (idx (d cpu) reg_dst) 0xFFFFFF00) result))
              cpu in
      let cpu := m68k_set_flag cpu SR_CARRY (negb (borrow_high =? 0)) in
      let cpu := m68k_set_flag cpu SR_EXTEND (negb (borrow_high =? 0)) in
      if negb (result =? 0) then m68k_set_flag cpu SR_ZERO false else cpu
  | OP_NBCD =>
      let dst := Z.land (idx (d cpu) reg_dst) 0xFF in
      let extend := if m68k_get_flag cpu SR_EXTEND then 1 else 0 in
      let low := s16 (0 - Z.land dst 0xF - extend) in
      let '(low, borrow_low) :=
        if low <? 0 then (s16 (low - 6), 1) else (low, 0) in
      let high := s16 (0 - Z.land (Z.shiftr dst 4) 0xF - borrow_low) in
      let '(high, borrow_high) :=
        if high <? 0 then (s16 (high - 6), 1) else (high, 0) in
      let result :=
        u8 (Z.lor (Z.shiftl (Z.land high 0xF) 4) (Z.land low 0xF)) in
      let cpu :=
        set_d (upd (d cpu) reg_dst
                 (Z.lor (Z.land (idx (d cpu) reg_dst) 0xFFFFFF00) result))
              cpu in
      let cpu := m68k_set_flag cpu SR_CARRY (negb (borrow_high =? 0)) in
      let cpu := m68k_set_flag cpu SR_EXTEND (negb (borrow_high =? 0)) in
      if negb (result =? 0) then m68k_set_flag cpu SR_ZERO false else cpu
  | _ => cpu
  end.

(** ** Effective-address resolver ([m68k_addressing.c]) *)

Definition m68k_get_ea_value (cpu : M68K_CPU) (memory : list Z)
    (mem_size : Z) (mode reg : Z) (size : OperandSize) : Z * M68K_CPU :=
  match mode with
  | 0 => (idx (d cpu) reg, cpu)
  | 1 => (idx (a cpu) reg, cpu)
  | 2 =>
      let ea := idx (a cpu) reg in
      m68k_read_memory cpu memory mem_size ea size
  | 3 =>
      let ea := idx (a cpu) reg in
      let cpu :=
        set_a (upd (a cpu) reg (u32 (idx (a cpu) reg + OperandSize_to_Z size)))
              cpu in
      m68k_read_memory cpu memory mem_size ea size
  | 4 =>
      let cpu :=
        set_a (upd (a cpu) reg (u32 (idx (a cpu) reg - OperandSize_to_Z size)))
              cpu in
      let ea := idx (a cpu) reg in
      m68k_read_memory cpu memory mem_size ea size
  | 5 =>
      let '(w, cpu) := m68k_fetch_word cpu memory mem_size in
      let disp := s16 w in
      let ea := u32 (idx (a cpu) reg + disp) in
      m68k_read_memory cpu memory mem_size ea size
  | 6 =>
      let '(ext, cpu) := m68k_fetch_word cpu memory mem_size in
      let disp := s8 (Z.land ext 0xFF) in
      let idx_reg := Z.land (Z.shiftr ext 12) 0x7 in
      let is_addr := negb (Z.land (Z.shiftr ext 15) 0x1 =? 0) in
      let index :=
        s32 (if is_addr then idx (a cpu) idx_reg else idx (d cpu) idx_reg) in
      let index := if Z.land ext 0x0800 =? 0 then s16 index else index in
      let ea := u32 (idx (a cpu) reg + disp + index) in
      m68k_read_memory cpu memory mem_size ea size
  | 7 =>
      match reg with
      | 0 =>
          let '(w, cpu) := m68k_fetch_word cpu memory mem_size in
          let ea := u32 (s16 w) in
          m68k_read_memory cpu memory mem_size ea size
      | 1 =>
          let '(ea, cpu) := m68k_fetch_long cpu memory mem_size in
          m68k_read_memory cpu memory mem_size ea size
      | 2 =>
          let pc0 := pc cpu in
          let '(w, cpu) := m68k_fetch_word cpu memory mem_size in
          let disp := s16 w in
          let ea := u32 (pc0 + disp) in
          m68k_read_memory cpu memory mem_size ea size
      | 4 =>
          match size with
          | SIZE_LONG => m68k_fetch_long cpu memory mem_size
          | _ => m68k_fetch_word cpu memory mem_size
          end
      | _ => (0, cpu)
      end
  | _ => (0, cpu)
  end.

Definition m68k_set_ea_value (cpu : M68K_CPU) (memory : list Z)
    (mem_size : Z) (mode reg value : Z) (size : OperandSize)
  : M68K_CPU * list Z :=
  match mode with
  | 0 =>
      match size with
      | SIZE_BYTE =>
          (set_d (upd (d cpu) reg
                    (Z.lor (Z.land (idx (d cpu) reg) 0xFFFFFF00)
                           (Z.land value 0xFF))) cpu, memory)
      | SIZE_WORD =>
          (set_d (upd (d cpu) reg
                    (Z.lor (Z.land (idx (d cpu) reg) 0xFFFF0000)
                           (Z.land value 0xFFFF))) cpu, memory)
      | _ => (set_d (upd (d cpu) reg value) cpu, memory)
      end
  | 1 => (set_a (upd (a cpu) reg value) cpu, memory)
  | 2 =>
      let ea := idx (a cpu) reg in
      m68k_write_memory cpu memory mem_size ea value size
  | 3 =>
      let ea := idx (a cpu) reg in
      let '(cpu, memory) :=
        m68k_write_memory cpu memory mem_size ea value size in
      (set_a (upd (a cpu) reg (u32 (idx (a cpu) reg + OperandSize_to_Z size)))
             cpu, memory)
  | 4 =>
      let cpu :=
        set_a (upd (a cpu) reg (u32 (idx (a cpu) reg - OperandSize_to_Z size)))
              cpu in
      let ea := idx (a cpu) reg in
      m68k_write_memory cpu memory mem_size ea value size
  | 5 =>
      let '(w, cpu) := m68k_fetch_word cpu memory mem_size in
      let disp := s16 w in
      let ea := u32 (idx (a cpu) reg + disp) in
      m68k_write_memory cpu memory mem_size ea value size
  | 7 =>
      match reg with
      | 0 =>
          let '(w, cpu) := m68k_fetch_word cpu memory mem_size in
          let ea := u32 (s16 w) in
          m68k_write_memory cpu memory mem_size ea value size
      | 1 =>
          let '(ea, cpu) := m68k_fetch_long cpu memory mem_size in
          m68k_write_memory cpu memory mem_size ea value size
      | _ => (cpu, memory)
      end
  | _ => (cpu, memory)
  end.

(** ** The driver side

    What the callers of the core do around it ([main.c], [os_loader.c]):
    declare the structure, initialise it, load a program, step. *)

(** [M68K_CPU cpu;] before [m68k_init(&cpu)]: contents are irrelevant. *)
Definition uninitialised : M68K_CPU :=
  mkCPU [] [] 0 0 0 0 (mkApollo [] [] [] 0 0 0) false false false 0 0 [] 0
    false 0 [] [] [] [] 0 0 [] 0 0 false 0 0 0 0 0 0.

Definition power_on : M68K_CPU := m68k_init uninitialised.

(** The explicit clear of the halted flag by which a driver resumes after
    a halt: a plain store [cpu.halted = false]. *)
Definition clear_halted (cpu : M68K_CPU) : M68K_CPU := set_halted false cpu.

Section Driver.

Variable E : Externals.

(** [n] calls of the step on the same processor and buffer; [None] as soon
    as one step has no defined result. *)
Fixpoint run (n : nat) (cpu : M68K_CPU) (memory : list Z) (mem_size : Z)
  : option (M68K_CPU * list Z) :=
  match n with
  | O => Some (cpu, memory)
  | S n' =>
      match m68k_execute_cycle E cpu memory mem_size with
      | Some (cpu, memory) => run n' cpu memory mem_size
      | None => None
      end
  end.

(** One arrival after a halt: resume, then step. *)
Definition resume_and_step (memory : list Z) (mem_size : Z) (cpu : M68K_CPU)
  : option M68K_CPU :=
  fst <$> m68k_execute_cycle E (clear_halted cpu) memory mem_size.

End Driver.

(** Big-endian image of a list of instruction words, zero-padded to
    [mem_size] bytes (the [calloc]'ed buffer of [main.c] after
    [load_test_program], with the program at address 0). *)
Definition load_words (ws : list Z) (mem_size : nat) : list Z :=
  let bytes :=
    flat_map (fun w => [Z.land (Z.shiftr w 8) 0xFF; Z.land w 0xFF]) ws in
  bytes ++ repeat 0 (mem_size - length bytes).

(** The arithmetic part of the test program of [main.c]
    ([load_test_program]), BEQ in its 16-bit displacement form. *)
Definition test_program : list Z :=
  [ 0x7001    (* MOVEQ #1, D0 *)
  ; 0x7202    (* MOVEQ #2, D1 *)
  ; 0x7403    (* MOVEQ #3, D2 *)
  ; 0xD240    (* ADD.W D0, D1 *)
  ; 0x9440    (* SUB.W D0, D2 *)
  ; 0xB440    (* CMP.W D0, D2 *)
  ; 0x6700    (* BEQ *)
  ; 0x0002    (*   16-bit displacement *)
  ; 0xD440 ]. (* ADD.W D0, D2 *)

(** The same eight instructions with BEQ in its 8-bit displacement form. *)
Definition test_program_short : list Z :=
  [ 0x7001; 0x7202; 0x7403; 0xD240; 0x9440; 0xB440
  ; 0x6702    (* BEQ.S +2 *)
  ; 0xD440 ].

(** An instance of the outside routines for closed examples: each leaves
    the state as it is.  The general theorems quantify over every instance. *)
Definition idle_externals : Externals :=
  mkExternals (fun cpu _ _ _ _ => cpu) (fun cpu _ _ _ _ => cpu)
    (fun cpu memory _ _ _ => (cpu, memory)) (fun lanes _ _ _ => lanes).

(** ** The condition table of the specification

    The sixteen condition codes and the truth table as the specification
    words it, to be compared with [m68k_test_condition]. *)

Inductive CondCode : Set :=
  | CC_T | CC_F | CC_HI | CC_LS | CC_CC | CC_CS | CC_NE | CC_EQ
  | CC_VC | CC_VS | CC_PL | CC_MI | CC_GE | CC_LT | CC_GT | CC_LE.

Definition CondCode_to_Z (cc : CondCode) : Z :=
  match cc with
  | CC_T => 0x0 | CC_F => 0x1 | CC_HI => 0x2 | CC_LS => 0x3
  | CC_CC => 0x4 | CC_CS => 0x5 | CC_NE => 0x6 | CC_EQ => 0x7
  | CC_VC => 0x8 | CC_VS => 0x9 | CC_PL => 0xA | CC_MI => 0xB
  | CC_GE => 0xC | CC_LT => 0xD | CC_GT => 0xE | CC_LE => 0xF
  end.

Definition standard_condition (cc : CondCode) (n z v c : bool) : bool :=
  match cc with
  | CC_T => true
  | CC_F => false
  | CC_HI => negb c && negb z
  | CC_LS => c || z
  | CC_CC => negb c
  | CC_CS => c
  | CC_NE => negb z
  | CC_EQ => z
  | CC_VC => negb v
  | CC_VS => v
  | CC_PL => negb n
  | CC_MI => n
  | CC_GE => Bool.eqb n v
  | CC_LT => xorb n v
  | CC_GT => negb z && Bool.eqb n v
  | CC_LE => z || xorb n v
  end.

(** The status word holding exactly the given N, Z, V, C. *)
Definition ccr_of_flags (n z v c : bool) : Z :=
  (if n then SR_NEGATIVE else 0) + (if z then SR_ZERO else 0)
  + (if v then SR_OVERFLOW else 0) + (if c then SR_CARRY else 0).

(** The operand widths of the specification: truncation to the operand
    size and its sign. *)
Definition truncate (size : OperandSize) (x : Z) : Z :=
  x mod 2 ^ (8 * OperandSize_to_Z size).

Definition sign_bit (size : OperandSize) (x : Z) : bool :=
  Z.testbit x (8 * OperandSize_to_Z size - 1).

(** ** Breakpoint hits, as the specification speaks of them *)

(** Entry [k] of the table is in use, enabled, set at the current PC, and
    no earlier entry in use is enabled at that address. *)
Definition first_enabled_at (cpu : M68K_CPU) (k : nat) (bp : M68K_Breakpoint)
  : Prop :=
  (k < Z.to_nat (num_breakpoints cpu))%nat
  /\ breakpoints cpu !! k = Some bp
  /\ enabled bp = true
  /\ address bp = pc cpu
  /\ forall j bp', (j < k)%nat -> breakpoints cpu !! j = Some bp' ->
       enabled bp' && (address bp' =? pc cpu) = false.

(** What a step that stops at a breakpoint must leave alone. *)
Definition same_context (cpu cpu' : M68K_CPU) : Prop :=
  pc cpu' = pc cpu /\ d cpu' = d cpu /\ a cpu' = a cpu /\ sr cpu' = sr cpu
  /\ usp cpu' = usp cpu /\ ssp cpu' = ssp cpu /\ vbr cpu' = vbr cpu
  /\ apollo cpu' = apollo cpu
  /\ cycle_count cpu' = cycle_count cpu
  /\ instruction_count cpu' = instruction_count cpu
  /\ num_breakpoints cpu' = num_breakpoints cpu.

(** * Further routines of the core

    The rest of the breakpoint interface, the bit-manipulation handler of
    [m68k_addressing.c], and the integer handlers of
    [m68k_execute_complete.c]. *)

(** ** Breakpoint interface, continued ([m68k_cpu_extended.c]) *)

(** The search loop of [m68k_remove_breakpoint] and
    [m68k_enable_breakpoint]: the first entry in use at [addr], enabled or
    not. *)
Fixpoint find_address (bps : list M68K_Breakpoint) (addr : Z)
    (i n : nat) : option nat :=
  match n with
  | O => None
  | S n' =>
      match bps !! i with
      | Some bp =>
          if address bp =? addr then Some i
          else find_address bps addr (S i) n'
      | None => find_address bps addr (S i) n'
      end
  end.

(** [for (j = i; j < num - 1; j++) breakpoints[j] = breakpoints[j + 1];],
    [n] iterations remaining from index [j]. *)
Fixpoint shift_down (bps : list M68K_Breakpoint) (j n : nat)
  : list M68K_Breakpoint :=
  match n with
  | O => bps
  | S n' =>
      let bps :=
        match bps !! S j with
        | Some bp => <[j := bp]> bps
        | None => bps
        end in
      shift_down bps (S j) n'
  end.

Definition m68k_remove_breakpoint (cpu : M68K_CPU) (addr : Z) : M68K_CPU :=
  match find_address (breakpoints cpu) addr 0
          (Z.to_nat (num_breakpoints cpu)) with
  | Some i =>
      let cpu :=
        set_breakpoints
          (shift_down (breakpoints cpu) i
             (Z.to_nat (num_breakpoints cpu - 1) - i)) cpu in
      set_num_breakpoints (s32 (num_breakpoints cpu - 1)) cpu
  | None => cpu
  end.

Definition m68k_clear_breakpoints (cpu : M68K_CPU) : M68K_CPU :=
  set_num_breakpoints 0 cpu.

Definition m68k_enable_breakpoint (cpu : M68K_CPU) (addr : Z) (value : bool)
  : M68K_CPU :=
  match find_address (breakpoints cpu) addr 0
          (Z.to_nat (num_breakpoints cpu)) with
  | Some i =>
      set_breakpoints (alter (set_enabled value) i (breakpoints cpu)) cpu
  | None => cpu
  end.

(** ** Bit manipulation ([m68k_addressing.c]) *)

(** [1 << bit_num] stored in a [uint32_t].  The immediate form takes the
    bit number from a whole byte; C leaves the shift of an [int] undefined
    from 32 on, where the result is [None]. *)
Definition m68k_execute_bit_ops (cpu : M68K_CPU) (memory : list Z)
    (mem_size : Z) (op : OpCode) (opcode : Z)
  : option (M68K_CPU * list Z) :=
  let reg_dst := Z.land opcode 0x7 in
  let reg_src := Z.land (Z.shiftr opcode 9) 0x7 in
  let '(bit_num, cpu) :=
    if Z.land opcode 0x0100 =? 0 then
      let '(w, cpu) := m68k_fetch_word cpu memory mem_size in
      (Z.land w 0xFF, cpu)
    else (Z.land (idx (d cpu) reg_src) 0x1F, cpu) in
  let value := idx (d cpu) reg_dst in
  if 32 <=? bit_num then None
  else
  let bit_mask := u32 (Z.shiftl 1 bit_num) in
  match op with
  | OP_BTST =>
      let bit_set := negb (Z.land value bit_mask =? 0) in
      Some (m68k_set_flag cpu SR_ZERO (negb bit_set), memory)
  | OP_BCHG =>
      let bit_set := negb (Z.land value bit_mask =? 0) in
      let cpu := m68k_set_flag cpu SR_ZERO (negb bit_set) in
      Some (set_d (upd (d cpu) reg_dst (Z.lxor value bit_mask)) cpu, memory)
  | OP_BCLR =>
      let bit_set := negb (Z.land value bit_mask =? 0) in
      let cpu := m68k_set_flag cpu SR_ZERO (negb bit_set) in
      Some (set_d (upd (d cpu) reg_dst
                     (Z.land value (u32 (Z.lnot bit_mask)))) cpu, memory)
  | OP_BSET =>
      let bit_set := negb (Z.land value bit_mask =? 0) in
      let cpu := m68k_set_flag cpu SR_ZERO (negb bit_set) in
      Some (set_d (upd (d cpu) reg_dst (Z.lor value bit_mask)) cpu, memory)
  | _ => Some (cpu, memory)
  end.

(** ** 68020+ extended instructions ([m68k_execute_complete.c]) *)

Definition set_vbr (x : Z) (c : M68K_CPU) : M68K_CPU :=
  mkCPU (d c) (a c) (pc c) (sr c) (usp c) (ssp c) (apollo c) (apollo_mode c)
    (halted c) (trace_mode c) (cycle_count c) (instruction_count c)
    (bus_data c) (bus_address c) (bus_active c) (bus_transfers c) (icache c)
    (dcache c) (icache_valid c) (dcache_valid c) (cache_hits c)
    (cache_misses c) (breakpoints c) (num_breakpoints c) (max_breakpoints c)
    (breakpoint_hit c) (breakpoint_addr c) x (branch_count c)
    (branch_taken c) (load_count c) (store_count c).

(** The handler is fallible: [None] where the C code has no defined result,
    which is DIVSL of [INT_MIN] by [-1] and a MOVES whose extension word
    names a register index from 8 on. *)
Definition m68k_execute_extended (cpu : M68K_CPU) (memory : list Z)
    (mem_size : Z) (op : OpCode) (opcode : Z)
  : option (M68K_CPU * list Z) :=
  let reg_dst := Z.land (Z.shiftr opcode 9) 0x7 in
  let reg_src := Z.land opcode 0x7 in
  match op with
  | OP_EXTB =>
      let byte_val := s8 (Z.land (idx (d cpu) reg_dst) 0xFF) in
      let cpu := set_d (upd (d cpu) reg_dst (u32 byte_val)) cpu in
      Some (m68k_set_flags cpu (idx (d cpu) reg_dst) SIZE_LONG, memory)
  | OP_PACK =>
      let '(adjustment, cpu) := m68k_fetch_word cpu memory mem_size in
      let src := Z.land (idx (d cpu) reg_src) 0xFFFF in
      let result :=
        u8 (Z.lor (Z.land (Z.shiftr src 4) 0xF0) (Z.land src 0x0F)) in
      let result := u8 (result + adjustment) in
      Some (set_d (upd (d cpu) reg_dst
                     (Z.lor (Z.land (idx (d cpu) reg_dst) 0xFFFFFF00) result))
                  cpu,
            memory)
  | OP_UNPK =>
      let '(adjustment, cpu) := m68k_fetch_word cpu memory mem_size in
      let src := Z.land (idx (d cpu) reg_src) 0xFF in
      let result :=
        u16 (Z.lor (Z.shiftl (u16 (Z.land src 0xF0)) 4) (Z.land src 0x0F)) in
      let result := u16 (result + adjustment) in
      Some (set_d (upd (d cpu) reg_dst
                     (Z.lor (Z.land (idx (d cpu) reg_dst) 0xFFFF0000) result))
                  cpu,
            memory)
  | OP_DIVSL =>
      let divisor := idx (d cpu) reg_src in
      let '(w, cpu) := m68k_fetch_word cpu memory mem_size in
      let dividend_reg := Z.land (Z.shiftr w 12) 0x7 in
      let dividend := s32 (idx (d cpu) dividend_reg) in
      if divisor =? 0 then
        let cpu := set_halted true cpu in
        Some (set_cycle_count (u64 (cycle_count cpu + 90)) cpu, memory)
      else if (dividend =? -0x80000000) && (s32 divisor =? -1) then
        (* [INT_MIN / -1] in [int32_t]: no defined result *)
        None
      else
        let quotient := s32 (Z.quot dividend (s32 divisor)) in
        let remainder := s32 (Z.rem dividend (s32 divisor)) in
        let cpu := set_d (upd (d cpu) reg_dst (u32 quotient)) cpu in
        let cpu := set_d (upd (d cpu) dividend_reg (u32 remainder)) cpu in
        let cpu := m68k_set_flags cpu quotient SIZE_LONG in
        Some (set_cycle_count (u64 (cycle_count cpu + 90)) cpu, memory)
  | OP_DIVUL =>
      let divisor := idx (d cpu) reg_src in
      let '(w, cpu) := m68k_fetch_word cpu memory mem_size in
      let dividend_reg := Z.land (Z.shiftr w 12) 0x7 in
      let dividend := idx (d cpu) dividend_reg in
      let cpu :=
        if divisor =? 0 then set_halted true cpu
        else
          let quotient := u32 (Z.quot dividend divisor) in
          let remainder := u32 (Z.rem dividend divisor) in
          let cpu := set_d (upd (d cpu) reg_dst quotient) cpu in
          let cpu := set_d (upd (d cpu) dividend_reg remainder) cpu in
          m68k_set_flags cpu quotient SIZE_LONG in
      Some (set_cycle_count (u64 (cycle_count cpu + 78)) cpu, memory)
  | OP_CAS =>
      let '(extension, cpu) := m68k_fetch_word cpu memory mem_size in
      let compare_reg := Z.land extension 0x7 in
      let update_reg := Z.land (Z.shiftr extension 6) 0x7 in
      let compare_val := idx (d cpu) compare_reg in
      let dest_val := idx (d cpu) reg_dst in
      let cpu :=
        if compare_val =? dest_val then
          let cpu :=
            set_d (upd (d cpu) reg_dst (idx (d cpu) update_reg)) cpu in
          m68k_set_flag cpu SR_ZERO true
        else
          let cpu := set_d (upd (d cpu) compare_reg dest_val) cpu in
          m68k_set_flag cpu SR_ZERO false in
      Some (m68k_set_flag cpu SR_NEGATIVE
              (s32 (u32 (dest_val - compare_val)) <? 0), memory)
  | OP_CAS2 =>
      let '(ext1, cpu) := m68k_fetch_word cpu memory mem_size in
      let '(ext2, cpu) := m68k_fetch_word cpu memory mem_size in
      let cmp1_reg := Z.land ext1 0x7 in
      let cmp2_reg := Z.land ext2 0x7 in
      let upd1_reg := Z.land (Z.shiftr ext1 6) 0x7 in
      let upd2_reg := Z.land (Z.shiftr ext2 6) 0x7 in
      let match1 := idx (d cpu) cmp1_reg =? idx (d cpu) reg_dst in
      let match2 := idx (d cpu) cmp2_reg =? idx (d cpu) reg_src in
      if match1 && match2 then
        let cpu := set_d (upd (d cpu) reg_dst (idx (d cpu) upd1_reg)) cpu in
        let cpu := set_d (upd (d cpu) reg_src (idx (d cpu) upd2_reg)) cpu in
        Some (m68k_set_flag cpu SR_ZERO true, memory)
      else Some (m68k_set_flag cpu SR_ZERO false, memory)
  | OP_CMP2 =>
      let '(extension, cpu) := m68k_fetch_word cpu memory mem_size in
      let reg_to_check := Z.land (Z.shiftr extension 12) 0x7 in
      let is_addr_reg := negb (Z.land (Z.shiftr extension 15) 1 =? 0) in
      let value :=
        if is_addr_reg then idx (a cpu) reg_to_check
        else idx (d cpu) reg_to_check in
      let lower_bound := idx (d cpu) reg_src in
      let upper_bound := idx (d cpu) reg_dst in
      let in_bounds := (value >=? lower_bound) && (value <=? upper_bound) in
      let cpu := m68k_set_flag cpu SR_ZERO in_bounds in
      Some (m68k_set_flag cpu SR_CARRY (negb in_bounds), memory)
  | OP_CALLM =>
      let '(_, cpu) := m68k_fetch_word cpu memory mem_size in
      Some (cpu, memory)
  | OP_RTD =>
      let '(w, cpu) := m68k_fetch_word cpu memory mem_size in
      let displacement := s16 w in
      let '(return_addr, cpu) :=
        m68k_read_memory cpu memory mem_size (idx (a cpu) 7) SIZE_LONG in
      let cpu :=
        set_a (upd (a cpu) 7 (u32 (idx (a cpu) 7 + (4 + displacement))))
              cpu in
      Some (set_pc return_addr cpu, memory)
  | OP_BKPT => Some (set_halted true cpu, memory)
  | OP_MOVEC =>
      let '(extension, cpu) := m68k_fetch_word cpu memory mem_size in
      let gpr := Z.land (Z.shiftr extension 12) 0xF in
      let ctrl_reg := Z.land extension 0xFFF in
      let to_control := negb (Z.land (Z.shiftr opcode 0) 1 =? 0) in
      if Z.land (sr cpu) SR_SUPERVISOR =? 0 then
        Some (set_halted true cpu, memory)
      else
        match ctrl_reg with
        | 0x000 | 0x001 | 0x800 =>
            if to_control then
              Some (set_usp (if gpr <? 8 then idx (d cpu) gpr
                             else idx (a cpu) (gpr - 8)) cpu, memory)
            else if gpr <? 8 then
              Some (set_d (upd (d cpu) gpr (usp cpu)) cpu, memory)
            else Some (set_a (upd (a cpu) (gpr - 8) (usp cpu)) cpu, memory)
        | 0x801 =>
            if to_control then
              Some (set_vbr (if gpr <? 8 then idx (d cpu) gpr
                             else idx (a cpu) (gpr - 8)) cpu, memory)
            else if gpr <? 8 then
              Some (set_d (upd (d cpu) gpr (vbr cpu)) cpu, memory)
            else Some (set_a (upd (a cpu) (gpr - 8) (vbr cpu)) cpu, memory)
        | _ => Some (cpu, memory)
        end
  | OP_MOVES =>
      let '(extension, cpu) := m68k_fetch_word cpu memory mem_size in
      let reg_num := Z.land (Z.shiftr extension 12) 0xF in
      let is_addr := negb (Z.land (Z.shiftr extension 15) 1 =? 0) in
      let to_mem := negb (Z.land (Z.shiftr extension 11) 1 =? 0) in
      if Z.land (sr cpu) SR_SUPERVISOR =? 0 then
        Some (set_halted true cpu, memory)
      else if 8 <=? reg_num then
        (* [reg_num] indexes [a] or [d], arrays of eight registers: an
           index from 8 on is outside the array *)
        None
      else if to_mem then
        let value :=
          if is_addr then idx (a cpu) reg_num else idx (d cpu) reg_num in
        Some (set_d (upd (d cpu) reg_dst value) cpu, memory)
      else
        let value := idx (d cpu) reg_src in
        if is_addr then Some (set_a (upd (a cpu) reg_num value) cpu, memory)
        else Some (set_d (upd (d cpu) reg_num value) cpu, memory)
  | _ => Some (cpu, memory)
  end.

(** ** Apollo 64-bit operations ([m68k_execute_complete.c]) *)



(** ** Well-formed inputs

    What the C types promise of the memory argument: a buffer of
    [mem_size] bytes. *)

Definition byte_buffer (memory : list Z) (mem_size : Z) : Prop :=
  Z.of_nat (length memory) = mem_size
  /\ forall (i : nat) (b : Z), memory !! i = Some b -> 0 <= b < 0x100.

(** ** The breakpoint table, as its users see it *)

(** The entries in use: the first [num_breakpoints]. *)
Definition in_use (cpu : M68K_CPU) : list M68K_Breakpoint :=
  take (Z.to_nat (num_breakpoints cpu)) (breakpoints cpu).

(** The table is an allocated array of [max_breakpoints] entries, a
    positive [int], of which [num_breakpoints] are in use. *)
Definition table_ok (cpu : M68K_CPU) : Prop :=
  0 <= num_breakpoints cpu <= max_breakpoints cpu
  /\ 0 < max_breakpoints cpu < 2 ^ 31
  /\ Z.of_nat (length (breakpoints cpu)) = max_breakpoints cpu.

(** A list of entries without its first entry at [addr]. *)
Fixpoint without_first (addr : Z) (l : list M68K_Breakpoint)
  : list M68K_Breakpoint :=
  match l with
  | [] => []
  | bp :: l' =>
      if address bp =? addr then l' else bp :: without_first addr l'
  end.

(** A list of entries with [f] applied to its first entry at [addr]. *)
Fixpoint alter_first (addr : Z) (f : M68K_Breakpoint -> M68K_Breakpoint)
    (l : list M68K_Breakpoint) : list M68K_Breakpoint :=
  match l with
  | [] => []
  | bp :: l' =>
      if address bp =? addr then f bp :: l'
      else bp :: alter_first addr f l'
  end.

(** ** The reach of the decoder *)

(** The tags [m68k_decode_instruction] yields on some 16-bit opcode word. *)
Definition decoded_tags : list OpCode :=
  [OP_MOVE; OP_MOVEA; OP_MOVEP; OP_MOVEQ; OP_EXG; OP_SWAP; OP_LEA;
   OP_PEA; OP_ADD; OP_ADDA; OP_ADDQ; OP_ADDX; OP_SUB; OP_SUBA;
   OP_SUBQ; OP_SUBX; OP_MULS; OP_DIVS; OP_NEGX; OP_CLR; OP_EXT;
   OP_AND; OP_OR; OP_ORI; OP_EOR; OP_ASL; OP_ASR; OP_BTST; OP_CMP;
   OP_CMPA; OP_CMPM; OP_TST; OP_BRA; OP_BSR; OP_BCC; OP_BCS; OP_BEQ;
   OP_BNE; OP_BGE; OP_BGT; OP_BHI; OP_BLE; OP_BLS; OP_BLT; OP_BMI;
   OP_BPL; OP_BVC; OP_BVS; OP_SCC; OP_SCS; OP_SEQ; OP_SNE; OP_SGE;
   OP_SGT; OP_SHI; OP_SLE; OP_SLS; OP_SLT; OP_SMI; OP_SPL; OP_SVC;
   OP_SVS; OP_ST; OP_SF; OP_JMP; OP_JSR; OP_DBCC; OP_DBCS; OP_DBEQ;
   OP_DBNE; OP_DBGE; OP_DBGT; OP_DBHI; OP_DBLE; OP_DBLS; OP_DBLT;
   OP_DBMI; OP_DBPL; OP_DBVC; OP_DBVS; OP_DBT; OP_DBF; OP_TRAP;
   OP_CHK; OP_MOVE_SR; OP_MOVE_CCR; OP_TAS; OP_NBCD; OP_ABCD; OP_SBCD;
   OP_BKPT; OP_ILLEGAL].

(** [f] holds of [z], [z + 1], ..., [z + n - 1]. *)
Fixpoint forall_from (n : nat) (z : Z) (f : Z -> bool) : bool :=
  match n with
  | O => true
  | S n' => f z && forall_from n' (z + 1) f
  end.

(** ** Families of tags *)

(** The tags of the conditional branches, of the decrement-and-branch
    instructions and of the set-on-condition instructions. *)
Definition conditional_branch_tags : list OpCode :=
  [OP_BEQ; OP_BNE; OP_BCC; OP_BCS; OP_BGE; OP_BLT; OP_BGT; OP_BLE;
   OP_BHI; OP_BLS; OP_BPL; OP_BMI; OP_BVC; OP_BVS].

Definition decrement_branch_tags : list OpCode :=
  [OP_DBCC; OP_DBCS; OP_DBEQ; OP_DBNE; OP_DBGE; OP_DBLT; OP_DBGT;
   OP_DBLE; OP_DBHI; OP_DBLS; OP_DBPL; OP_DBMI; OP_DBVC; OP_DBVS;
   OP_DBT; OP_DBF].

Definition set_on_condition_tags : list OpCode :=
  [OP_SCC; OP_SCS; OP_SEQ; OP_SNE; OP_SGE; OP_SLT; OP_SGT; OP_SLE;
   OP_SHI; OP_SLS; OP_SPL; OP_SMI; OP_SVC; OP_SVS; OP_ST; OP_SF].

(** ** Packed decimal bytes *)

(** The digit arithmetic of the ABCD and SBCD handlers on its own: the
    result byte and the decimal carry or borrow out of the high digit. *)
Definition abcd_byte (src dst extend : Z) : Z * Z :=
  let low := u8 (Z.land dst 0xF + Z.land src 0xF + extend) in
  let '(low, carry_low) :=
    if low >? 9 then (u8 (low + 6), 1) else (low, 0) in
  let high :=
    u8 (Z.land (Z.shiftr dst 4) 0xF + Z.land (Z.shiftr src 4) 0xF
        + carry_low) in
  let '(high, carry_high) :=
    if high >? 9 then (u8 (high + 6), 1) else (high, 0) in
  (u8 (Z.lor (Z.shiftl (Z.land high 0xF) 4) (Z.land low 0xF)), carry_high).

Definition sbcd_byte (src dst extend : Z) : Z * Z :=
  let low := s16 (Z.land dst 0xF - Z.land src 0xF - extend) in
  let '(low, borrow_low) :=
    if low <? 0 then (s16 (low - 6), 1) else (low, 0) in
  let high :=
    s16 (Z.land (Z.shiftr dst 4) 0xF - Z.land (Z.shiftr src 4) 0xF
         - borrow_low) in
  let '(high, borrow_high) :=
    if high <? 0 then (s16 (high - 6), 1) else (high, 0) in
  (u8 (Z.lor (Z.shiftl (Z.land high 0xF) 4) (Z.land low 0xF)), borrow_high).

(** A byte holds two decimal digits; the number it then stands for. *)
Definition bcd_valid (b : Z) : bool := (b / 16 <=? 9) && (b mod 16 <=? 9).

Definition bcd_value (b : Z) : Z := 10 * (b / 16) + b mod 16.

(** What the exhaustive checks below test of one pair of operand bytes. *)
Definition abcd_byte_ok (src dst extend : Z) : bool :=
  let '(r, c) := abcd_byte src dst extend in
  let sum := bcd_value src + bcd_value dst + extend in
  (0 <=? r) && (r <? 0x100) && bcd_valid r
  && (bcd_value r =? sum mod 100)
  && Bool.eqb (negb (c =? 0)) (100 <=? sum).

Definition sbcd_byte_ok (src dst extend : Z) : bool :=
  let '(r, c) := sbcd_byte src dst extend in
  let diff := bcd_value dst - bcd_value src - extend in
  (0 <=? r) && (r <? 0x100) && bcd_valid r
  && (bcd_value r =? diff mod 100)
  && Bool.eqb (negb (c =? 0)) (diff <? 0).

(** ** Rotation by one bit *)

(** One pass of the shift loop on the value, for ROL and for ROR. *)
Definition rotate_left_once (value : Z) : Z :=
  Z.lor (u32 (Z.shiftl value 1))
        (if negb (Z.land value 0x80000000 =? 0) then 1 else 0).

Definition rotate_right_once (value : Z) : Z :=
  Z.lor (Z.shiftr value 1)
        (if negb (Z.land value 0x1 =? 0) then 0x80000000 else 0).

(** * Verification *)

(** ** Fixed-width arithmetic *)

Lemma u8_range z : 0 <= u8 z < 0x100.
Proof. unfold u8. apply Z.mod_pos_bound. lia. Qed.

Lemma u16_range z : 0 <= u16 z < 0x10000.
Proof. unfold u16. apply Z.mod_pos_bound. lia. Qed.

Lemma u32_range z : 0 <= u32 z < 0x100000000.
Proof. unfold u32. apply Z.mod_pos_bound. lia. Qed.

Lemma u16_testbit z i :
  Z.testbit (u16 z) i = (i <? 16) && Z.testbit z i.
Proof. unfold u16. change 0x10000 with (2 ^ 16). apply Z.testbit_mod_pow2. lia. Qed.

Lemma u32_testbit z i :
  Z.testbit (u32 z) i = (i <? 32) && Z.testbit z i.
Proof.
  unfold u32. change 0x100000000 with (2 ^ 32). apply Z.testbit_mod_pow2. lia.
Qed.

Lemma u8_u32 z : u8 (u32 z) = u8 z.
Proof.
  unfold u8, u32. apply Z.mod_mod_divide. exists 0x1000000. reflexivity.
Qed.

Lemma u16_u32 z : u16 (u32 z) = u16 z.
Proof.
  unfold u16, u32. apply Z.mod_mod_divide. exists 0x10000. reflexivity.
Qed.

Lemma u32_u32 z : u32 (u32 z) = u32 z.
Proof. unfold u32. apply Z.mod_mod. lia. Qed.

Lemma s8_u32 z : s8 (u32 z) = s8 z.
Proof. unfold s8. now rewrite u8_u32. Qed.

Lemma s16_u32 z : s16 (u32 z) = s16 z.
Proof. unfold s16. now rewrite u16_u32. Qed.

Lemma s32_u32 z : s32 (u32 z) = s32 z.
Proof. unfold s32. now rewrite u32_u32. Qed.

(** ** Register files *)

Lemma idx_upd_eq (arr : list Z) i x :
  0 <= i -> (Z.to_nat i < length arr)%nat -> idx (upd arr i x) i = x.
Proof.
  intros _ Hi. unfold idx, upd. now rewrite list_lookup_insert_eq.
Qed.

Lemma idx_upd_ne (arr : list Z) i j x :
  0 <= i -> 0 <= j -> i <> j -> idx (upd arr i x) j = idx arr j.
Proof.
  intros Hi Hj Hne. unfold idx, upd.
  rewrite list_lookup_insert_ne; [reflexivity | lia].
Qed.

Lemma length_upd (arr : list Z) i x : length (upd arr i x) = length arr.
Proof. apply length_insert. Qed.

Lemma land7_range z : 0 <= Z.land z 0x7 < 8.
Proof.
  change 0x7 with (Z.ones 3). rewrite Z.land_ones by lia.
  apply Z.mod_pos_bound. reflexivity.
Qed.

Lemma land7_index (arr : list Z) z :
  length arr = 8%nat -> (Z.to_nat (Z.land z 0x7) < length arr)%nat.
Proof. intros ->. pose proof (land7_range z). lia. Qed.

(** ** Status-register bits *)

Lemma land_pow2 x i :
  0 <= i -> Z.land x (2 ^ i) = if Z.testbit x i then 2 ^ i else 0.
Proof.
  intros Hi. apply Z.bits_inj'. intros n Hn.
  rewrite Z.land_spec, Z.pow2_bits_eqb by lia.
  destruct (Z.eqb_spec i n) as [-> | Hne].
  - destruct (Z.testbit x n); simpl.
    + now rewrite Z.pow2_bits_true.
    + now rewrite Z.bits_0.
  - rewrite andb_false_r.
    destruct (Z.testbit x i);
      [now rewrite Z.pow2_bits_false | now rewrite Z.bits_0].
Qed.

Lemma get_flag_testbit cpu i :
  0 <= i -> m68k_get_flag cpu (2 ^ i) = Z.testbit (sr cpu) i.
Proof.
  intros Hi. unfold m68k_get_flag. rewrite land_pow2 by lia.
  destruct (Z.testbit (sr cpu) i); [| reflexivity].
  assert (0 < 2 ^ i) by (apply Z.pow_pos_nonneg; lia).
  destruct (Z.eqb_spec (2 ^ i) 0); [lia | reflexivity].
Qed.

Lemma sr_set_flag_testbit cpu i b j :
  0 <= i -> 0 <= j ->
  Z.testbit (sr (m68k_set_flag cpu (2 ^ i) b)) j =
  (j <? 16) && (if i =? j then b else Z.testbit (sr cpu) j).
Proof.
  intros Hi Hj. unfold m68k_set_flag.
  destruct b; simpl; rewrite u16_testbit; f_equal.
  - rewrite Z.lor_spec, Z.pow2_bits_eqb by lia.
    destruct (i =? j); [apply orb_true_r | apply orb_false_r].
  - rewrite Z.land_spec, Z.lnot_spec, Z.pow2_bits_eqb by lia.
    destruct (i =? j); [apply andb_false_r | apply andb_true_r].
Qed.

Lemma get_set_flag_eq cpu i b :
  0 <= i < 16 -> m68k_get_flag (m68k_set_flag cpu (2 ^ i) b) (2 ^ i) = b.
Proof.
  intros Hi. rewrite get_flag_testbit, sr_set_flag_testbit by lia.
  rewrite Z.eqb_refl. destruct (Z.ltb_spec i 16); [reflexivity | lia].
Qed.

Lemma get_set_flag_ne cpu i j b :
  0 <= i -> 0 <= j < 16 -> i <> j ->
  m68k_get_flag (m68k_set_flag cpu (2 ^ i) b) (2 ^ j) = m68k_get_flag cpu (2 ^ j).
Proof.
  intros Hi Hj Hne. rewrite !get_flag_testbit, sr_set_flag_testbit by lia.
  destruct (Z.eqb_spec i j); [lia |].
  destruct (Z.ltb_spec j 16); [reflexivity | lia].
Qed.

(** ** Sign of a truncated value *)

Lemma signed_neg_testbit (w x : Z) :
  0 < w ->
  ((if x mod 2 ^ w <? 2 ^ (w - 1) then x mod 2 ^ w else x mod 2 ^ w - 2 ^ w)
   <? 0) = Z.testbit x (w - 1).
Proof.
  intros Hw.
  rewrite <- (Z.mod_pow2_bits_low x w (w - 1)) by lia.
  assert (Hp : 0 < 2 ^ (w - 1)) by (apply Z.pow_pos_nonneg; lia).
  assert (H2 : 2 ^ w = 2 * 2 ^ (w - 1)).
  { replace w with (Z.succ (w - 1)) at 1 by lia. apply Z.pow_succ_r. lia. }
  pose proof (Z.mod_pos_bound x (2 ^ w) ltac:(lia)) as Hy.
  set (y := x mod 2 ^ w) in *. set (p := 2 ^ (w - 1)) in *.
  destruct (Z.ltb_spec y p) as [Hlt | Hge].
  - destruct (Z.ltb_spec y 0); [lia |]. symmetry.
    apply Z.testbit_false; [lia |]. fold p. now rewrite Z.div_small by lia.
  - destruct (Z.ltb_spec (y - 2 ^ w) 0); [| lia]. symmetry.
    apply Z.testbit_true; [lia |]. fold p.
    replace (y / p) with 1; [reflexivity |].
    apply (Z.div_unique y p 1 (y - p)); lia.
Qed.

Lemma s8_neg x : (s8 x <? 0) = Z.testbit x 7.
Proof. exact (signed_neg_testbit 8 x ltac:(lia)). Qed.

Lemma s16_neg x : (s16 x <? 0) = Z.testbit x 15.
Proof. exact (signed_neg_testbit 16 x ltac:(lia)). Qed.

Lemma s32_neg x : (s32 x <? 0) = Z.testbit x 31.
Proof. exact (signed_neg_testbit 32 x ltac:(lia)). Qed.

(** ** Size-aware flag update *)

(** The flag routines store to [sr] and to nothing else. *)
Lemma set_flag_only_sr cpu flag value :
  m68k_set_flag cpu flag value
  = set_sr (sr (m68k_set_flag cpu flag value)) cpu.
Proof. unfold m68k_set_flag. destruct value; reflexivity. Qed.

Lemma set_flags_only_sr cpu result size :
  m68k_set_flags cpu result size
  = set_sr (sr (m68k_set_flags cpu result size)) cpu.
Proof.
  unfold m68k_set_flags.
  destruct size; cbv beta iota zeta;
    rewrite set_flag_only_sr, (set_flag_only_sr cpu); reflexivity.
Qed.

Lemma clear_cv_only_sr cpu : clear_cv cpu = set_sr (sr (clear_cv cpu)) cpu.
Proof.
  unfold clear_cv. rewrite set_flag_only_sr, (set_flag_only_sr cpu).
  reflexivity.
Qed.

Lemma set_flag_d cpu flag value : d (m68k_set_flag cpu flag value) = d cpu.
Proof. now rewrite set_flag_only_sr. Qed.

Lemma set_flags_d cpu result size : d (m68k_set_flags cpu result size) = d cpu.
Proof. now rewrite set_flags_only_sr. Qed.

Lemma set_flags_halted cpu result size :
  halted (m68k_set_flags cpu result size) = halted cpu.
Proof. now rewrite set_flags_only_sr. Qed.

Lemma clear_cv_d cpu : d (clear_cv cpu) = d cpu.
Proof. now rewrite clear_cv_only_sr. Qed.

Lemma clear_cv_halted cpu : halted (clear_cv cpu) = halted cpu.
Proof. now rewrite clear_cv_only_sr. Qed.

Lemma set_flags_zero cpu result size :
  size = SIZE_BYTE \/ size = SIZE_WORD \/ size = SIZE_LONG ->
  m68k_get_flag (m68k_set_flags cpu result size) SR_ZERO
  = (truncate size result =? 0).
Proof.
  intros Hs. unfold m68k_set_flags.
  change SR_ZERO with (2 ^ 2). change SR_NEGATIVE with (2 ^ 3).
  destruct Hs as [-> | [-> | ->]]; cbv iota beta zeta;
    rewrite get_set_flag_ne, get_set_flag_eq by lia.
  - now rewrite u8_u32.
  - now rewrite u16_u32.
  - reflexivity.
Qed.

Lemma set_flags_negative cpu result size :
  size = SIZE_BYTE \/ size = SIZE_WORD \/ size = SIZE_LONG ->
  m68k_get_flag (m68k_set_flags cpu result size) SR_NEGATIVE
  = sign_bit size result.
Proof.
  intros Hs. unfold m68k_set_flags.
  change SR_ZERO with (2 ^ 2). change SR_NEGATIVE with (2 ^ 3).
  destruct Hs as [-> | [-> | ->]]; cbv iota beta zeta;
    rewrite get_set_flag_eq by lia.
  - rewrite s8_u32. apply s8_neg.
  - rewrite s16_u32. apply s16_neg.
  - rewrite s32_u32. apply s32_neg.
Qed.

Lemma get_size_cases opcode :
  get_size opcode = SIZE_BYTE \/ get_size opcode = SIZE_WORD
  \/ get_size opcode = SIZE_LONG.
Proof.
  unfold get_size.
  destruct (Z.land (Z.shiftr opcode 6) 3) as [| p | p]; auto.
  destruct p as [[p | p |] | [p | p |] |]; auto.
Qed.

(** ** Condition test *)

(** C6. For each of the 16 condition codes, [m68k_test_condition] returns
    the value the standard 68000 truth table prescribes from N, Z, V, C:
    for the flags of any processor state, and in particular for each of the
    16 combinations of N, Z, V, C stored in the status word (256 cases). *)
Theorem test_condition_truth_table :
  (forall (cpu : M68K_CPU) (cc : CondCode),
     m68k_test_condition cpu (CondCode_to_Z cc) =
     standard_condition cc
       (m68k_get_flag cpu SR_NEGATIVE) (m68k_get_flag cpu SR_ZERO)
       (m68k_get_flag cpu SR_OVERFLOW) (m68k_get_flag cpu SR_CARRY))
  /\ (forall (cpu : M68K_CPU) (cc : CondCode) (n z v c : bool),
        m68k_test_condition (set_sr (ccr_of_flags n z v c) cpu)
          (CondCode_to_Z cc) =
        standard_condition cc n z v c).
Proof.
  split.
  - intros cpu cc. unfold m68k_test_condition.
    destruct cc; cbn [CondCode_to_Z standard_condition];
      destruct (m68k_get_flag cpu SR_NEGATIVE),
               (m68k_get_flag cpu SR_ZERO),
               (m68k_get_flag cpu SR_OVERFLOW),
               (m68k_get_flag cpu SR_CARRY); reflexivity.
  - intros cpu cc n z v c.
    destruct cc, n, z, v, c; reflexivity.
Qed.

(** ** Reset *)

(** C9. [m68k_reset] keeps the cycle counter, the instruction counter, the
    [apollo_mode] flag and the breakpoint table (every entry with its
    address, enabled flag and hit count, and the table's size and
    capacity), and sets every other field to its fixed startup default. *)
Theorem reset_frame (cpu : M68K_CPU) :
  let r := m68k_reset cpu in
  (cycle_count r = cycle_count cpu
   /\ instruction_count r = instruction_count cpu
   /\ apollo_mode r = apollo_mode cpu
   /\ breakpoints r = breakpoints cpu
   /\ num_breakpoints r = num_breakpoints cpu
   /\ max_breakpoints r = max_breakpoints cpu)
  /\ (d r = repeat 0 8 /\ a r = repeat 0 8 /\ pc r = 0
      /\ sr r = SR_SUPERVISOR /\ usp r = 0 /\ ssp r = 0x10000
      /\ vbr r = 0 /\ apollo r = zero_apollo
      /\ halted r = false /\ trace_mode r = false)
  /\ (bus_data r = repeat 0 128 /\ bus_address r = 0
      /\ bus_active r = false /\ bus_transfers r = 0)
  /\ (icache r = repeat 0 (Z.to_nat 32768)
      /\ dcache r = repeat 0 (Z.to_nat 32768)
      /\ icache_valid r = repeat false 256
      /\ dcache_valid r = repeat false 256
      /\ cache_hits r = 0 /\ cache_misses r = 0)
  /\ (breakpoint_hit r = false /\ breakpoint_addr r = 0
      /\ branch_count r = 0 /\ branch_taken r = 0
      /\ load_count r = 0 /\ store_count r = 0).
Proof.
  cbv zeta. unfold m68k_reset, m68k_init. cbn -[repeat Z.to_nat].
  repeat split.
Qed.

(** The reset state does not depend on anything else of the old state. *)
Lemma reset_determined (cpu cpu' : M68K_CPU) :
  cycle_count cpu = cycle_count cpu' ->
  instruction_count cpu = instruction_count cpu' ->
  apollo_mode cpu = apollo_mode cpu' ->
  breakpoints cpu = breakpoints cpu' ->
  num_breakpoints cpu = num_breakpoints cpu' ->
  max_breakpoints cpu = max_breakpoints cpu' ->
  m68k_reset cpu = m68k_reset cpu'.
Proof.
  intros H1 H2 H3 H4 H5 H6. unfold m68k_reset.
  rewrite H1, H2, H3, H4, H5, H6. reflexivity.
Qed.

(** ** Out-of-bounds accesses *)

Lemma read_out_of_bounds cpu memory mem_size addr size :
  mem_size <= addr ->
  m68k_read_memory cpu memory mem_size addr size = (0, cpu).
Proof.
  intros H. unfold m68k_read_memory.
  destruct (Z.geb_spec addr mem_size); [reflexivity | lia].
Qed.

Lemma write_out_of_bounds cpu memory mem_size addr value size :
  mem_size <= addr ->
  m68k_write_memory cpu memory mem_size addr value size = (cpu, memory).
Proof.
  intros H. unfold m68k_write_memory.
  destruct (Z.geb_spec addr mem_size); [reflexivity | lia].
Qed.

Lemma fetch_out_of_bounds cpu memory mem_size :
  0 < mem_size < 2 ^ 64 -> mem_size <= pc cpu ->
  m68k_fetch_word cpu memory mem_size = (0, set_halted true cpu).
Proof.
  intros Hm H. unfold m68k_fetch_word, size_t, u64.
  change 0x10000000000000000 with (2 ^ 64).
  rewrite Z.mod_small by lia.
  destruct (Z.geb_spec (pc cpu) (mem_size - 1)); [reflexivity | lia].
Qed.

(** For a memory of at least one byte the three outcomes are as the
    specification describes them: an out-of-bounds read yields 0, an
    out-of-bounds write stores nothing, neither touches the processor
    (so neither halts it), and an out-of-bounds fetch halts, yields 0 and
    leaves the PC where it was. *)
Lemma out_of_bounds_outcomes cpu memory mem_size addr value size :
  0 < mem_size < 2 ^ 64 -> mem_size <= addr ->
  m68k_read_memory cpu memory mem_size addr size = (0, cpu)
  /\ m68k_write_memory cpu memory mem_size addr value size = (cpu, memory)
  /\ (mem_size <= pc cpu ->
      let '(word, cpu') := m68k_fetch_word cpu memory mem_size in
      word = 0 /\ halted cpu' = true /\ pc cpu' = pc cpu).
Proof.
  intros Hm H. split; [| split].
  - now apply read_out_of_bounds.
  - now apply write_out_of_bounds.
  - intros Hpc. rewrite fetch_out_of_bounds by assumption. now cbn.
Qed.

(** C3. With an empty buffer ([mem_size = 0]) every PC is out of bounds,
    yet the fetch does not halt: the guard [pc >= mem_size - 1] is
    evaluated in [size_t], where [0 - 1] wraps to the largest value.  The
    fetch goes on to read the buffer and advances the PC. *)
Theorem fetch_empty_memory_not_halted (cpu : M68K_CPU) :
  let cpu0 := m68k_init cpu in
  let '(word, cpu') := m68k_fetch_word cpu0 [] 0 in
  pc cpu0 = 0 /\ halted cpu0 = false
  /\ halted cpu' = false /\ pc cpu' = 2.
Proof. cbv zeta. vm_compute. repeat split. Qed.

(** The sized accessors do not touch the address registers, and what they
    read or store does not depend on the processor state. *)
Lemma read_memory_a cpu memory mem_size addr size :
  a (snd (m68k_read_memory cpu memory mem_size addr size)) = a cpu.
Proof.
  unfold m68k_read_memory. destruct (addr >=? mem_size); reflexivity.
Qed.

Lemma read_memory_value cpu1 cpu2 memory mem_size addr size :
  fst (m68k_read_memory cpu1 memory mem_size addr size)
  = fst (m68k_read_memory cpu2 memory mem_size addr size).
Proof.
  unfold m68k_read_memory. destruct (addr >=? mem_size); reflexivity.
Qed.

Lemma write_memory_a cpu memory mem_size addr value size :
  a (fst (m68k_write_memory cpu memory mem_size addr value size)) = a cpu.
Proof.
  unfold m68k_write_memory. destruct (addr >=? mem_size); reflexivity.
Qed.

Lemma write_memory_result cpu1 cpu2 memory mem_size addr value size :
  snd (m68k_write_memory cpu1 memory mem_size addr value size)
  = snd (m68k_write_memory cpu2 memory mem_size addr value size).
Proof.
  unfold m68k_write_memory. destruct (addr >=? mem_size); reflexivity.
Qed.

(** ** Post-increment and pre-decrement *)

(** C5 (as the code has it). Post-increment, on a read or a write, accesses
    memory at the old value of the address register and leaves the
    register increased by the operand size; pre-decrement decreases the
    register by the operand size and accesses memory at the new value.
    This holds alike for every address register: on A7 a byte-sized
    operand moves the register by 1. *)
Theorem auto_increment_decrement_by_size
    (cpu : M68K_CPU) (memory : list Z) (mem_size reg value : Z)
    (size : OperandSize) :
  length (a cpu) = 8%nat -> 0 <= reg < 8 ->
  let step := OperandSize_to_Z size in
  let a0 := idx (a cpu) reg in
  (let r := m68k_get_ea_value cpu memory mem_size 3 reg size in
   fst r = fst (m68k_read_memory cpu memory mem_size a0 size)
   /\ idx (a (snd r)) reg = u32 (a0 + step))
  /\ (let r := m68k_get_ea_value cpu memory mem_size 4 reg size in
      fst r = fst (m68k_read_memory cpu memory mem_size (u32 (a0 - step)) size)
      /\ idx (a (snd r)) reg = u32 (a0 - step))
  /\ (let r := m68k_set_ea_value cpu memory mem_size 3 reg value size in
      snd r = snd (m68k_write_memory cpu memory mem_size a0 value size)
      /\ idx (a (fst r)) reg = u32 (a0 + step))
  /\ (let r := m68k_set_ea_value cpu memory mem_size 4 reg value size in
      snd r
      = snd (m68k_write_memory cpu memory mem_size (u32 (a0 - step)) value size)
      /\ idx (a (fst r)) reg = u32 (a0 - step)).
Proof.
  intros Hlen Hreg step a0.
  assert (Hi : (Z.to_nat reg < length (a cpu))%nat) by (rewrite Hlen; lia).
  unfold m68k_get_ea_value, m68k_set_ea_value. cbv beta iota zeta.
  fold step a0. repeat split.
  - apply read_memory_value.
  - rewrite read_memory_a. cbn [a set_a]. apply idx_upd_eq; lia.
  - cbn [a set_a]. rewrite idx_upd_eq by lia. apply read_memory_value.
  - rewrite read_memory_a. cbn [a set_a]. apply idx_upd_eq; lia.
  - destruct (m68k_write_memory cpu memory mem_size a0 value size).
    reflexivity.
  - pose proof (write_memory_a cpu memory mem_size a0 value size) as Ha.
    destruct (m68k_write_memory cpu memory mem_size a0 value size) as [c m].
    cbn [fst snd a set_a] in *. rewrite Ha. apply idx_upd_eq; lia.
  - cbn [a set_a]. rewrite idx_upd_eq by lia. apply write_memory_result.
  - rewrite write_memory_a. cbn [a set_a]. apply idx_upd_eq; lia.
Qed.

(** The word-sized step the specification asks for on A7 is not there: a
    byte-sized post-increment or pre-decrement moves the stack pointer by 1,
    not 2. *)
Lemma byte_step_on_a7_is_one :
  let cpu := set_a [0; 0; 0; 0; 0; 0; 0; 0x100] power_on in
  let memory := repeat 0 0x200 in
  idx (a cpu) 7 = 0x100
  /\ idx (a (snd (m68k_get_ea_value cpu memory 0x200 3 7 SIZE_BYTE))) 7 = 0x101
  /\ idx (a (snd (m68k_get_ea_value cpu memory 0x200 4 7 SIZE_BYTE))) 7 = 0xFF
  /\ idx (a (fst (m68k_set_ea_value cpu memory 0x200 3 7 0x55 SIZE_BYTE))) 7
     = 0x101
  /\ idx (a (fst (m68k_set_ea_value cpu memory 0x200 4 7 0x55 SIZE_BYTE))) 7
     = 0xFF.
Proof. vm_compute. repeat split. Qed.

Lemma auto_increment_decrement_by_size_witness :
  let cpu := set_a [0; 0; 0; 0; 0; 0; 0; 0x100] power_on in
  let memory := repeat 0 0x200 in
  length (a cpu) = 8%nat
  /\ idx (a (snd (m68k_get_ea_value cpu memory 0x200 3 7 SIZE_WORD))) 7
     = 0x102
  /\ idx (a (snd (m68k_get_ea_value cpu memory 0x200 4 7 SIZE_WORD))) 7
     = 0xFE
  /\ idx (a (fst (m68k_set_ea_value cpu memory 0x200 3 7 0x55 SIZE_WORD))) 7
     = 0x102
  /\ idx (a (fst (m68k_set_ea_value cpu memory 0x200 4 7 0x55 SIZE_WORD))) 7
     = 0xFE.
Proof.
  cbv zeta. split; [reflexivity |].
  destruct (auto_increment_decrement_by_size
              (set_a [0; 0; 0; 0; 0; 0; 0; 0x100] power_on)
              (repeat 0 0x200) 0x200 7 0x55 SIZE_WORD eq_refl
              ltac:(lia))
    as ((_ & H1) & (_ & H2) & (_ & H3) & (_ & H4)).
  split; [exact H1 |]. split; [exact H2 |]. split; [exact H3 | exact H4].
Defined.

(** ** Register-to-register MOVE *)

(** The MOVE case for every opcode word: the result is defined, the
    destination register receives the whole source value, and Z and N are
    those of the value truncated to the size [get_size] reads from bits 6-7
    of the word. *)
Lemma move_handler_value_and_flags
    (E : Externals) (cpu : M68K_CPU) (memory : list Z) (mem_size opcode : Z) :
  length (d cpu) = 8%nat ->
  let reg_dst := Z.land (Z.shiftr opcode 9) 0x7 in
  let reg_src := Z.land opcode 0x7 in
  let value := idx (d cpu) reg_src in
  exists cpu',
    m68k_execute_instruction E cpu memory mem_size OP_MOVE opcode
    = Some (cpu', memory)
    /\ idx (d cpu') reg_dst = value
    /\ m68k_get_flag cpu' SR_ZERO = (truncate (get_size opcode) value =? 0)
    /\ m68k_get_flag cpu' SR_NEGATIVE = sign_bit (get_size opcode) value.
Proof.
  intros Hlen reg_dst reg_src value.
  pose proof (land7_range (Z.shiftr opcode 9)) as Hd. fold reg_dst in Hd.
  eexists. split; [reflexivity |].
  fold reg_dst. fold reg_src. fold value.
  split; [| split].
  - change (d (set_instruction_count ?x ?c)) with (d c).
    rewrite set_flags_d. cbn [d set_d].
    apply idx_upd_eq; [lia |]. rewrite Hlen. lia.
  - rewrite <- (set_flags_zero (set_d (upd (d cpu) reg_dst value) cpu))
      by apply get_size_cases.
    reflexivity.
  - rewrite <- (set_flags_negative (set_d (upd (d cpu) reg_dst value) cpu))
      by apply get_size_cases.
    reflexivity.
Qed.

(** In a MOVE word bits 6-8 are the destination mode and bits 12-13 the
    size.  A data-register destination is mode 0, so for every
    register-to-register MOVE [get_size] answers byte, whatever the size
    field says. *)
Lemma get_size_of_register_destination (opcode : Z) :
  Z.land opcode 0x01C0 = 0 -> get_size opcode = SIZE_BYTE.
Proof.
  intros Hmode. unfold get_size.
  replace (Z.land (Z.shiftr opcode 6) 3) with 0; [reflexivity |].
  change 3 with (Z.shiftr (Z.land 0x01C0 0x00C0) 6).
  rewrite <- Z.shiftr_land, Z.land_assoc, Hmode. reflexivity.
Qed.

(** Hence every register-to-register MOVE, of any size field, leaves the
    byte flags of the value. *)
Lemma move_to_data_register_takes_byte_flags
    (E : Externals) (cpu : M68K_CPU) (memory : list Z) (mem_size opcode : Z) :
  length (d cpu) = 8%nat ->
  Z.land opcode 0x01C0 = 0 ->
  let value := idx (d cpu) (Z.land opcode 0x7) in
  exists cpu',
    m68k_execute_instruction E cpu memory mem_size OP_MOVE opcode
    = Some (cpu', memory)
    /\ idx (d cpu') (Z.land (Z.shiftr opcode 9) 0x7) = value
    /\ m68k_get_flag cpu' SR_ZERO = (value mod 2 ^ 8 =? 0)
    /\ m68k_get_flag cpu' SR_NEGATIVE = Z.testbit value 7.
Proof.
  intros Hlen Hmode value.
  destruct (move_handler_value_and_flags E cpu memory mem_size opcode Hlen)
    as (cpu' & Hres & Hv & Hz & Hn).
  rewrite (get_size_of_register_destination opcode Hmode) in Hz, Hn.
  exists cpu'. split; [exact Hres |]. split; [exact Hv |].
  split; [exact Hz | exact Hn].
Qed.

(** C10. The handler writes the whole source register for each size, but
    it does not compute Z and N from the size-truncated value.  With
    D0 = 0x00008100 the words MOVE.B D0,D1 (0x1200), MOVE.W D0,D1 (0x3200)
    and MOVE.L D0,D1 (0x2200) are decoded as MOVE with sizes 1 (byte),
    3 (word) and 2 (long) in the first parameter; one step on each leaves
    D1 = 0x00008100 with Z set and N clear, the flags of the low byte 0x00,
    where the word 0x8100 is non-zero and negative and the long is non-zero
    and positive.  The handler takes the size from bits 6-7 of the word,
    which in a MOVE belong to the destination mode: the MOVE.W words
    0x3280, 0x3340 and 0x33C0 (memory destinations, which the handler also
    runs as a register move) get long, word and word flags. *)
Theorem move_word_and_long_take_byte_flags (E : Externals) :
  let value := 0x00008100 in
  let cpu := set_d [value; 0xFFFFFFFF; 0; 0; 0; 0; 0; 0] power_on in
  let decoded w :=
    let '(op, params) := m68k_decode_instruction cpu w in
    (op, idx params 0) in
  let seen w :=
    (fun r : M68K_CPU * list Z =>
       (idx (d (fst r)) 1, m68k_get_flag (fst r) SR_ZERO,
        m68k_get_flag (fst r) SR_NEGATIVE))
    <$> m68k_execute_cycle E cpu (load_words [w] 16) 16 in
  let flags_of size := (truncate size value =? 0, sign_bit size value) in
  (decoded 0x1200 = (OP_MOVE, 1) /\ decoded 0x3200 = (OP_MOVE, 3)
   /\ decoded 0x2200 = (OP_MOVE, 2) /\ decoded 0x3280 = (OP_MOVE, 3)
   /\ decoded 0x3340 = (OP_MOVE, 3) /\ decoded 0x33C0 = (OP_MOVE, 3))
  /\ (get_size 0x1200 = SIZE_BYTE /\ get_size 0x3200 = SIZE_BYTE
      /\ get_size 0x2200 = SIZE_BYTE /\ get_size 0x3280 = SIZE_LONG
      /\ get_size 0x3340 = SIZE_WORD /\ get_size 0x33C0 = SIZE_WORD)
  /\ (flags_of SIZE_BYTE = (true, false)
      /\ flags_of SIZE_WORD = (false, true)
      /\ flags_of SIZE_LONG = (false, false))
  /\ seen 0x1200 = Some (value, true, false)
  /\ seen 0x3200 = Some (value, true, false)
  /\ seen 0x2200 = Some (value, true, false)
  /\ seen 0x3280 = Some (value, false, false)
  /\ seen 0x3340 = Some (value, false, true)
  /\ seen 0x33C0 = Some (value, false, true).
Proof. cbv zeta. vm_compute. repeat split. Qed.


(** ** Division *)

Lemma pack_high (r q : Z) :
  Z.shiftr (u32 (Z.lor (Z.shiftl (u16 r) 16) (u16 q))) 16 = u16 r.
Proof.
  apply Z.bits_inj'. intros n Hn.
  rewrite Z.shiftr_spec, u32_testbit, Z.lor_spec, Z.shiftl_spec by lia.
  rewrite !u16_testbit. replace (n + 16 - 16) with n by lia.
  destruct (Z.ltb_spec (n + 16) 16); [lia |].
  destruct (Z.ltb_spec (n + 16) 32), (Z.ltb_spec n 16); cbn; try lia;
    now rewrite ?orb_false_r.
Qed.

Lemma pack_low (r q : Z) :
  Z.land (u32 (Z.lor (Z.shiftl (u16 r) 16) (u16 q))) 0xFFFF = u16 q.
Proof.
  change 0xFFFF with (Z.ones 16). rewrite Z.land_ones by lia.
  change (u16 (u32 (Z.lor (Z.shiftl (u16 r) 16) (u16 q))) = u16 q).
  rewrite u16_u32.
  apply Z.bits_inj'. intros n Hn.
  rewrite u16_testbit, Z.lor_spec, !u16_testbit.
  destruct (Z.ltb_spec n 16); [| reflexivity].
  rewrite Z.shiftl_spec_low by lia. reflexivity.
Qed.

Lemma u16_s16 x : u16 (s16 x) = u16 x.
Proof.
  unfold s16. pose proof (u16_range x).
  destruct (Z.ltb_spec (u16 x) 0x8000).
  - unfold u16 at 1. apply Z.mod_small. lia.
  - unfold u16 at 1. unfold u16 in *.
    rewrite <- (Z.mod_add _ 1) by lia.
    replace (x mod 0x10000 - 0x10000 + 1 * 0x10000) with (x mod 0x10000)
      by lia.
    apply Z.mod_mod. lia.
Qed.

(** Division as C computes it on these operands. *)
Lemma divu_fields_exact (dst src : Z) :
  0 <= dst -> 0 < src < 0x10000 -> dst / src < 0x10000 ->
  u16 (Z.rem dst src) = dst mod src /\ u16 (Z.quot dst src) = dst / src.
Proof.
  intros Hd Hs Hq.
  rewrite Z.rem_mod_nonneg, Z.quot_div_nonneg by lia.
  pose proof (Z.mod_pos_bound dst src ltac:(lia)).
  pose proof (Z.div_pos dst src ltac:(lia) ltac:(lia)).
  unfold u16. split; apply Z.mod_small; lia.
Qed.

Lemma s16_small x : - 0x8000 <= x < 0x8000 -> s16 x = x.
Proof.
  intros Hx. unfold s16, u16.
  destruct (Z_lt_le_dec x 0).
  - replace (x mod 0x10000) with (x + 0x10000).
    + destruct (Z.ltb_spec (x + 0x10000) 0x8000); lia.
    + apply (Z.mod_unique_pos _ _ (-1)); lia.
  - rewrite Z.mod_small by lia.
    destruct (Z.ltb_spec x 0x8000); lia.
Qed.

Lemma s16_u16 x : s16 (u16 x) = s16 x.
Proof. unfold s16, u16. now rewrite Z.mod_mod by lia. Qed.

Lemma s16_range_src x : - 0x8000 <= s16 x < 0x8000.
Proof.
  unfold s16. pose proof (u16_range x).
  destruct (Z.ltb_spec (u16 x) 0x8000); lia.
Qed.

(** The signed remainder of a division by a 16-bit divisor is a 16-bit
    value. *)
Lemma rem_fits_s16 (dst src : Z) :
  - 0x8000 <= src < 0x8000 -> src <> 0 ->
  - 0x8000 <= Z.rem dst src < 0x8000.
Proof.
  intros Hs Hne.
  pose proof (Z.rem_bound_abs dst src Hne) as Hb. lia.
Qed.

(** C4 (as the code has it). In the DIVU and DIVS handlers a zero divisor
    (the low word of the source register) sets the halted flag and leaves
    every data register, the destination included, as it was.  A non-zero
    divisor whose quotient fits in 16 bits (unsigned for DIVU, signed for
    DIVS) leaves in the destination register the remainder in the high 16
    bits and the quotient in the low 16 bits: for DIVU the two halves are
    [dst mod src] and [dst / src], for DIVS they are the 16-bit two's
    complement of the remainder and the quotient of the division that
    truncates towards zero. *)
Theorem div_zero_halts_else_packs_fitting_quotient
    (E : Externals) (cpu : M68K_CPU) (memory : list Z) (mem_size opcode : Z) :
  length (d cpu) = 8%nat ->
  let reg_dst := Z.land (Z.shiftr opcode 9) 0x7 in
  let reg_src := Z.land opcode 0x7 in
  (let src := Z.land (idx (d cpu) reg_src) 0xFFFF in
   let dst := idx (d cpu) reg_dst in
   exists cpu',
     m68k_execute_instruction E cpu memory mem_size OP_DIVU opcode
     = Some (cpu', memory)
     /\ (src = 0 -> halted cpu' = true /\ d cpu' = d cpu)
     /\ (src <> 0 -> 0 <= dst / src < 2 ^ 16 ->
         halted cpu' = halted cpu
         /\ Z.shiftr (idx (d cpu') reg_dst) 16 = dst mod src
         /\ Z.land (idx (d cpu') reg_dst) 0xFFFF = dst / src))
  /\
  (let src := s16 (Z.land (idx (d cpu) reg_src) 0xFFFF) in
   let dst := s32 (idx (d cpu) reg_dst) in
   (src = 0 ->
    exists cpu',
      m68k_execute_instruction E cpu memory mem_size OP_DIVS opcode
      = Some (cpu', memory)
      /\ halted cpu' = true /\ d cpu' = d cpu)
   /\ (src <> 0 -> - 2 ^ 15 <= Z.quot dst src < 2 ^ 15 ->
       exists cpu',
         m68k_execute_instruction E cpu memory mem_size OP_DIVS opcode
         = Some (cpu', memory)
         /\ halted cpu' = halted cpu
         /\ s16 (Z.shiftr (idx (d cpu') reg_dst) 16) = Z.rem dst src
         /\ s16 (Z.land (idx (d cpu') reg_dst) 0xFFFF) = Z.quot dst src)).
Proof.
  intros Hlen reg_dst reg_src.
  pose proof (land7_range (Z.shiftr opcode 9)) as Hd. fold reg_dst in Hd.
  assert (Hi : (Z.to_nat reg_dst < length (d cpu))%nat) by (rewrite Hlen; lia).
  split.
  - intros src dst.
    eexists. split; [reflexivity |].
    fold reg_dst. fold reg_src. fold src. fold dst.
    split.
    + intros Hs. rewrite Hs. cbn [Z.eqb d halted set_instruction_count
                                    set_cycle_count set_halted]. auto.
    + intros Hs Hq.
      destruct (Z.eqb_spec src 0) as [| _]; [contradiction |].
      cbn [d halted set_instruction_count set_cycle_count].
      rewrite clear_cv_d, clear_cv_halted, set_flags_d, set_flags_halted.
      cbn [d halted set_d].
      rewrite idx_upd_eq by lia.
      assert (Hsrc : 0 < src < 0x10000).
      { assert (Hsrc' : src = u16 (idx (d cpu) reg_src)).
        { unfold src, u16. change 0xFFFF with (Z.ones 16).
          now rewrite Z.land_ones by lia. }
        pose proof (u16_range (idx (d cpu) reg_src)). lia. }
      assert (Hdst : 0 <= dst).
      { destruct (Z_lt_le_dec dst 0) as [Hneg |]; [| assumption].
        pose proof (Z.div_lt_upper_bound dst src 0 ltac:(lia) ltac:(lia)).
        lia. }
      destruct (divu_fields_exact dst src) as [Hr Hqq]; [lia | lia | lia |].
      split; [reflexivity |]. split.
      * rewrite pack_high. exact Hr.
      * rewrite pack_low. exact Hqq.
  - intros src dst. split.
    + intros Hs. unfold m68k_execute_instruction. cbv beta iota zeta.
      fold reg_dst. fold reg_src. fold src. fold dst. rewrite Hs.
      eexists. split; [reflexivity |].
      cbn [d halted set_instruction_count set_cycle_count set_halted]. auto.
    + intros Hs Hq. unfold m68k_execute_instruction. cbv beta iota zeta.
      fold reg_dst. fold reg_src. fold src. fold dst.
      destruct (Z.eqb_spec src 0) as [| _]; [contradiction |].
      assert (Hover : (dst =? -0x80000000) && (src =? -1) = false).
      { apply andb_false_iff.
        destruct (Z.eqb_spec dst (-0x80000000)) as [Hd0 |]; [| now left].
        destruct (Z.eqb_spec src (-1)) as [Hs1 |]; [| now right].
        exfalso. rewrite Hd0, Hs1 in Hq.
        change (Z.quot (-0x80000000) (-1)) with 0x80000000 in Hq. lia. }
      rewrite Hover.
      eexists. split; [reflexivity |].
      cbn [d halted set_instruction_count set_cycle_count].
      rewrite clear_cv_d, clear_cv_halted, set_flags_d, set_flags_halted.
      cbn [d halted set_d].
      rewrite idx_upd_eq by lia.
      assert (Hrem : - 0x8000 <= Z.rem dst src < 0x8000)
        by (apply rem_fits_s16; [apply s16_range_src | assumption]).
      change (2 ^ 15) with 0x8000 in Hq.
      split; [reflexivity |]. split.
      * rewrite pack_high, s16_u16.
        now rewrite !(s16_small (Z.rem dst src)) by assumption.
      * rewrite pack_low, s16_u16.
        now rewrite !(s16_small (Z.quot dst src)) by assumption.
Qed.

(** DIVU D1,D0 and DIVS D1,D0 (opcode 0x80C1 for both handlers): with
    D0 = 100, D1 = 0 halts and leaves the registers and D1 = 7 leaves
    remainder 2 and quotient 14 in D0; with D0 = -100 and D1 = 7, DIVS
    leaves remainder -2 and quotient -14. *)
Lemma div_zero_halts_else_packs_fitting_quotient_witness :
  let zero := set_d [100; 0; 0; 0; 0; 0; 0; 0] power_on in
  let seven := set_d [100; 7; 0; 0; 0; 0; 0; 0] power_on in
  let minus := set_d [0xFFFFFF9C; 7; 0; 0; 0; 0; 0; 0] power_on in
  let exec c op := m68k_execute_instruction idle_externals c [] 0 op 0x80C1 in
  (exists c', exec zero OP_DIVU = Some (c', [])
     /\ halted c' = true /\ d c' = d zero)
  /\ (exists c', exec seven OP_DIVU = Some (c', [])
        /\ halted c' = false
        /\ Z.shiftr (idx (d c') 0) 16 = 2
        /\ Z.land (idx (d c') 0) 0xFFFF = 14)
  /\ (exists c', exec zero OP_DIVS = Some (c', [])
        /\ halted c' = true /\ d c' = d zero)
  /\ (exists c', exec seven OP_DIVS = Some (c', [])
        /\ halted c' = false
        /\ s16 (Z.shiftr (idx (d c') 0) 16) = 2
        /\ s16 (Z.land (idx (d c') 0) 0xFFFF) = 14)
  /\ (exists c', exec minus OP_DIVS = Some (c', [])
        /\ halted c' = false
        /\ s16 (Z.shiftr (idx (d c') 0) 16) = -2
        /\ s16 (Z.land (idx (d c') 0) 0xFFFF) = -14).
Proof.
  cbv zeta.
  destruct (div_zero_halts_else_packs_fitting_quotient idle_externals
              (set_d [100; 0; 0; 0; 0; 0; 0; 0] power_on) [] 0 0x80C1 eq_refl)
    as [Hu0 [Hs0 _]].
  destruct (div_zero_halts_else_packs_fitting_quotient idle_externals
              (set_d [100; 7; 0; 0; 0; 0; 0; 0] power_on) [] 0 0x80C1 eq_refl)
    as [Hu [_ Hs]].
  destruct (div_zero_halts_else_packs_fitting_quotient idle_externals
              (set_d [0xFFFFFF9C; 7; 0; 0; 0; 0; 0; 0] power_on) [] 0 0x80C1
              eq_refl)
    as [_ [_ Hm]].
  destruct Hu0 as (c0 & E0 & Hz0 & _).
  destruct Hu as (c1 & E1 & _ & Hn1).
  split; [exists c0; split; [exact E0 | exact (Hz0 eq_refl)] |].
  split.
  { exists c1. split; [exact E1 |].
    apply Hn1; [discriminate | vm_compute; split; congruence]. }
  split; [exact (Hs0 eq_refl) |].
  split.
  { apply Hs; [discriminate | vm_compute; split; congruence]. }
  apply Hm; [discriminate | vm_compute; split; congruence].
Defined.

(** DIVU D1,D0 with D0 = 0x12345 and D1 = 1: the divisor is not zero and
    the quotient is 0x12345, but the destination receives 0x2345, whose low
    16 bits are not the quotient. *)
Lemma divu_wide_quotient_is_cut :
  let cpu := set_d [0x12345; 1; 0; 0; 0; 0; 0; 0] power_on in
  let src := Z.land (idx (d cpu) 1) 0xFFFF in
  let dst := idx (d cpu) 0 in
  let dest :=
    (fun r : M68K_CPU * list Z => idx (d (fst r)) 0)
    <$> m68k_execute_instruction idle_externals cpu [] 0 OP_DIVU 0x80C1 in
  src = 1 /\ dst / src = 0x12345 /\ dst mod src = 0
  /\ dest = Some 0x2345
  /\ (fun x => Z.land x 0xFFFF =? dst / src) <$> dest = Some false.
Proof. vm_compute. repeat split. Qed.

(** DIVS of [INT_MIN] by [-1]: the quotient 2^31 is not an [int], and the
    handler has no result. *)
Lemma divs_int_min_by_minus_one_undefined (E : Externals) :
  let cpu := set_d [0x80000000; 0xFFFF; 0; 0; 0; 0; 0; 0] power_on in
  m68k_execute_instruction E cpu [] 0 OP_DIVS 0x80C1 = None.
Proof. reflexivity. Qed.


(** ** ABCD *)

Lemma low_byte_replaced (x r : Z) :
  Z.land (Z.lor (Z.land x 0xFFFFFF00) (u8 r)) 0xFF = u8 r.
Proof.
  apply Z.bits_inj'. intros n Hn.
  rewrite Z.land_spec, Z.lor_spec, Z.land_spec.
  unfold u8. change 0x100 with (2 ^ 8). rewrite Z.testbit_mod_pow2 by lia.
  change 0xFF with (Z.ones 8). rewrite Z.testbit_ones_nonneg by lia.
  destruct (Z.ltb_spec n 8).
  - change 0xFFFFFF00 with (Z.shiftl (Z.ones 24) 8).
    rewrite Z.shiftl_spec_low by lia.
    now rewrite andb_false_r, andb_true_r.
  - now rewrite !andb_false_r.
Qed.

(** C7 (as the code has it). With source low byte 0x09 and destination low
    byte 0x01 (or the other way round) and the extend flag clear, the ABCD
    handler stores 0x10 in the destination's low byte, clears carry and
    extend, and clears the zero flag, the result being non-zero. *)
Theorem abcd_nine_plus_one (cpu : M68K_CPU) (opcode : Z) :
  length (d cpu) = 8%nat ->
  let reg_src := Z.land opcode 0x7 in
  let reg_dst := Z.land (Z.shiftr opcode 9) 0x7 in
  m68k_get_flag cpu SR_EXTEND = false ->
  (Z.land (idx (d cpu) reg_src) 0xFF = 0x09
   /\ Z.land (idx (d cpu) reg_dst) 0xFF = 0x01)
  \/ (Z.land (idx (d cpu) reg_src) 0xFF = 0x01
      /\ Z.land (idx (d cpu) reg_dst) 0xFF = 0x09) ->
  let cpu' := m68k_execute_bcd cpu OP_ABCD opcode in
  Z.land (idx (d cpu') reg_dst) 0xFF = 0x10
  /\ m68k_get_flag cpu' SR_CARRY = false
  /\ m68k_get_flag cpu' SR_EXTEND = false
  /\ m68k_get_flag cpu' SR_ZERO = false.
Proof.
  intros Hlen reg_src reg_dst Hx Hbytes cpu'.
  pose proof (land7_range (Z.shiftr opcode 9)) as Hd. fold reg_dst in Hd.
  assert (Hc : cpu' =
    m68k_set_flag
      (m68k_set_flag
         (m68k_set_flag
            (set_d (upd (d cpu) reg_dst
                      (Z.lor (Z.land (idx (d cpu) reg_dst) 0xFFFFFF00)
                             (u8 0x10))) cpu)
            SR_CARRY false)
         SR_EXTEND false)
      SR_ZERO false).
  { subst cpu'. unfold m68k_execute_bcd. fold reg_src reg_dst. rewrite Hx.
    destruct Hbytes as [[-> ->] | [-> ->]]; reflexivity. }
  rewrite Hc. clear Hc cpu'.
  change SR_CARRY with (2 ^ 0). change SR_EXTEND with (2 ^ 4).
  change SR_ZERO with (2 ^ 2).
  split; [| split; [| split]].
  - rewrite !set_flag_d. cbn [d set_d].
    rewrite idx_upd_eq by (rewrite ?Hlen; lia).
    apply low_byte_replaced.
  - rewrite 2 get_set_flag_ne by lia. apply get_set_flag_eq. lia.
  - rewrite get_set_flag_ne by lia. apply get_set_flag_eq. lia.
  - apply get_set_flag_eq. lia.
Qed.

(** A zero flag that was set does not survive: ABCD D0,D1 (opcode 0xC300)
    with D0 = 9, D1 = 1 and only the zero flag set leaves it clear. *)
Lemma abcd_clears_zero_flag :
  let cpu := set_sr SR_ZERO (set_d [9; 1; 0; 0; 0; 0; 0; 0] power_on) in
  let cpu' := m68k_execute_bcd cpu OP_ABCD 0xC300 in
  m68k_get_flag cpu SR_EXTEND = false
  /\ m68k_get_flag cpu SR_ZERO = true
  /\ idx (d cpu') 1 = 0x10
  /\ m68k_get_flag cpu' SR_ZERO = false.
Proof. vm_compute. repeat split. Qed.

Lemma abcd_nine_plus_one_witness :
  let cpu := set_d [1; 9; 0; 0; 0; 0; 0; 0] power_on in
  let cpu' := m68k_execute_bcd cpu OP_ABCD 0xC300 in
  length (d cpu) = 8%nat
  /\ m68k_get_flag cpu SR_EXTEND = false
  /\ Z.land (idx (d cpu') 1) 0xFF = 0x10
  /\ m68k_get_flag cpu' SR_CARRY = false
  /\ m68k_get_flag cpu' SR_EXTEND = false
  /\ m68k_get_flag cpu' SR_ZERO = false.
Proof.
  cbv zeta. split; [reflexivity |]. split; [reflexivity |].
  exact (abcd_nine_plus_one (set_d [1; 9; 0; 0; 0; 0; 0; 0] power_on) 0xC300
           eq_refl eq_refl (or_intror (conj eq_refl eq_refl))).
Defined.

(** ** Breakpoints *)

Lemma find_breakpoint_first (bps : list M68K_Breakpoint) addr k bp :
  forall n i,
  (i <= k < i + n)%nat ->
  bps !! k = Some bp -> enabled bp = true -> address bp = addr ->
  (forall j bp', (i <= j < k)%nat -> bps !! j = Some bp' ->
     enabled bp' && (address bp' =? addr) = false) ->
  find_breakpoint bps addr i n = Some k.
Proof.
  induction n as [| n IH]; intros i Hk Hbp Hen Hadr Hfirst; [lia |].
  cbn [find_breakpoint].
  destruct (decide (i = k)) as [-> | Hne].
  - rewrite Hbp, Hen, Hadr, Z.eqb_refl. reflexivity.
  - assert (Hstep : find_breakpoint bps addr (S i) n = Some k).
    { apply IH; try assumption; [lia |].
      intros j bp' Hj. apply Hfirst. lia. }
    destruct (bps !! i) as [bp' |] eqn:Hi; [| exact Hstep].
    rewrite (Hfirst i bp') by (try assumption; lia). exact Hstep.
Qed.

Lemma u64_succ_u64 x y : u64 (u64 x + y) = u64 (x + y).
Proof. unfold u64. apply Zplus_mod_idemp_l. Qed.

Section Breakpoints.

Variable E : Externals.

(** One step that arrives at the first enabled breakpoint of its PC. *)
Lemma breakpoint_hit_step cpu memory mem_size k bp :
  halted cpu = false -> first_enabled_at cpu k bp ->
  let bp' := set_hit_count (u64 (hit_count bp + 1)) bp in
  exists cpu',
    m68k_execute_cycle E cpu memory mem_size = Some (cpu', memory)
    /\ halted cpu' = true
    /\ breakpoints cpu' !! k = Some bp'
    /\ (forall j, j <> k -> breakpoints cpu' !! j = breakpoints cpu !! j)
    /\ same_context cpu cpu'.
Proof.
  intros Hrun (Hk & Hbp & Hen & Hadr & Hfirst) bp'.
  assert (Hfind : find_breakpoint (breakpoints cpu) (pc cpu) 0
                    (Z.to_nat (num_breakpoints cpu)) = Some k).
  { apply (find_breakpoint_first _ _ k bp); try assumption; [lia |].
    intros j bp0 Hj. apply Hfirst. lia. }
  unfold m68k_execute_cycle. rewrite Hrun.
  unfold m68k_check_breakpoint.
  cbn [breakpoints num_breakpoints pc set_bus_active]. rewrite Hfind.
  eexists. split; [reflexivity |].
  cbn -[alter]. repeat split.
  - rewrite list_lookup_alter. rewrite decide_True by reflexivity.
    now rewrite Hbp.
  - intros j Hj. apply list_lookup_alter_ne. congruence.
Qed.

(** C8 (as the code has it). When the processor is not halted and the
    first enabled breakpoint at its PC is entry [k], the step halts, adds
    one to the hit counter of entry [k] and to no other, and returns
    without fetching or executing: PC, registers, status word, counters
    and memory are as before.  The same holds at every later arrival
    after a resume: after [n] further arrivals the counter has grown by
    [n + 1] (modulo 2^64). *)
Theorem breakpoint_counts_each_arrival cpu memory mem_size k bp (n : nat) :
  halted cpu = false -> first_enabled_at cpu k bp ->
  let first := m68k_execute_cycle E cpu memory mem_size in
  let arrived :=
    Nat.iter n (fun state => state ≫= resume_and_step E memory mem_size)
      (fst <$> first) in
  snd <$> first = Some memory
  /\ exists cpu',
       arrived = Some cpu'
       /\ halted cpu' = true
       /\ breakpoints cpu' !! k
          = Some (set_hit_count (u64 (hit_count bp + 1 + Z.of_nat n)) bp)
       /\ (forall j, j <> k -> breakpoints cpu' !! j = breakpoints cpu !! j)
       /\ same_context cpu cpu'.
Proof.
  revert cpu bp. induction n as [| n IH]; intros cpu bp Hrun Hfirst.
  - destruct (breakpoint_hit_step cpu memory mem_size k bp Hrun Hfirst)
      as (cpu1 & Hstep & Hh & Hk & Hothers & Hctx).
    cbv zeta. rewrite Hstep. split; [reflexivity |].
    exists cpu1. cbn [Nat.iter]. rewrite Z.add_0_r. auto.
  - destruct (breakpoint_hit_step cpu memory mem_size k bp Hrun Hfirst)
      as (cpu1 & Hstep & Hh & Hk & Hothers & Hctx).
    set (bp1 := set_hit_count (u64 (hit_count bp + 1)) bp) in *.
    cbv zeta. rewrite Hstep. split; [reflexivity |].
    rewrite Nat.iter_succ_r.
    change ((fst <$> Some (cpu1, memory)) ≫= resume_and_step E memory mem_size)
      with (fst <$> m68k_execute_cycle E (clear_halted cpu1) memory mem_size).
    destruct Hctx as (Hpc & Hd & Ha & Hsr & Husp & Hssp & Hvbr & Hap & Hcyc
                      & Hins & Hnum).
    destruct Hfirst as (Hlt & Hbp & Hen & Hadr & Hmin).
    assert (Hfirst1 : first_enabled_at (clear_halted cpu1) k bp1).
    { unfold first_enabled_at.
      cbn [clear_halted num_breakpoints breakpoints pc set_halted].
      rewrite Hnum, Hpc. repeat split; try assumption.
      intros j bp0 Hj Hbp0. rewrite Hothers in Hbp0 by lia.
      now apply (Hmin j). }
    destruct (IH (clear_halted cpu1) bp1 eq_refl Hfirst1)
      as (_ & cpu2 & Harr & Hh' & Hk' & Hothers' & Hctx').
    exists cpu2. split; [exact Harr |].
    split; [exact Hh' |]. split; [| split].
    + rewrite Hk'. f_equal. unfold bp1, set_hit_count.
      cbn [address enabled hit_count condition].
      rewrite <- Z.add_assoc, u64_succ_u64. do 2 f_equal. lia.
    + intros j Hj. rewrite Hothers' by assumption.
      cbn [clear_halted breakpoints set_halted]. now apply Hothers.
    + unfold same_context in *.
      cbn [clear_halted pc d a sr usp ssp vbr apollo cycle_count
           instruction_count num_breakpoints set_halted] in Hctx'.
      destruct Hctx' as (? & ? & ? & ? & ? & ? & ? & ? & ? & ? & ?).
      repeat split; congruence.
Qed.

End Breakpoints.

(** One breakpoint at 0x1000 and the PC there: three arrivals (the first
    step and two resumes) leave its hit counter at 3. *)
Lemma breakpoint_counts_each_arrival_witness :
  let cpu := m68k_add_breakpoint (set_pc 0x1000 power_on) 0x1000 in
  let memory := repeat 0 0x2000 in
  let bp := mkBreakpoint 0x1000 true 0 (repeat 0 64) in
  let arrived :=
    Nat.iter 2
      (fun state => state ≫= resume_and_step idle_externals memory 0x2000)
      (fst <$> m68k_execute_cycle idle_externals cpu memory 0x2000) in
  halted cpu = false
  /\ first_enabled_at cpu 0 bp
  /\ exists cpu',
       arrived = Some cpu'
       /\ halted cpu' = true
       /\ breakpoints cpu' !! 0%nat = Some (set_hit_count 3 bp)
       /\ pc cpu' = 0x1000.
Proof.
  cbv zeta.
  assert (Hfirst : first_enabled_at
            (m68k_add_breakpoint (set_pc 0x1000 power_on) 0x1000) 0
            (mkBreakpoint 0x1000 true 0 (repeat 0 64))).
  { split; [vm_compute; lia |]. repeat split. intros j bp' Hj. lia. }
  split; [reflexivity |]. split; [exact Hfirst |].
  destruct (breakpoint_counts_each_arrival idle_externals
              (m68k_add_breakpoint (set_pc 0x1000 power_on) 0x1000)
              (repeat 0 0x2000) 0x2000 0
              (mkBreakpoint 0x1000 true 0 (repeat 0 64)) 2 eq_refl Hfirst)
    as (_ & cpu' & Harr & Hh & Hk & _ & Hpc & _).
  exists cpu'. split; [exact Harr |].
  split; [exact Hh |]. split; [exact Hk | exact Hpc].
Defined.

(** Two entries at one address ([m68k_add_breakpoint] twice at 0x1000):
    both are enabled and set at the PC, the step halts, and only the first
    is counted; the hit counter of the second stays 0. *)
Lemma duplicate_breakpoint_not_counted :
  let cpu :=
    m68k_add_breakpoint
      (m68k_add_breakpoint (set_pc 0x1000 power_on) 0x1000) 0x1000 in
  let stepped :=
    fst <$> m68k_execute_cycle idle_externals cpu (repeat 0 0x2000) 0x2000 in
  halted cpu = false /\ pc cpu = 0x1000 /\ num_breakpoints cpu = 2
  /\ breakpoints cpu !! 1%nat = Some (mkBreakpoint 0x1000 true 0 (repeat 0 64))
  /\ halted <$> stepped = Some true
  /\ (fun cpu' => breakpoints cpu' !! 0%nat) <$> stepped
     = Some (Some (mkBreakpoint 0x1000 true 1 (repeat 0 64)))
  /\ (fun cpu' => breakpoints cpu' !! 1%nat) <$> stepped
     = Some (Some (mkBreakpoint 0x1000 true 0 (repeat 0 64))).
Proof. vm_compute. repeat split. Qed.

(** ** The step controller *)

(** Nothing in the sized accessors, the fetch or the flag routines stores
    to the instruction counter. *)
Lemma fetch_word_instruction_count cpu memory mem_size :
  instruction_count (snd (m68k_fetch_word cpu memory mem_size))
  = instruction_count cpu.
Proof.
  unfold m68k_fetch_word. destruct (pc cpu >=? _); reflexivity.
Qed.

Lemma fetch_long_instruction_count cpu memory mem_size :
  instruction_count (snd (m68k_fetch_long cpu memory mem_size))
  = instruction_count cpu.
Proof.
  unfold m68k_fetch_long.
  pose proof (fetch_word_instruction_count cpu memory mem_size) as H1.
  destruct (m68k_fetch_word cpu memory mem_size) as [high cpu1].
  pose proof (fetch_word_instruction_count cpu1 memory mem_size) as H2.
  destruct (m68k_fetch_word cpu1 memory mem_size) as [low cpu2].
  cbn [fst snd] in *. congruence.
Qed.

Lemma read_memory_instruction_count cpu memory mem_size addr size :
  instruction_count (snd (m68k_read_memory cpu memory mem_size addr size))
  = instruction_count cpu.
Proof.
  unfold m68k_read_memory. destruct (addr >=? mem_size); reflexivity.
Qed.

Lemma write_memory_instruction_count cpu memory mem_size addr value size :
  instruction_count
    (fst (m68k_write_memory cpu memory mem_size addr value size))
  = instruction_count cpu.
Proof.
  unfold m68k_write_memory. destruct (addr >=? mem_size); reflexivity.
Qed.

Lemma set_flags_instruction_count cpu result size :
  instruction_count (m68k_set_flags cpu result size) = instruction_count cpu.
Proof. now rewrite set_flags_only_sr. Qed.

Lemma clear_cv_instruction_count cpu :
  instruction_count (clear_cv cpu) = instruction_count cpu.
Proof. now rewrite clear_cv_only_sr. Qed.

(** Name the result of the next accessor call in the goal, keeping what
    is known of its instruction counter, or split the next conditional. *)
Ltac counter_step :=
  match goal with
  | |- context [m68k_fetch_word ?c ?m ?s] =>
      let H := fresh "H" in
      pose proof (fetch_word_instruction_count c m s) as H;
      destruct (m68k_fetch_word c m s) as [? ?]; cbn [fst snd] in H
  | |- context [m68k_fetch_long ?c ?m ?s] =>
      let H := fresh "H" in
      pose proof (fetch_long_instruction_count c m s) as H;
      destruct (m68k_fetch_long c m s) as [? ?]; cbn [fst snd] in H
  | |- context [m68k_read_memory ?c ?m ?s ?x ?z] =>
      let H := fresh "H" in
      pose proof (read_memory_instruction_count c m s x z) as H;
      destruct (m68k_read_memory c m s x z) as [? ?]; cbn [fst snd] in H
  | |- context [m68k_write_memory ?c ?m ?s ?x ?y ?z] =>
      let H := fresh "H" in
      pose proof (write_memory_instruction_count c m s x y z) as H;
      destruct (m68k_write_memory c m s x y z) as [? ?]; cbn [fst snd] in H
  | |- context [if ?b then _ else _] => destruct b
  end.

Ltac counter_close :=
  cbn [fst instruction_count set_pc set_a set_d set_sr set_halted
       set_branch_count set_branch_taken] in *;
  rewrite ?clear_cv_instruction_count, ?set_flags_instruction_count;
  cbn [fst instruction_count set_pc set_a set_d set_sr set_halted
       set_branch_count set_branch_taken] in *;
  congruence.

Lemma branches_keep_instruction_count cpu memory mem_size op opcode :
  instruction_count
    (fst (m68k_execute_branches cpu memory mem_size op opcode))
  = instruction_count cpu.
Proof.
  unfold m68k_execute_branches.
  destruct op; cbv beta iota zeta; try reflexivity;
    repeat counter_step; counter_close.
Qed.

Lemma special_keeps_instruction_count cpu memory mem_size op opcode :
  instruction_count
    (fst (m68k_execute_special cpu memory mem_size op opcode))
  = instruction_count cpu.
Proof.
  unfold m68k_execute_special.
  destruct op; cbv beta iota zeta; try reflexivity;
    repeat counter_step; counter_close.
Qed.

(** The special family has no case for the arithmetic and compare tags,
    although the step routes them to it. *)
Lemma special_ignores_arithmetic cpu memory mem_size opcode op :
  op = OP_ADD \/ op = OP_SUB \/ op = OP_CMP
  \/ op = OP_DIVU \/ op = OP_DIVS ->
  (OpCode_to_Z OP_LEA <=? OpCode_to_Z op)
  && (OpCode_to_Z op <=? OpCode_to_Z OP_STOP) = true
  /\ m68k_execute_special cpu memory mem_size op opcode = (cpu, memory).
Proof. intros [-> | [-> | [-> | [-> | ->]]]]; split; reflexivity. Qed.

Section Step.

Variable E : Externals.

(** Whenever the decoded tag lies in the range of the branch family or of
    the special family, the step leaves the instruction counter as it was. *)
Lemma step_outside_general_family_keeps_count cpu memory mem_size :
  halted cpu = false ->
  find_breakpoint (breakpoints cpu) (pc cpu) 0
    (Z.to_nat (num_breakpoints cpu)) = None ->
  let fetched := m68k_fetch_word (set_bus_active false cpu) memory mem_size in
  let op := fst (m68k_decode_instruction (snd fetched) (fst fetched)) in
  OpCode_to_Z OP_BRA <= OpCode_to_Z op <= OpCode_to_Z OP_DBF
  \/ OpCode_to_Z OP_LEA <= OpCode_to_Z op <= OpCode_to_Z OP_STOP ->
  instruction_count <$> (fst <$> m68k_execute_cycle E cpu memory mem_size)
  = Some (instruction_count cpu).
Proof.
  intros Hrun Hfind fetched op Hrange.
  unfold m68k_execute_cycle. rewrite Hrun. unfold m68k_check_breakpoint.
  cbn [breakpoints num_breakpoints pc set_bus_active]. rewrite Hfind.
  pose proof (fetch_word_instruction_count (set_bus_active false cpu)
                memory mem_size) as Hf.
  subst op fetched.
  destruct (m68k_fetch_word (set_bus_active false cpu) memory mem_size)
    as [opcode cpu1].
  cbn [fst snd] in *.
  destruct (m68k_decode_instruction cpu1 opcode) as [op params].
  cbn [fst] in *.
  destruct (Z.leb_spec (OpCode_to_Z OP_BRA) (OpCode_to_Z op));
    destruct (Z.leb_spec (OpCode_to_Z op) (OpCode_to_Z OP_DBF));
    destruct (Z.leb_spec (OpCode_to_Z OP_LEA) (OpCode_to_Z op));
    destruct (Z.leb_spec (OpCode_to_Z op) (OpCode_to_Z OP_STOP));
    cbn [andb]; try lia;
    unfold fmap, option_fmap, option_map; f_equal;
    rewrite ?branches_keep_instruction_count,
            ?special_keeps_instruction_count; exact Hf.
Qed.

End Step.

(** C2. From the initial state (not halted, no breakpoint) one step on a
    BRA (branch family) or on a LEA (special family) leaves the
    instruction counter at 0; one step on a MOVEQ (general family) makes
    it 1.  Only [m68k_execute_instruction] increments the counter. *)
Theorem instruction_count_only_in_general_family
    (E : Externals) (cpu : M68K_CPU) :
  let cpu0 := m68k_init cpu in
  let step w :=
    fst <$> m68k_execute_cycle E cpu0 (load_words [w] 128) 128 in
  halted cpu0 = false /\ num_breakpoints cpu0 = 0
  /\ instruction_count cpu0 = 0
  /\ fst (m68k_decode_instruction cpu0 0x6002) = OP_BRA
  /\ instruction_count <$> step 0x6002 = Some 0
  /\ fst (m68k_decode_instruction cpu0 0x43D0) = OP_LEA
  /\ instruction_count <$> step 0x43D0 = Some 0
  /\ fst (m68k_decode_instruction cpu0 0x7001) = OP_MOVEQ
  /\ instruction_count <$> step 0x7001 = Some 1.
Proof. cbv zeta. vm_compute. repeat split. Qed.

(** C1. From the reset state (D0 = D1 = D2 = 0, PC = 0) with the test
    program of [main.c] at address 0, one step per instruction leaves
    D0 = 1, D1 = 2, D2 = 3: D1 is 2, not 3.  The step sends every tag from
    [OP_LEA] to [OP_STOP] to [m68k_execute_special], which has no case for
    ADD, SUB or CMP, so only the three MOVEQ are executed (and counted).
    With BEQ in its 16-bit form the untaken branch leaves its displacement
    word to be fetched as the next instruction; a ninth step changes
    nothing either. *)
Theorem end_to_end_scenario_d1_stays_2 (E : Externals) (cpu : M68K_CPU) :
  let cpu0 := m68k_reset (m68k_init cpu) in
  let regs c := (idx (d c) 0, idx (d c) 1, idx (d c) 2) in
  let final ws n := fst <$> run E n cpu0 (load_words ws 128) 128 in
  regs cpu0 = (0, 0, 0) /\ pc cpu0 = 0
  /\ regs <$> final test_program_short 8%nat = Some (1, 2, 3)
  /\ regs <$> final test_program 8%nat = Some (1, 2, 3)
  /\ regs <$> final test_program 9%nat = Some (1, 2, 3)
  /\ instruction_count <$> final test_program_short 8%nat = Some 3.
Proof. cbv zeta. vm_compute. repeat split. Qed.


(** * Further properties *)

(** ** Sized accessors: round trip, frame, partial overrun *)

Lemma testbit_byte_mask x n :
  0 <= n -> Z.testbit (Z.land x 0xFF) n = (n <? 8) && Z.testbit x n.
Proof.
  intros Hn. change 0xFF with (Z.ones 8).
  rewrite Z.land_spec, Z.testbit_ones_nonneg by lia. apply andb_comm.
Qed.

Lemma testbit_byte_lane value k n :
  0 <= k -> 0 <= n ->
  Z.testbit (Z.shiftl (Z.land (Z.shiftr value k) 0xFF) k) n
  = (k <=? n) && (n - k <? 8) && Z.testbit value n.
Proof.
  intros Hk Hn. destruct (Z.leb_spec k n).
  - rewrite Z.shiftl_spec, testbit_byte_mask, Z.shiftr_spec by lia.
    now replace (n - k + k) with n by lia.
  - now rewrite Z.shiftl_spec_low by lia.
Qed.

(** Split every comparison of the goal and close it by cases on the bit. *)
Ltac lanes value n :=
  repeat match goal with
         | |- context [?x <? ?y] => destruct (Z.ltb_spec x y); try lia
         | |- context [?x <=? ?y] => destruct (Z.leb_spec x y); try lia
         end;
  cbn; destruct (Z.testbit value n); reflexivity.

Lemma word_of_bytes (value : Z) :
  u32 (Z.lor (Z.shiftl (Z.land (Z.shiftr value 8) 0xFF) 8)
             (Z.land value 0xFF))
  = value mod 2 ^ 16.
Proof.
  apply Z.bits_inj'. intros n Hn.
  rewrite u32_testbit, Z.lor_spec, Z.testbit_mod_pow2 by lia.
  rewrite testbit_byte_lane, testbit_byte_mask by lia.
  lanes value n.
Qed.

Lemma long_of_bytes (value : Z) :
  u32 (Z.lor (Z.lor (Z.lor
         (Z.shiftl (Z.land (Z.shiftr value 24) 0xFF) 24)
         (Z.shiftl (Z.land (Z.shiftr value 16) 0xFF) 16))
         (Z.shiftl (Z.land (Z.shiftr value 8) 0xFF) 8))
         (Z.land value 0xFF))
  = value mod 2 ^ 32.
Proof.
  apply Z.bits_inj'. intros n Hn.
  rewrite u32_testbit, !Z.lor_spec, Z.testbit_mod_pow2 by lia.
  rewrite !testbit_byte_lane, testbit_byte_mask by lia.
  lanes value n.
Qed.

Lemma u32_small x : 0 <= x < 2 ^ 32 -> u32 x = x.
Proof. intros H. unfold u32. apply Z.mod_small. lia. Qed.

Lemma byte_at_upd_eq memory addr x :
  0 <= addr < Z.of_nat (length memory) -> byte_at (upd memory addr x) addr = x.
Proof. intros H. unfold byte_at. apply idx_upd_eq; lia. Qed.

Lemma byte_at_upd_ne memory addr j x :
  0 <= addr -> 0 <= j -> addr <> j ->
  byte_at (upd memory addr x) j = byte_at memory j.
Proof. intros. unfold byte_at. now apply idx_upd_ne. Qed.

Lemma read_after_write
    (cpu cpu2 : M68K_CPU) (memory : list Z) (mem_size addr value : Z)
    (size : OperandSize) :
  size = SIZE_BYTE \/ size = SIZE_WORD \/ size = SIZE_LONG ->
  0 <= addr -> addr + OperandSize_to_Z size <= mem_size ->
  mem_size <= Z.of_nat (length memory) -> mem_size <= 2 ^ 32 ->
  fst (m68k_read_memory cpu2
         (snd (m68k_write_memory cpu memory mem_size addr value size))
         mem_size addr size)
  = truncate size value.
Proof.
  intros Hsize Ha Hfit Hlen Hmax.
  unfold m68k_write_memory, m68k_read_memory, truncate.
  assert (Hs : 1 <= OperandSize_to_Z size)
    by (destruct Hsize as [-> | [-> | ->]]; cbn; lia).
  destruct (Z.geb_spec addr mem_size); [lia |].
  destruct Hsize as [-> | [-> | ->]]; cbn [OperandSize_to_Z] in *;
    cbn [fst snd].
  - rewrite byte_at_upd_eq by lia.
    change 0xFF with (Z.ones 8). now rewrite Z.land_ones by lia.
  - rewrite (u32_small (addr + 1)) by lia.
    destruct (Z.ltb_spec (addr + 1) mem_size); [| lia]. cbn [fst snd].
    rewrite byte_at_upd_eq by (rewrite length_upd; lia).
    rewrite byte_at_upd_ne, byte_at_upd_eq by lia.
    apply word_of_bytes.
  - rewrite (u32_small (addr + 1)), (u32_small (addr + 2)),
      (u32_small (addr + 3)) by lia.
    destruct (Z.ltb_spec (addr + 3) mem_size); [| lia]. cbn [fst snd].
    rewrite byte_at_upd_eq by (rewrite !length_upd; lia).
    rewrite (byte_at_upd_ne _ (addr + 3) (addr + 2)) by lia.
    rewrite byte_at_upd_eq by (rewrite !length_upd; lia).
    rewrite 2 (byte_at_upd_ne _ _ (addr + 1)) by lia.
    rewrite byte_at_upd_eq by (rewrite !length_upd; lia).
    rewrite 3 (byte_at_upd_ne _ _ addr) by lia.
    rewrite byte_at_upd_eq by lia.
    apply long_of_bytes.
Qed.


(** X1. What a sized write stores, a sized read of the same size at the
    same address returns, truncated to the size, whenever the whole
    operand lies inside the buffer. *)
Theorem write_then_read
    (cpu cpu2 : M68K_CPU) (memory : list Z) (mem_size addr value : Z)
    (size : OperandSize) :
  size = SIZE_BYTE \/ size = SIZE_WORD \/ size = SIZE_LONG ->
  0 <= addr -> addr + OperandSize_to_Z size <= mem_size ->
  mem_size <= Z.of_nat (length memory) -> mem_size <= 2 ^ 32 ->
  let memory' :=
    snd (m68k_write_memory cpu memory mem_size addr value size) in
  fst (m68k_read_memory cpu2 memory' mem_size addr size)
  = truncate size value.
Proof. intros. apply read_after_write; assumption. Qed.

Lemma write_then_read_witness :
  fst (m68k_read_memory power_on
         (snd (m68k_write_memory power_on (repeat 0 16) 16 4 0x12345678
                 SIZE_LONG)) 16 4 SIZE_LONG)
  = 0x12345678.
Proof.
  exact (write_then_read power_on power_on (repeat 0 16) 16 4 0x12345678
           SIZE_LONG (or_intror (or_intror eq_refl))
           ltac:(lia) ltac:(cbn; lia) ltac:(cbn; lia) ltac:(lia)).
Defined.

Lemma write_memory_length cpu memory mem_size addr value size :
  length (snd (m68k_write_memory cpu memory mem_size addr value size))
  = length memory.
Proof.
  unfold m68k_write_memory.
  destruct (addr >=? mem_size); [reflexivity |].
  destruct size; cbn [snd]; rewrite ?length_upd; try reflexivity;
    match goal with |- context [if ?b then _ else _] => destruct b end;
    rewrite ?length_upd; reflexivity.
Qed.

Lemma write_frame
    (cpu : M68K_CPU) (memory : list Z) (mem_size addr value j : Z)
    (size : OperandSize) :
  0 <= addr -> 0 <= j -> addr + OperandSize_to_Z size <= 2 ^ 32 ->
  j < addr \/ addr + OperandSize_to_Z size <= j ->
  byte_at (snd (m68k_write_memory cpu memory mem_size addr value size)) j
  = byte_at memory j.
Proof.
  intros Ha Hj Hwrap Hout.
  unfold m68k_write_memory.
  destruct (addr >=? mem_size); [reflexivity |].
  destruct size; cbn [OperandSize_to_Z] in *; cbn [snd]; try reflexivity.
  - apply byte_at_upd_ne; lia.
  - rewrite (u32_small (addr + 1)) by lia.
    destruct (addr + 1 <? mem_size); [| reflexivity].
    rewrite !byte_at_upd_ne by lia. reflexivity.
  - rewrite (u32_small (addr + 1)), (u32_small (addr + 2)),
      (u32_small (addr + 3)) by lia.
    destruct (addr + 3 <? mem_size); [| reflexivity].
    rewrite !byte_at_upd_ne by lia. reflexivity.
Qed.


(** X2. A sized write keeps the length of the buffer and leaves every
    byte outside the operand as it was. *)
Theorem write_touches_only_operand
    (cpu : M68K_CPU) (memory : list Z) (mem_size addr value j : Z)
    (size : OperandSize) :
  0 <= addr -> 0 <= j -> addr + OperandSize_to_Z size <= 2 ^ 32 ->
  j < addr \/ addr + OperandSize_to_Z size <= j ->
  let memory' :=
    snd (m68k_write_memory cpu memory mem_size addr value size) in
  length memory' = length memory /\ byte_at memory' j = byte_at memory j.
Proof.
  intros. split; [apply write_memory_length | apply write_frame; assumption].
Qed.

Lemma write_touches_only_operand_witness :
  let memory' :=
    snd (m68k_write_memory power_on (repeat 0x55 16) 16 4 0x12345678
           SIZE_WORD) in
  length memory' = 16%nat /\ byte_at memory' 6 = 0x55.
Proof.
  exact (write_touches_only_operand power_on (repeat 0x55 16) 16 4
           0x12345678 6 SIZE_WORD ltac:(lia) ltac:(lia) ltac:(cbn; lia)
           ltac:(cbn; lia)).
Defined.

(** X3. A word or long access that starts inside the buffer and runs past
    its end is tolerated like one that starts outside: the read yields 0,
    the write stores nothing, neither halts; but both are counted as a bus
    cycle and as a load or store. *)
Theorem partial_overrun_is_tolerated
    (cpu : M68K_CPU) (memory : list Z) (mem_size addr value : Z)
    (size : OperandSize) :
  size = SIZE_WORD \/ size = SIZE_LONG ->
  0 <= addr < mem_size -> mem_size < addr + OperandSize_to_Z size ->
  addr + OperandSize_to_Z size <= 2 ^ 32 ->
  let r := m68k_read_memory cpu memory mem_size addr size in
  let w := m68k_write_memory cpu memory mem_size addr value size in
  (fst r = 0 /\ halted (snd r) = halted cpu
   /\ load_count (snd r) = u64 (load_count cpu + 1)
   /\ cycle_count (snd r) = u64 (cycle_count cpu + 1))
  /\ (snd w = memory /\ halted (fst w) = halted cpu
      /\ store_count (fst w) = u64 (store_count cpu + 1)
      /\ cycle_count (fst w) = u64 (cycle_count cpu + 1)).
Proof.
  intros Hsize Ha Hover Hwrap r w. subst r w.
  unfold m68k_read_memory, m68k_write_memory.
  destruct (Z.geb_spec addr mem_size); [lia |].
  destruct Hsize as [-> | ->]; cbn [OperandSize_to_Z] in *.
  - rewrite (u32_small (addr + 1)) by lia.
    destruct (Z.ltb_spec (addr + 1) mem_size); [lia |]. cbn. auto 10.
  - rewrite (u32_small (addr + 3)) by lia.
    destruct (Z.ltb_spec (addr + 3) mem_size); [lia |]. cbn. auto 10.
Qed.

Lemma partial_overrun_is_tolerated_witness :
  let r := m68k_read_memory power_on (repeat 0x55 16) 16 14 SIZE_LONG in
  let w := m68k_write_memory power_on (repeat 0x55 16) 16 14 0x12345678
             SIZE_LONG in
  (fst r = 0 /\ halted (snd r) = false /\ load_count (snd r) = 1
   /\ cycle_count (snd r) = 1)
  /\ (snd w = repeat 0x55 16 /\ halted (fst w) = false
      /\ store_count (fst w) = 1 /\ cycle_count (fst w) = 1).
Proof.
  exact (partial_overrun_is_tolerated power_on (repeat 0x55 16) 16 14
           0x12345678 SIZE_LONG (or_intror eq_refl) ltac:(lia)
           ltac:(cbn; lia) ltac:(cbn; lia)).
Defined.

(** ** Instruction fetch *)

Lemma byte_at_range memory mem_size addr :
  byte_buffer memory mem_size -> 0 <= byte_at memory addr < 0x100.
Proof.
  intros [_ Hb]. unfold byte_at, idx.
  destruct (memory !! Z.to_nat addr) as [b |] eqn:E; cbn; [eauto | lia].
Qed.

Lemma pack_two_bytes (hi lo : Z) :
  0 <= hi < 0x100 -> 0 <= lo < 0x100 ->
  u16 (Z.lor (Z.shiftl hi 8) lo) = 0x100 * hi + lo.
Proof.
  intros Hh Hl.
  rewrite <- Z.add_nocarry_lor.
  - rewrite Z.shiftl_mul_pow2 by lia. unfold u16.
    rewrite Z.mod_small; lia.
  - apply Z.bits_inj'. intros n Hn.
    rewrite Z.land_spec, Z.bits_0.
    destruct (Z.ltb_spec n 8).
    + now rewrite Z.shiftl_spec_low by lia.
    + rewrite (Z.bits_above_log2 lo n), andb_false_r; [reflexivity | lia |].
      destruct (Z.eq_dec lo 0) as [-> | Hne]; [cbn; lia |].
      apply Z.log2_lt_pow2; [lia |].
      apply Z.lt_le_trans with (2 ^ 8); [lia |].
      apply Z.pow_le_mono_r; lia.
Qed.

(** X4. In a non-empty buffer of at most 4 GiB an instruction fetch
    succeeds exactly when both bytes of the word lie inside the buffer.  It
    then returns the word in big-endian order, advances the PC by 2 and
    counts one cycle, touching neither the halted flag nor a register;
    otherwise (the last byte of the buffer included) it halts, returns 0
    and leaves the PC.  An empty buffer is left out: there [mem_size - 1]
    wraps around in [size_t] and the bounds test lets every PC through. *)
Theorem fetch_word_outcome
    (cpu : M68K_CPU) (memory : list Z) (mem_size : Z) :
  byte_buffer memory mem_size -> 0 < mem_size <= 2 ^ 32 -> 0 <= pc cpu ->
  let r := m68k_fetch_word cpu memory mem_size in
  if pc cpu + 1 <? mem_size then
    fst r = 0x100 * byte_at memory (pc cpu) + byte_at memory (pc cpu + 1)
    /\ pc (snd r) = u32 (pc cpu + 2)
    /\ cycle_count (snd r) = u64 (cycle_count cpu + 1)
    /\ halted (snd r) = halted cpu
    /\ d (snd r) = d cpu /\ a (snd r) = a cpu /\ sr (snd r) = sr cpu
  else r = (0, set_halted true cpu).
Proof.
  intros Hbuf Hm Hpc r. subst r. unfold m68k_fetch_word, size_t.
  replace (u64 (mem_size - 1)) with (mem_size - 1)
    by (unfold u64; rewrite Z.mod_small; lia).
  destruct (Z.ltb_spec (pc cpu + 1) mem_size);
    destruct (Z.geb_spec (pc cpu) (mem_size - 1)); try lia;
    [| reflexivity].
  cbn [fst snd pc cycle_count halted d a sr set_pc set_cycle_count
       set_bus_data set_bus_active set_bus_address].
  rewrite (u32_small (pc cpu + 1)) by lia.
  repeat split.
  apply pack_two_bytes; eapply byte_at_range; eassumption.
Qed.

Lemma fetch_word_outcome_witness :
  let memory := load_words [0x7001] 4 in
  let r := m68k_fetch_word power_on memory 4 in
  fst r = 0x7001 /\ pc (snd r) = 2 /\ halted (snd r) = false
  /\ m68k_fetch_word (set_pc 3 power_on) memory 4
     = (0, set_halted true (set_pc 3 power_on)).
Proof.
  assert (Hbuf : byte_buffer (load_words [0x7001] 4) 4).
  { split; [reflexivity |]. intros i b. vm_compute load_words.
    do 4 (destruct i as [| i]; [intros [= <-]; lia |]). discriminate. }
  pose proof (fetch_word_outcome power_on (load_words [0x7001] 4) 4 Hbuf
                ltac:(lia) ltac:(cbn; lia)) as H1.
  pose proof (fetch_word_outcome (set_pc 3 power_on) (load_words [0x7001] 4)
                4 Hbuf ltac:(lia) ltac:(cbn; lia)) as H2.
  cbv zeta in *.
  change (pc power_on + 1 <? 4) with true in H1.
  change (pc (set_pc 3 power_on) + 1 <? 4) with false in H2.
  destruct H1 as (Hw & Hp & _ & Hh & _).
  exact (conj Hw (conj Hp (conj Hh H2))).
Defined.

(** ** The breakpoint table *)

Lemma find_breakpoint_some bps addr : forall n s i,
  find_breakpoint bps addr s n = Some i ->
  (s <= i < s + n)%nat
  /\ exists bp, bps !! i = Some bp /\ enabled bp = true /\ address bp = addr.
Proof.
  induction n as [| n IH]; intros s i; cbn [find_breakpoint]; [discriminate |].
  destruct (bps !! s) as [bp |] eqn:E.
  - destruct (enabled bp) eqn:En; cbn [andb].
    + destruct (Z.eqb_spec (address bp) addr).
      * intros [= <-]. split; [lia | eauto].
      * intros H. apply IH in H as [? ?]. split; [lia | assumption].
    + intros H. apply IH in H as [? ?]. split; [lia | assumption].
  - intros H. apply IH in H as [? ?]. split; [lia | assumption].
Qed.

Lemma find_breakpoint_none bps addr : forall n s,
  find_breakpoint bps addr s n = None ->
  forall j bp, (s <= j < s + n)%nat -> bps !! j = Some bp ->
    enabled bp && (address bp =? addr) = false.
Proof.
  induction n as [| n IH]; intros s; cbn [find_breakpoint]; [intros; lia |].
  intros H j bp Hj Hbp.
  destruct (decide (j = s)) as [-> | Hne].
  - rewrite Hbp in H. destruct (enabled bp && (address bp =? addr));
      [discriminate | reflexivity].
  - apply (IH (S s)) with (j := j); [| lia | assumption].
    destruct (bps !! s) as [bp0 |]; [| assumption].
    destruct (enabled bp0 && (address bp0 =? addr));
      [discriminate | assumption].
Qed.

Lemma find_address_some bps addr : forall n s i,
  find_address bps addr s n = Some i ->
  (s <= i < s + n)%nat
  /\ (exists bp, bps !! i = Some bp /\ address bp = addr)
  /\ forall j bp', (s <= j < i)%nat -> bps !! j = Some bp' ->
       address bp' <> addr.
Proof.
  induction n as [| n IH]; intros s i; cbn [find_address]; [discriminate |].
  assert (Hrec : find_address bps addr (S s) n = Some i ->
                 (forall bp', bps !! s = Some bp' -> address bp' <> addr) ->
                 (s <= i < s + S n)%nat
                 /\ (exists bp, bps !! i = Some bp /\ address bp = addr)
                 /\ forall j bp', (s <= j < i)%nat -> bps !! j = Some bp' ->
                      address bp' <> addr).
  { intros H Hs. apply IH in H as (? & ? & Hfirst).
    split; [lia |]. split; [assumption |].
    intros j bp' Hj Hbp. destruct (decide (j = s)) as [-> | ?];
      [eauto | apply (Hfirst j); [lia | assumption]]. }
  destruct (bps !! s) as [bp |] eqn:E.
  - destruct (Z.eqb_spec (address bp) addr).
    + intros [= <-]. split; [lia |]. split; [eauto |]. intros; lia.
    + intros H. apply Hrec; [assumption |]. intros bp' [= <-]. assumption.
  - intros H. apply Hrec; [assumption |]. discriminate.
Qed.

Lemma find_address_none bps addr : forall n s,
  find_address bps addr s n = None ->
  forall j bp, (s <= j < s + n)%nat -> bps !! j = Some bp ->
    address bp <> addr.
Proof.
  induction n as [| n IH]; intros s; cbn [find_address]; [intros; lia |].
  intros H j bp Hj Hbp.
  destruct (decide (j = s)) as [-> | Hne].
  - rewrite Hbp in H. destruct (Z.eqb_spec (address bp) addr);
      [discriminate | assumption].
  - apply (IH (S s)) with (j := j); [| lia | assumption].
    destruct (bps !! s) as [bp0 |]; [| assumption].
    destruct (address bp0 =? addr); [discriminate | assumption].
Qed.

Lemma in_use_lookup cpu i bp :
  in_use cpu !! i = Some bp
  <-> (i < Z.to_nat (num_breakpoints cpu))%nat /\ breakpoints cpu !! i = Some bp.
Proof.
  unfold in_use. rewrite lookup_take_Some. tauto.
Qed.

Lemma s32_small x : 0 <= x < 2 ^ 31 -> s32 x = x.
Proof.
  intros H. unfold s32, u32. rewrite Z.mod_small by lia.
  destruct (Z.ltb_spec x 0x80000000); lia.
Qed.

Lemma take_S_alter {A} (f : A -> A) (l : list A) n x :
  l !! n = Some x -> take (S n) (alter f n l) = take n l ++ [f x].
Proof.
  intros H. rewrite (take_S_r _ n (f x)).
  - rewrite take_alter_ge by lia. reflexivity.
  - rewrite list_lookup_alter_eq, H. reflexivity.
Qed.

Lemma add_breakpoint_table cpu addr :
  table_ok cpu -> 2 * max_breakpoints cpu < 2 ^ 31 ->
  table_ok (m68k_add_breakpoint cpu addr)
  /\ exists bp,
       in_use (m68k_add_breakpoint cpu addr) = in_use cpu ++ [bp]
       /\ address bp = addr /\ enabled bp = true /\ hit_count bp = 0.
Proof.
  intros (Hnum & Hmax & Hlen) Hdouble.
  unfold m68k_add_breakpoint, in_use, table_ok.
  destruct (Z.geb_spec (num_breakpoints cpu) (max_breakpoints cpu)) as [Hfull | Hroom];
    cbn [num_breakpoints max_breakpoints breakpoints set_breakpoints
         set_max_breakpoints set_num_breakpoints].
  - assert (Hn : num_breakpoints cpu = max_breakpoints cpu) by lia.
    rewrite (s32_small (max_breakpoints cpu * 2)) by lia.
    rewrite (s32_small (num_breakpoints cpu + 1)) by lia.
    assert (Hre : realloc_breakpoints (breakpoints cpu) (max_breakpoints cpu * 2)
                  = breakpoints cpu
                    ++ repeat zero_breakpoint (Z.to_nat (max_breakpoints cpu))).
    { unfold realloc_breakpoints. rewrite take_ge by lia.
      f_equal. f_equal. lia. }
    rewrite Hre, length_alter, length_app, repeat_length.
    split; [lia |].
    exists (mkBreakpoint addr true 0 (condition zero_breakpoint)).
    split; [| auto].
    replace (Z.to_nat (num_breakpoints cpu + 1))
      with (S (Z.to_nat (num_breakpoints cpu))) by lia.
    rewrite (take_S_alter _ _ _ zero_breakpoint).
    + rewrite take_app_le by lia. reflexivity.
    + rewrite lookup_app_r by lia.
      replace (Z.to_nat (num_breakpoints cpu) - length (breakpoints cpu))%nat
        with 0%nat by lia.
      destruct (Z.to_nat (max_breakpoints cpu)) eqn:E; [lia | reflexivity].
  - rewrite (s32_small (num_breakpoints cpu + 1)) by lia.
    rewrite length_alter. split; [lia |].
    destruct (lookup_lt_is_Some_2 (breakpoints cpu)
                (Z.to_nat (num_breakpoints cpu)) ltac:(lia)) as [old Hold].
    exists (mkBreakpoint addr true 0 (condition old)). split; [| auto].
    replace (Z.to_nat (num_breakpoints cpu + 1))
      with (S (Z.to_nat (num_breakpoints cpu))) by lia.
    exact (take_S_alter _ _ _ old Hold).
Qed.

Lemma shift_down_spec : forall k bps j,
  (S j + k <= length bps)%nat ->
  shift_down bps j k
  = take j bps ++ take k (drop (S j) bps) ++ drop (j + k) bps.
Proof.
  induction k as [| k IH]; intros bps j Hlen; cbn [shift_down].
  - rewrite Nat.add_0_r. cbn [take app]. symmetry. apply take_drop.
  - destruct (lookup_lt_is_Some_2 bps (S j) ltac:(lia)) as [x Hx].
    rewrite Hx. rewrite IH by (rewrite length_insert; lia).
    rewrite (take_S_r (<[j:=x]> bps) j x)
      by (apply list_lookup_insert_eq; lia).
    rewrite take_insert_ge by lia.
    rewrite !drop_insert_lt by lia.
    rewrite (drop_S bps x (S j) Hx). cbn [take].
    rewrite <- app_assoc. cbn [app].
    replace (S j + k)%nat with (j + S k)%nat by lia. reflexivity.
Qed.

Lemma without_first_at addr : forall l i bp,
  l !! i = Some bp -> address bp = addr ->
  (forall j bp', (j < i)%nat -> l !! j = Some bp' -> address bp' <> addr) ->
  without_first addr l = take i l ++ drop (S i) l.
Proof.
  induction l as [| x l IH]; intros i bp Hi Hadr Hfirst; [discriminate |].
  cbn [without_first]. destruct i as [| i].
  - injection Hi as ->. rewrite Hadr, Z.eqb_refl. reflexivity.
  - destruct (Z.eqb_spec (address x) addr) as [Heq | _].
    + exfalso. apply (Hfirst 0%nat x); [lia | reflexivity | assumption].
    + cbn [take drop app]. f_equal. apply (IH i bp); [assumption .. |].
      intros j bp' Hj Hbp. apply (Hfirst (S j) bp'); [lia | assumption].
Qed.

Lemma without_first_absent addr : forall l,
  (forall j bp, l !! j = Some bp -> address bp <> addr) ->
  without_first addr l = l.
Proof.
  induction l as [| x l IH]; intros H; [reflexivity |]. cbn [without_first].
  destruct (Z.eqb_spec (address x) addr) as [Heq | _].
  - exfalso. apply (H 0%nat x); [reflexivity | assumption].
  - f_equal. apply IH. intros j bp Hj. apply (H (S j)). assumption.
Qed.

Lemma alter_first_at addr f : forall l i bp,
  l !! i = Some bp -> address bp = addr ->
  (forall j bp', (j < i)%nat -> l !! j = Some bp' -> address bp' <> addr) ->
  alter_first addr f l = alter f i l.
Proof.
  induction l as [| x l IH]; intros i bp Hi Hadr Hfirst; [discriminate |].
  cbn [alter_first]. destruct i as [| i].
  - injection Hi as ->. rewrite Hadr, Z.eqb_refl. reflexivity.
  - destruct (Z.eqb_spec (address x) addr) as [Heq | _].
    + exfalso. apply (Hfirst 0%nat x); [lia | reflexivity | assumption].
    + cbn. f_equal. apply (IH i bp); [assumption .. |].
      intros j bp' Hj Hbp. apply (Hfirst (S j) bp'); [lia | assumption].
Qed.

Lemma alter_first_absent addr f : forall l,
  (forall j bp, l !! j = Some bp -> address bp <> addr) ->
  alter_first addr f l = l.
Proof.
  induction l as [| x l IH]; intros H; [reflexivity |]. cbn [alter_first].
  destruct (Z.eqb_spec (address x) addr) as [Heq | _].
  - exfalso. apply (H 0%nat x); [reflexivity | assumption].
  - f_equal. apply IH. intros j bp Hj. apply (H (S j)). assumption.
Qed.

Lemma remove_breakpoint_table cpu addr :
  table_ok cpu ->
  table_ok (m68k_remove_breakpoint cpu addr)
  /\ in_use (m68k_remove_breakpoint cpu addr)
     = without_first addr (in_use cpu).
Proof.
  intros (Hnum & Hmax & Hlen). unfold m68k_remove_breakpoint.
  destruct (find_address (breakpoints cpu) addr 0
              (Z.to_nat (num_breakpoints cpu))) as [i |] eqn:E.
  - apply find_address_some in E as (Hi & (bp & Hbp & Hadr) & Hfirst).
    unfold table_ok, in_use.
    cbn [num_breakpoints max_breakpoints breakpoints set_breakpoints
         set_num_breakpoints].
    rewrite (s32_small (num_breakpoints cpu - 1)) by lia.
    rewrite shift_down_spec by lia.
    rewrite !length_app, !length_take, !length_drop.
    split; [lia |].
    rewrite (without_first_at addr _ i bp).
    + rewrite take_take, skipn_firstn_comm.
      replace (i `min` Z.to_nat (num_breakpoints cpu))%nat with i by lia.
      rewrite app_assoc, take_app_le
        by (rewrite length_app, !length_take, length_drop; lia).
      rewrite take_ge
        by (rewrite length_app, !length_take, length_drop; lia).
      f_equal. f_equal. lia.
    + apply lookup_take_Some. split; [assumption | lia].
    + assumption.
    + intros j bp' Hj Hbp'. apply lookup_take_Some in Hbp' as [Hbp' _].
      apply (Hfirst j); [lia | assumption].
  - split; [unfold table_ok; auto |]. symmetry. apply without_first_absent.
    intros j bp Hj. apply in_use_lookup in Hj as [Hlt Hj].
    apply (find_address_none _ _ _ _ E j); [lia | assumption].
Qed.

Lemma enable_breakpoint_table cpu addr value :
  in_use (m68k_enable_breakpoint cpu addr value)
  = alter_first addr (set_enabled value) (in_use cpu)
  /\ num_breakpoints (m68k_enable_breakpoint cpu addr value)
     = num_breakpoints cpu
  /\ max_breakpoints (m68k_enable_breakpoint cpu addr value)
     = max_breakpoints cpu
  /\ length (breakpoints (m68k_enable_breakpoint cpu addr value))
     = length (breakpoints cpu).
Proof.
  unfold m68k_enable_breakpoint.
  destruct (find_address (breakpoints cpu) addr 0
              (Z.to_nat (num_breakpoints cpu))) as [i |] eqn:E.
  - apply find_address_some in E as (Hi & (bp & Hbp & Hadr) & Hfirst).
    unfold in_use.
    cbn [num_breakpoints max_breakpoints breakpoints set_breakpoints].
    rewrite length_alter. split; [| auto].
    rewrite take_alter_lt by lia. symmetry.
    apply (alter_first_at addr _ _ i bp).
    + apply lookup_take_Some. split; [assumption | lia].
    + assumption.
    + intros j bp' Hj Hbp'. apply lookup_take_Some in Hbp' as [Hbp' _].
      apply (Hfirst j); [lia | assumption].
  - split; [| auto]. symmetry. apply alter_first_absent.
    intros j bp Hj. apply in_use_lookup in Hj as [Hlt Hj].
    apply (find_address_none _ _ _ _ E j); [lia | assumption].
Qed.

Lemma check_breakpoint_hits cpu addr bp :
  bp ∈ in_use cpu -> enabled bp = true -> address bp = addr ->
  fst (m68k_check_breakpoint cpu addr) = true.
Proof.
  intros Hin Hen Hadr. unfold m68k_check_breakpoint.
  destruct (find_breakpoint (breakpoints cpu) addr 0
              (Z.to_nat (num_breakpoints cpu))) as [i |] eqn:E;
    [reflexivity |].
  apply list_elem_of_lookup in Hin as [j Hj].
  apply in_use_lookup in Hj as [Hlt Hj].
  pose proof (find_breakpoint_none _ _ _ _ E j bp ltac:(lia) Hj) as Hno.
  rewrite Hen, Hadr, Z.eqb_refl in Hno. discriminate.
Qed.

Lemma without_first_app addr x : forall l k,
  x ∈ l -> address x = addr ->
  without_first addr (l ++ k) = without_first addr l ++ k.
Proof.
  induction l as [| y l IH]; intros k Hin Hadr; [inversion Hin |].
  cbn [without_first app].
  destruct (address y =? addr) eqn:E; [reflexivity |].
  apply elem_of_cons in Hin as [-> | Hin].
  - rewrite Hadr, Z.eqb_refl in E. discriminate.
  - rewrite IH by assumption. reflexivity.
Qed.

Lemma alter_first_app addr f x : forall l k,
  x ∈ l -> address x = addr ->
  alter_first addr f (l ++ k) = alter_first addr f l ++ k.
Proof.
  induction l as [| y l IH]; intros k Hin Hadr; [inversion Hin |].
  cbn [alter_first app].
  destruct (address y =? addr) eqn:E; [reflexivity |].
  apply elem_of_cons in Hin as [-> | Hin].
  - rewrite Hadr, Z.eqb_refl in E. discriminate.
  - rewrite IH by assumption. reflexivity.
Qed.

Lemma without_first_snoc addr bp : forall l,
  address bp = addr ->
  (forall x, x ∈ l -> address x <> addr) ->
  without_first addr (l ++ [bp]) = l.
Proof.
  induction l as [| y l IH]; intros Hadr Hno; cbn [without_first app].
  - rewrite Hadr, Z.eqb_refl. reflexivity.
  - destruct (Z.eqb_spec (address y) addr) as [Heq | _].
    + exfalso. apply (Hno y); [apply elem_of_cons; auto | assumption].
    + f_equal. apply IH; [assumption |].
      intros x Hx. apply Hno. apply elem_of_cons. auto.
Qed.

(** X5. [m68k_check_breakpoint] answers true exactly when some entry in use
    is enabled and set at the address; when it answers false the CPU is
    left as it was. *)
Theorem check_breakpoint_hits_iff (cpu : M68K_CPU) (addr : Z) :
  (fst (m68k_check_breakpoint cpu addr) = true
   <-> exists bp, bp ∈ in_use cpu /\ enabled bp = true /\ address bp = addr)
  /\ (fst (m68k_check_breakpoint cpu addr) = false
      -> snd (m68k_check_breakpoint cpu addr) = cpu).
Proof.
  unfold m68k_check_breakpoint.
  destruct (find_breakpoint (breakpoints cpu) addr 0
              (Z.to_nat (num_breakpoints cpu))) as [i |] eqn:E; cbn [fst snd].
  - split; [| discriminate]. split; [intros _ | reflexivity].
    apply find_breakpoint_some in E as (Hi & bp & Hbp & Hen & Hadr).
    exists bp. split; [| auto].
    apply list_elem_of_lookup. exists i. apply in_use_lookup. split; [lia | auto].
  - split; [| reflexivity]. split; [discriminate |].
    intros (bp & Hin & Hen & Hadr).
    apply list_elem_of_lookup in Hin as [j Hj].
    apply in_use_lookup in Hj as [Hlt Hj].
    pose proof (find_breakpoint_none _ _ _ _ E j bp ltac:(lia) Hj) as Hno.
    rewrite Hen, Hadr, Z.eqb_refl in Hno. discriminate.
Qed.


(** X6. While the doubled capacity still fits an [int], adding a breakpoint
    keeps the table well formed and appends one entry to those in use: set
    at the address, enabled, with no hits yet.  A check at that address
    then answers true. *)
Theorem add_breakpoint_appends (cpu : M68K_CPU) (addr : Z) :
  table_ok cpu -> 2 * max_breakpoints cpu < 2 ^ 31 ->
  let cpu' := m68k_add_breakpoint cpu addr in
  table_ok cpu'
  /\ (exists bp, in_use cpu' = in_use cpu ++ [bp]
        /\ address bp = addr /\ enabled bp = true /\ hit_count bp = 0)
  /\ fst (m68k_check_breakpoint cpu' addr) = true.
Proof.
  intros Hok Hdouble cpu'. subst cpu'.
  destruct (add_breakpoint_table cpu addr Hok Hdouble)
    as (Hok' & bp & Huse & Hadr & Hen & Hhit).
  split; [assumption |]. split; [eauto 10 |].
  apply (check_breakpoint_hits _ _ bp); [| assumption ..].
  rewrite Huse. apply elem_of_app. right. apply list_elem_of_singleton.
  reflexivity.
Qed.

Lemma add_breakpoint_appends_witness :
  let cpu' := m68k_add_breakpoint power_on 0x1000 in
  table_ok cpu'
  /\ (exists bp, in_use cpu' = in_use power_on ++ [bp]
        /\ address bp = 0x1000 /\ enabled bp = true /\ hit_count bp = 0)
  /\ fst (m68k_check_breakpoint cpu' 0x1000) = true.
Proof.
  exact (add_breakpoint_appends power_on 0x1000
           ltac:(repeat split; vm_compute; congruence)
           ltac:(vm_compute; reflexivity)).
Defined.

(** X7. Removing a breakpoint deletes the first entry in use at the
    address, whether enabled or not, closes the gap, and keeps the table
    well formed; when no entry is at the address nothing changes. *)
Theorem remove_breakpoint_deletes_first (cpu : M68K_CPU) (addr : Z) :
  table_ok cpu ->
  let cpu' := m68k_remove_breakpoint cpu addr in
  table_ok cpu'
  /\ in_use cpu' = without_first addr (in_use cpu)
  /\ ((forall bp, bp ∈ in_use cpu -> address bp <> addr) -> cpu' = cpu).
Proof.
  intros Hok cpu'. subst cpu'.
  destruct (remove_breakpoint_table cpu addr Hok) as [Hok' Huse].
  split; [assumption |]. split; [assumption |].
  intros Hno. unfold m68k_remove_breakpoint.
  destruct (find_address (breakpoints cpu) addr 0
              (Z.to_nat (num_breakpoints cpu))) as [i |] eqn:E;
    [| reflexivity].
  apply find_address_some in E as (Hi & (bp & Hbp & Hadr) & _).
  exfalso. apply (Hno bp); [| assumption].
  apply list_elem_of_lookup. exists i. apply in_use_lookup.
  split; [lia | assumption].
Qed.

Lemma remove_breakpoint_deletes_first_witness :
  let cpu := m68k_add_breakpoint (m68k_add_breakpoint power_on 0x1000) 0x2000 in
  let cpu' := m68k_remove_breakpoint cpu 0x1000 in
  table_ok cpu'
  /\ in_use cpu' = without_first 0x1000 (in_use cpu)
  /\ ((forall bp, bp ∈ in_use cpu -> address bp <> 0x1000) -> cpu' = cpu).
Proof.
  exact (remove_breakpoint_deletes_first
           (m68k_add_breakpoint (m68k_add_breakpoint power_on 0x1000) 0x2000)
           0x1000 ltac:(repeat split; vm_compute; congruence)).
Defined.

(** X8. Enabling or disabling a breakpoint changes the enabled flag of the
    first entry in use at the address and nothing else of the table: later
    entries at the same address keep their flag, and the entry count and
    the capacity stay. *)
Theorem enable_breakpoint_alters_first
    (cpu : M68K_CPU) (addr : Z) (value : bool) :
  let cpu' := m68k_enable_breakpoint cpu addr value in
  in_use cpu' = alter_first addr (set_enabled value) (in_use cpu)
  /\ num_breakpoints cpu' = num_breakpoints cpu
  /\ max_breakpoints cpu' = max_breakpoints cpu
  /\ length (breakpoints cpu') = length (breakpoints cpu).
Proof. apply enable_breakpoint_table. Qed.

(** X9. Adding a breakpoint at an address not yet in the table and removing
    it again restores the entries in use. *)
Theorem add_then_remove_restores (cpu : M68K_CPU) (addr : Z) :
  table_ok cpu -> 2 * max_breakpoints cpu < 2 ^ 31 ->
  (forall bp, bp ∈ in_use cpu -> address bp <> addr) ->
  in_use (m68k_remove_breakpoint (m68k_add_breakpoint cpu addr) addr)
  = in_use cpu.
Proof.
  intros Hok Hdouble Hno.
  destruct (add_breakpoint_table cpu addr Hok Hdouble)
    as (Hok' & bp & Huse & Hadr & _).
  destruct (remove_breakpoint_table _ addr Hok') as [_ ->].
  rewrite Huse. apply without_first_snoc; assumption.
Qed.

Lemma add_then_remove_restores_witness :
  in_use (m68k_remove_breakpoint
            (m68k_add_breakpoint (m68k_add_breakpoint power_on 0x1000) 0x2000)
            0x2000)
  = in_use (m68k_add_breakpoint power_on 0x1000).
Proof.
  refine (add_then_remove_restores (m68k_add_breakpoint power_on 0x1000)
            0x2000 ltac:(repeat split; vm_compute; congruence)
            ltac:(vm_compute; reflexivity) _).
  intros bp Hin. vm_compute in Hin.
  apply list_elem_of_singleton in Hin. subst bp. vm_compute. congruence.
Defined.

(** X10. A breakpoint added twice at one address outlives one removal and
    one disabling: either acts on a single entry, and the check still
    answers true at the address. *)
Theorem breakpoint_added_twice_survives (cpu : M68K_CPU) (addr : Z) :
  table_ok cpu -> 4 * max_breakpoints cpu < 2 ^ 31 ->
  let twice := m68k_add_breakpoint (m68k_add_breakpoint cpu addr) addr in
  fst (m68k_check_breakpoint (m68k_remove_breakpoint twice addr) addr) = true
  /\ fst (m68k_check_breakpoint (m68k_enable_breakpoint twice addr false)
            addr) = true.
Proof.
  intros Hok Hquad twice. subst twice.
  destruct (add_breakpoint_table cpu addr Hok ltac:(lia))
    as (Hok1 & b1 & Huse1 & Hadr1 & _).
  assert (Hmax1 : max_breakpoints (m68k_add_breakpoint cpu addr)
                  <= 2 * max_breakpoints cpu).
  { destruct Hok as (Hnum & Hmax & _). unfold m68k_add_breakpoint.
    destruct (num_breakpoints cpu >=? max_breakpoints cpu);
      cbn [max_breakpoints set_breakpoints set_max_breakpoints
           set_num_breakpoints]; [rewrite s32_small |]; lia. }
  destruct (add_breakpoint_table _ addr Hok1 ltac:(lia))
    as (Hok2 & b2 & Huse2 & Hadr2 & Hen2 & _).
  assert (Hb1 : b1 ∈ in_use cpu ++ [b1]).
  { apply elem_of_app. right. apply list_elem_of_singleton. reflexivity. }
  split; apply (check_breakpoint_hits _ _ b2); try assumption.
  - destruct (remove_breakpoint_table _ addr Hok2) as [_ ->].
    rewrite Huse2, Huse1, (without_first_app addr b1) by assumption.
    apply elem_of_app. right. apply list_elem_of_singleton. reflexivity.
  - destruct (enable_breakpoint_table
                (m68k_add_breakpoint (m68k_add_breakpoint cpu addr) addr)
                addr false) as [-> _].
    rewrite Huse2, Huse1, (alter_first_app addr _ b1) by assumption.
    apply elem_of_app. right. apply list_elem_of_singleton. reflexivity.
Qed.

Lemma breakpoint_added_twice_survives_witness :
  let twice :=
    m68k_add_breakpoint (m68k_add_breakpoint power_on 0x1000) 0x1000 in
  fst (m68k_check_breakpoint (m68k_remove_breakpoint twice 0x1000) 0x1000)
  = true
  /\ fst (m68k_check_breakpoint (m68k_enable_breakpoint twice 0x1000 false)
            0x1000) = true.
Proof.
  exact (breakpoint_added_twice_survives power_on 0x1000
           ltac:(repeat split; vm_compute; congruence)
           ltac:(vm_compute; reflexivity)).
Defined.

(** X11. Clearing the table leaves no entry in use, so that no address
    hits any more, and keeps the allocation; removing, enabling, disabling
    and checking keep the table well formed as well. *)
Theorem table_operations_keep_table
    (cpu : M68K_CPU) (addr : Z) (value : bool) :
  table_ok cpu ->
  (table_ok (m68k_clear_breakpoints cpu)
   /\ in_use (m68k_clear_breakpoints cpu) = []
   /\ m68k_check_breakpoint (m68k_clear_breakpoints cpu) addr
      = (false, m68k_clear_breakpoints cpu))
  /\ table_ok (m68k_remove_breakpoint cpu addr)
  /\ table_ok (m68k_enable_breakpoint cpu addr value)
  /\ table_ok (snd (m68k_check_breakpoint cpu addr)).
Proof.
  intros Hok. split; [| split; [| split]].
  - destruct Hok as (Hnum & Hmax & Hlen).
    split; [unfold table_ok; cbn; lia |]. split; reflexivity.
  - apply remove_breakpoint_table. assumption.
  - destruct (enable_breakpoint_table cpu addr value) as (_ & Hn & Hm & Hl).
    unfold table_ok. rewrite Hn, Hm, Hl. assumption.
  - unfold m68k_check_breakpoint.
    destruct (find_breakpoint (breakpoints cpu) addr 0
                (Z.to_nat (num_breakpoints cpu))); [| assumption].
    unfold table_ok.
    cbn [snd num_breakpoints max_breakpoints breakpoints set_breakpoints
         set_breakpoint_hit set_breakpoint_addr].
    rewrite length_alter. assumption.
Qed.

Lemma table_operations_keep_table_witness :
  let cpu := m68k_add_breakpoint power_on 0x1000 in
  (table_ok (m68k_clear_breakpoints cpu)
   /\ in_use (m68k_clear_breakpoints cpu) = []
   /\ m68k_check_breakpoint (m68k_clear_breakpoints cpu) 0x1000
      = (false, m68k_clear_breakpoints cpu))
  /\ table_ok (m68k_remove_breakpoint cpu 0x1000)
  /\ table_ok (m68k_enable_breakpoint cpu 0x1000 false)
  /\ table_ok (snd (m68k_check_breakpoint cpu 0x1000)).
Proof.
  exact (table_operations_keep_table (m68k_add_breakpoint power_on 0x1000)
           0x1000 false ltac:(repeat split; vm_compute; congruence)).
Defined.

(** ** The decoder *)

Lemma OpCode_of_to_Z (op : OpCode) : OpCode_of_Z (OpCode_to_Z op) = op.
Proof. destruct op; reflexivity. Qed.

Lemma OpCode_to_Z_inj (x y : OpCode) : OpCode_to_Z x = OpCode_to_Z y -> x = y.
Proof.
  intros H. rewrite <- (OpCode_of_to_Z x), <- (OpCode_of_to_Z y), H.
  reflexivity.
Qed.

Lemma OpCode_eqb_eq (x y : OpCode) : OpCode_eqb x y = true <-> x = y.
Proof.
  unfold OpCode_eqb. rewrite Z.eqb_eq. split; [apply OpCode_to_Z_inj |].
  intros ->. reflexivity.
Qed.

Lemma forall_from_spec (f : Z -> bool) : forall n z0,
  forall_from n z0 f = true ->
  forall z, z0 <= z < z0 + Z.of_nat n -> f z = true.
Proof.
  induction n as [| n IH]; intros z0 H z Hz; [lia |].
  cbn [forall_from] in H. apply andb_prop in H as [Hn Hrest].
  destruct (decide (z = z0)) as [-> | Hne]; [assumption |].
  apply (IH (z0 + 1)); [assumption | lia].
Qed.

Lemma decoder_stays_in_image (cpu : M68K_CPU) :
  forall_from (Z.to_nat 0x10000) 0
    (fun opc =>
       existsb (OpCode_eqb (fst (m68k_decode_instruction cpu opc)))
         decoded_tags) = true.
Proof. vm_compute. reflexivity. Qed.

Lemma decoder_reaches_image (cpu : M68K_CPU) :
  forallb
    (fun t =>
       existsb
         (fun opc =>
            (0 <=? opc) && (opc <? 0x10000)
            && OpCode_eqb (fst (m68k_decode_instruction cpu opc)) t)
         [57600; 57344; 53504; 53440; 53248; 49616; 49472; 49408;
          49152; 45320; 45312; 45248; 45056; 37120; 37056; 36864;
          33216; 33024; 32768; 28672; 28416; 28160; 27904; 27648;
          27392; 27136; 26880; 26624; 26368; 26112; 25856; 25600;
          25344; 25088; 24832; 24576; 24520; 24512; 24264; 24256;
          24008; 24000; 23752; 23744; 23496; 23488; 23240; 23232;
          22984; 22976; 22728; 22720; 22472; 22464; 22216; 22208;
          21960; 21952; 21704; 21696; 21448; 21440; 21192; 21184;
          20936; 20928; 20736; 20680; 20672; 20480; 20160; 20096;
          20032; 19136; 18944; 18560; 18512; 18504; 18496; 18432;
          18112; 17600; 16896; 16832; 16768; 16384; 4160; 4096;
          328; 320; 256; 0]) decoded_tags = true.
Proof. vm_compute. reflexivity. Qed.

(** X12. The tags the decoder can yield on a 16-bit opcode word are exactly
    those of [decoded_tags].  So no opcode word decodes to NOP, RTS, RTE,
    RTR, LINK, UNLK, RESET, STOP, TRAPV, MOVEM, NEG, NOT, MULU, DIVU, to an
    immediate form other than ORI, to a logical shift or a rotate, to BCHG,
    BCLR or BSET, or to any 68020+, FPU or Apollo tag. *)
Theorem decoder_image (cpu : M68K_CPU) (op : OpCode) :
  (exists opcode, 0 <= opcode < 0x10000
                  /\ fst (m68k_decode_instruction cpu opcode) = op)
  <-> op ∈ decoded_tags.
Proof.
  split.
  - intros (opcode & Hrange & <-).
    pose proof (forall_from_spec _ _ _ (decoder_stays_in_image cpu) opcode)
      as Hall.
    rewrite Z2Nat.id in Hall by lia. specialize (Hall Hrange). cbv beta in Hall.
    apply existsb_exists in Hall as (t & Hin & Heq).
    apply OpCode_eqb_eq in Heq. rewrite Heq.
    apply list_elem_of_In. assumption.
  - intros Hin.
    pose proof (decoder_reaches_image cpu) as Hall.
    rewrite forallb_forall in Hall.
    specialize (Hall op (proj1 (list_elem_of_In _ _) Hin)).
    apply existsb_exists in Hall as (opc & _ & Heq).
    apply andb_prop in Heq as [Hr Heq]. apply andb_prop in Hr as [Hlo Hhi].
    apply OpCode_eqb_eq in Heq. exists opc. split; [lia | assumption].
Qed.

(** ** The step *)

Lemma no_enabled_entry_no_hit cpu addr :
  (forall bp, bp ∈ in_use cpu -> enabled bp = true -> address bp <> addr) ->
  find_breakpoint (breakpoints cpu) addr 0 (Z.to_nat (num_breakpoints cpu))
  = None.
Proof.
  intros Hno.
  destruct (find_breakpoint (breakpoints cpu) addr 0
              (Z.to_nat (num_breakpoints cpu))) as [i |] eqn:E;
    [| reflexivity].
  apply find_breakpoint_some in E as (Hi & bp & Hbp & Hen & Hadr).
  exfalso. apply (Hno bp); [| assumption ..].
  apply list_elem_of_lookup. exists i. apply in_use_lookup.
  split; [lia | assumption].
Qed.

Lemma fetch_word_registers cpu memory mem_size :
  d (snd (m68k_fetch_word cpu memory mem_size)) = d cpu
  /\ a (snd (m68k_fetch_word cpu memory mem_size)) = a cpu
  /\ sr (snd (m68k_fetch_word cpu memory mem_size)) = sr cpu.
Proof.
  unfold m68k_fetch_word.
  destruct (pc cpu >=? size_t (mem_size - 1)); cbn; auto.
Qed.

Lemma testbit_top (x : Z) :
  0 <= x < 2 ^ 32 -> Z.testbit x 31 = (0x80000000 <=? x).
Proof.
  intros H. rewrite Z.testbit_eqb by lia.
  change (2 ^ 31) with 0x80000000.
  destruct (Z.leb_spec 0x80000000 x).
  - rewrite <- (Z.div_unique x 0x80000000 1 (x - 0x80000000)) by lia.
    reflexivity.
  - rewrite Z.div_small by lia. reflexivity.
Qed.

Lemma decode_moveq cpu opcode :
  Z.land (Z.shiftr opcode 12) 0xF = 7 -> Z.land opcode 0x100 = 0 ->
  fst (m68k_decode_instruction cpu opcode) = OP_MOVEQ.
Proof.
  intros H1 H2. unfold m68k_decode_instruction. rewrite H1, H2. reflexivity.
Qed.

Lemma step_reaches_decoder (E : Externals) cpu memory mem_size :
  halted cpu = false ->
  (forall bp, bp ∈ in_use cpu -> enabled bp = true -> address bp <> pc cpu) ->
  m68k_execute_cycle E cpu memory mem_size
  = let fetched := m68k_fetch_word (set_bus_active false cpu) memory mem_size in
    let op := fst (m68k_decode_instruction (snd fetched) (fst fetched)) in
    if (OpCode_to_Z OP_BRA <=? OpCode_to_Z op)
       && (OpCode_to_Z op <=? OpCode_to_Z OP_DBF) then
      Some (m68k_execute_branches (snd fetched) memory mem_size op
              (fst fetched))
    else if (OpCode_to_Z OP_LEA <=? OpCode_to_Z op)
            && (OpCode_to_Z op <=? OpCode_to_Z OP_STOP) then
      Some (m68k_execute_special (snd fetched) memory mem_size op
              (fst fetched))
    else
      m68k_execute_instruction E (snd fetched) memory mem_size op
        (fst fetched).
Proof.
  intros Hrun Hno. unfold m68k_execute_cycle. rewrite Hrun.
  unfold m68k_check_breakpoint.
  cbn [pc breakpoints num_breakpoints set_bus_active].
  rewrite (no_enabled_entry_no_hit cpu (pc cpu) Hno).
  destruct (m68k_fetch_word (set_bus_active false cpu) memory mem_size)
    as [opcode cpu1].
  cbn [fst snd].
  destruct (m68k_decode_instruction cpu1 opcode) as [op params].
  reflexivity.
Qed.

(** The general handler has a result for every tag but DIVS. *)
Lemma execute_instruction_defined (E : Externals) cpu memory mem_size op opcode :
  op <> OP_DIVS ->
  is_Some (m68k_execute_instruction E cpu memory mem_size op opcode).
Proof.
  intros Hop. unfold m68k_execute_instruction.
  destruct op; try congruence; cbv beta iota zeta;
    repeat match goal with
      | |- context [let '(_, _) := ?x in _] => destruct x
      | |- context [if ?b then _ else _] => destruct b
      end; eauto.
Qed.

(** The step has a result in every state: the dispatch never hands DIVS to
    the general handler. *)
Lemma step_is_defined (E : Externals) cpu memory mem_size :
  is_Some (m68k_execute_cycle E cpu memory mem_size).
Proof.
  unfold m68k_execute_cycle.
  destruct (halted cpu); [eauto |].
  destruct (m68k_check_breakpoint _ _) as [[] cpu1]; [eauto |].
  destruct (m68k_fetch_word _ _ _) as [opcode cpu2].
  destruct (m68k_decode_instruction _ _) as [op params].
  destruct ((OpCode_to_Z OP_BRA <=? OpCode_to_Z op)
            && (OpCode_to_Z op <=? OpCode_to_Z OP_DBF)); [eauto |].
  destruct ((OpCode_to_Z OP_LEA <=? OpCode_to_Z op)
            && (OpCode_to_Z op <=? OpCode_to_Z OP_STOP)) eqn:Hs; [eauto |].
  apply execute_instruction_defined. intros ->. discriminate Hs.
Qed.

Lemma run_is_defined (E : Externals) n cpu memory mem_size :
  is_Some (run E n cpu memory mem_size).
Proof.
  revert cpu memory. induction n as [| n IH]; intros cpu memory; [cbn; eauto |].
  cbn [run].
  destruct (step_is_defined E cpu memory mem_size) as [[cpu' memory'] ->].
  apply IH.
Qed.

(** X13. MOVEQ through the step.  On a running CPU with no enabled
    breakpoint at the PC, a fetched opcode word of line 7 with bit 8 clear
    loads the sign-extended low byte into the data register named by bits
    9-11, sets Z and N from it, counts one instruction, and leaves the
    address registers and the memory alone. *)
Theorem moveq_through_step
    (E : Externals) (cpu : M68K_CPU) (memory : list Z) (mem_size : Z) :
  halted cpu = false ->
  (forall bp, bp ∈ in_use cpu -> enabled bp = true -> address bp <> pc cpu) ->
  length (d cpu) = 8%nat ->
  let fetched := m68k_fetch_word (set_bus_active false cpu) memory mem_size in
  let opcode := fst fetched in
  Z.land (Z.shiftr opcode 12) 0xF = 7 -> Z.land opcode 0x100 = 0 ->
  let reg := Z.land (Z.shiftr opcode 9) 0x7 in
  let value := u32 (s8 (Z.land opcode 0xFF)) in
  exists cpu',
    m68k_execute_cycle E cpu memory mem_size = Some (cpu', memory)
    /\ d cpu' = upd (d cpu) reg value
    /\ idx (d cpu') reg = value
    /\ a cpu' = a cpu
    /\ pc cpu' = pc (snd fetched)
    /\ instruction_count cpu' = u64 (instruction_count cpu + 1)
    /\ m68k_get_flag cpu' SR_ZERO = (value =? 0)
    /\ m68k_get_flag cpu' SR_NEGATIVE = (0x80000000 <=? value).
Proof.
  intros Hrun Hno Hlen fetched opcode H7 H8 reg value.
  rewrite (step_reaches_decoder E cpu memory mem_size Hrun Hno).
  fold fetched. cbv zeta. fold opcode.
  rewrite (decode_moveq (snd fetched) opcode H7 H8).
  change ((OpCode_to_Z OP_BRA <=? OpCode_to_Z OP_MOVEQ)
          && (OpCode_to_Z OP_MOVEQ <=? OpCode_to_Z OP_DBF)) with false.
  change ((OpCode_to_Z OP_LEA <=? OpCode_to_Z OP_MOVEQ)
          && (OpCode_to_Z OP_MOVEQ <=? OpCode_to_Z OP_STOP)) with false.
  cbv iota.
  destruct (fetch_word_registers (set_bus_active false cpu) memory mem_size)
    as (Hd & Ha & Hsr).
  fold fetched in Hd, Ha, Hsr. cbn [d a sr set_bus_active] in Hd, Ha, Hsr.
  assert (Hic : instruction_count (snd fetched) = instruction_count cpu).
  { subst fetched. rewrite fetch_word_instruction_count. reflexivity. }
  unfold m68k_execute_instruction. cbv iota zeta. fold reg. fold value.
  eexists. split; [reflexivity |].
  assert (Hidx : idx (upd (d (snd fetched)) reg value) reg = value).
  { apply idx_upd_eq; [apply land7_range |].
    rewrite Hd. apply land7_index. assumption. }
  assert (Hv : 0 <= value < 2 ^ 32) by apply u32_range.
  cbn [d a pc instruction_count set_instruction_count set_d].
  rewrite Hidx.
  repeat split.
  - rewrite set_flags_d. cbn [d set_d]. rewrite Hd. reflexivity.
  - rewrite set_flags_d. cbn [d set_d]. assumption.
  - rewrite set_flags_only_sr. cbn [a set_sr set_d]. assumption.
  - rewrite set_flags_only_sr. reflexivity.
  - rewrite set_flags_instruction_count. cbn [instruction_count set_d].
    rewrite Hic. reflexivity.
  - change (m68k_get_flag (set_instruction_count ?x ?c) ?f)
      with (m68k_get_flag c f).
    rewrite set_flags_zero by auto. unfold truncate.
    change (2 ^ (8 * OperandSize_to_Z SIZE_LONG)) with (2 ^ 32).
    rewrite Z.mod_small by assumption. reflexivity.
  - change (m68k_get_flag (set_instruction_count ?x ?c) ?f)
      with (m68k_get_flag c f).
    rewrite set_flags_negative by auto. unfold sign_bit.
    change (8 * OperandSize_to_Z SIZE_LONG - 1) with 31.
    apply testbit_top; assumption.
Qed.

Lemma moveq_through_step_witness :
  exists cpu',
    m68k_execute_cycle idle_externals power_on (load_words [0x72FF] 16) 16
    = Some (cpu', load_words [0x72FF] 16)
    /\ idx (d cpu') 1 = 0xFFFFFFFF
    /\ m68k_get_flag cpu' SR_ZERO = false
    /\ m68k_get_flag cpu' SR_NEGATIVE = true
    /\ instruction_count cpu' = 1.
Proof.
  assert (Hno : forall bp, bp ∈ in_use power_on -> enabled bp = true ->
                address bp <> pc power_on).
  { intros bp Hin. vm_compute in Hin. inversion Hin. }
  pose proof (moveq_through_step idle_externals power_on
                (load_words [0x72FF] 16) 16 eq_refl Hno eq_refl eq_refl
                eq_refl) as H.
  cbv zeta in H. destruct H as (cpu' & H0 & _ & H1 & _ & _ & H2 & H3 & H4).
  exists cpu'. exact (conj H0 (conj H1 (conj H3 (conj H4 H2)))).
Defined.

(** X14. A halted CPU stays halted: any number of steps leaves the CPU and
    the memory exactly as they are. *)
Theorem halted_is_final
    (E : Externals) (n : nat) (cpu : M68K_CPU) (memory : list Z)
    (mem_size : Z) :
  halted cpu = true -> run E n cpu memory mem_size = Some (cpu, memory).
Proof.
  intros Hhalt. induction n as [| n IH]; [reflexivity |].
  cbn [run]. unfold m68k_execute_cycle. rewrite Hhalt. exact IH.
Qed.

Lemma halted_is_final_witness :
  run idle_externals 5 (set_halted true power_on) (load_words [0x72FF] 16) 16
  = Some (set_halted true power_on, load_words [0x72FF] 16).
Proof.
  exact (halted_is_final idle_externals 5 (set_halted true power_on)
           (load_words [0x72FF] 16) 16 eq_refl).
Defined.

(** X15. The step has no effect beyond the fetch for the arithmetic, logic,
    shift, bit-test and compare tags: it routes every tag from ADD to TST
    to the special family, which handles none of them but EXT.  Registers,
    flags and memory stay as the fetch left them. *)
Theorem step_ignores_arithmetic_tags
    (E : Externals) (cpu : M68K_CPU) (memory : list Z) (mem_size : Z) :
  halted cpu = false ->
  (forall bp, bp ∈ in_use cpu -> enabled bp = true -> address bp <> pc cpu) ->
  let fetched := m68k_fetch_word (set_bus_active false cpu) memory mem_size in
  let op := fst (m68k_decode_instruction (snd fetched) (fst fetched)) in
  OpCode_to_Z OP_ADD <= OpCode_to_Z op <= OpCode_to_Z OP_TST ->
  op <> OP_EXT ->
  exists cpu',
    m68k_execute_cycle E cpu memory mem_size = Some (cpu', memory)
    /\ cpu' = snd fetched
    /\ d cpu' = d cpu /\ a cpu' = a cpu /\ sr cpu' = sr cpu.
Proof.
  intros Hrun Hno fetched op Hrange Hext.
  rewrite (step_reaches_decoder E cpu memory mem_size Hrun Hno).
  fold fetched. cbv zeta. fold op.
  assert (Hstep :
    (if (OpCode_to_Z OP_BRA <=? OpCode_to_Z op)
        && (OpCode_to_Z op <=? OpCode_to_Z OP_DBF) then
       Some (m68k_execute_branches (snd fetched) memory mem_size op
               (fst fetched))
     else if (OpCode_to_Z OP_LEA <=? OpCode_to_Z op)
             && (OpCode_to_Z op <=? OpCode_to_Z OP_STOP) then
       Some (m68k_execute_special (snd fetched) memory mem_size op
               (fst fetched))
     else
       m68k_execute_instruction E (snd fetched) memory mem_size op
         (fst fetched)) = Some (snd fetched, memory)).
  { clearbody op. destruct op; cbn in Hrange; try lia; try congruence;
      reflexivity. }
  rewrite Hstep. exists (snd fetched).
  split; [reflexivity |]. split; [reflexivity |].
  apply (fetch_word_registers (set_bus_active false cpu) memory mem_size).
Qed.

Lemma step_ignores_arithmetic_tags_witness :
  exists cpu',
    m68k_execute_cycle idle_externals
      (set_d [5; 7; 0; 0; 0; 0; 0; 0] power_on) (load_words [0xD041] 16) 16
    = Some (cpu', load_words [0xD041] 16)
    /\ d cpu' = [5; 7; 0; 0; 0; 0; 0; 0].
Proof.
  assert (Hno : forall bp,
            bp ∈ in_use (set_d [5; 7; 0; 0; 0; 0; 0; 0] power_on) ->
            enabled bp = true ->
            address bp <> pc (set_d [5; 7; 0; 0; 0; 0; 0; 0] power_on)).
  { intros bp Hin. vm_compute in Hin. inversion Hin. }
  pose proof (step_ignores_arithmetic_tags idle_externals
                (set_d [5; 7; 0; 0; 0; 0; 0; 0] power_on)
                (load_words [0xD041] 16) 16 eq_refl Hno
                ltac:(vm_compute; split; congruence)
                ltac:(vm_compute; congruence)) as H.
  cbv zeta in H. destruct H as (cpu' & H0 & _ & H1 & _).
  exists cpu'. exact (conj H0 H1).
Defined.

(** ** Subroutine linkage and branches *)

Lemma write_memory_context cpu memory mem_size addr value size :
  let cpu' := fst (m68k_write_memory cpu memory mem_size addr value size) in
  pc cpu' = pc cpu /\ d cpu' = d cpu /\ a cpu' = a cpu /\ sr cpu' = sr cpu
  /\ halted cpu' = halted cpu.
Proof.
  unfold m68k_write_memory. destruct (addr >=? mem_size); cbn; auto.
Qed.

Lemma read_memory_context cpu memory mem_size addr size :
  let cpu' := snd (m68k_read_memory cpu memory mem_size addr size) in
  pc cpu' = pc cpu /\ d cpu' = d cpu /\ a cpu' = a cpu /\ sr cpu' = sr cpu
  /\ halted cpu' = halted cpu.
Proof.
  unfold m68k_read_memory. destruct (addr >=? mem_size); cbn; auto.
Qed.

Lemma upd_upd (arr : list Z) i x y : upd (upd arr i x) i y = upd arr i y.
Proof. apply list_insert_insert_eq. Qed.

Lemma upd_same (arr : list Z) i :
  (Z.to_nat i < length arr)%nat -> upd arr i (idx arr i) = arr.
Proof.
  intros Hi. unfold upd, idx.
  destruct (lookup_lt_is_Some_2 arr (Z.to_nat i) Hi) as [x Hx].
  rewrite Hx. apply list_insert_id. assumption.
Qed.

Lemma u8_s16 w : u8 (s16 w) = u8 w.
Proof.
  unfold u8.
  rewrite <- (Z.mod_mod_divide (s16 w) 0x10000 0x100)
    by (exists 0x100; reflexivity).
  fold (u16 (s16 w)). rewrite u16_s16. unfold u16.
  apply Z.mod_mod_divide. exists 0x100. reflexivity.
Qed.

Lemma s8_s16 w : s8 (s16 w) = s8 w.
Proof. unfold s8. rewrite u8_s16. reflexivity. Qed.

(** X16. BSR followed by RTS returns.  With the stack inside the buffer,
    BSR pushes the PC as a long below the stack pointer and branches by the
    sign-extended displacement byte; RTS on the resulting state restores the
    PC and all address registers, and leaves the memory as BSR left it. *)
Theorem bsr_then_rts_returns
    (cpu : M68K_CPU) (memory : list Z) (mem_size opcode opcode' : Z) :
  length (a cpu) = 8%nat ->
  4 <= idx (a cpu) 7 <= mem_size -> idx (a cpu) 7 < 2 ^ 32 ->
  mem_size <= Z.of_nat (length memory) -> mem_size <= 2 ^ 32 ->
  0 <= pc cpu < 2 ^ 32 ->
  s8 (Z.land opcode 0xFF) <> 0 ->
  let call := m68k_execute_branches cpu memory mem_size OP_BSR opcode in
  let ret :=
    m68k_execute_branches (fst call) (snd call) mem_size OP_RTS opcode' in
  pc (fst call) = u32 (pc cpu + s8 (Z.land opcode 0xFF))
  /\ idx (a (fst call)) 7 = idx (a cpu) 7 - 4
  /\ pc (fst ret) = pc cpu
  /\ a (fst ret) = a cpu
  /\ d (fst ret) = d cpu
  /\ snd ret = snd call.
Proof.
  intros Hlen Hsp Hsp32 Hmem Hmax Hpc Hdisp call ret.
  set (sp := idx (a cpu) 7) in *.
  assert (Hcall : call
    = let cpu1 := set_a (upd (a cpu) 7 (sp - 4)) cpu in
      let w := m68k_write_memory cpu1 memory mem_size (sp - 4) (pc cpu)
                 SIZE_LONG in
      (set_branch_taken (u64 (branch_taken (fst w) + 1))
         (set_branch_count (u64 (branch_count (fst w) + 1))
            (set_pc (u32 (pc (fst w) + s8 (Z.land opcode 0xFF))) (fst w))),
       snd w)).
  { subst call. unfold m68k_execute_branches.
    destruct (Z.eqb_spec (s8 (Z.land opcode 0xFF)) 0); [contradiction |].
    fold sp. rewrite (u32_small (sp - 4)) by lia.
    cbn [a set_a]. rewrite idx_upd_eq by (rewrite ?Hlen; lia).
    cbn [pc set_a].
    destruct (m68k_write_memory (set_a (upd (a cpu) 7 (sp - 4)) cpu) memory
                mem_size (sp - 4) (pc cpu) SIZE_LONG) as [cw mw].
    reflexivity. }
  cbv zeta in Hcall.
  set (cpu1 := set_a (upd (a cpu) 7 (sp - 4)) cpu) in *.
  set (w := m68k_write_memory cpu1 memory mem_size (sp - 4) (pc cpu)
              SIZE_LONG) in *.
  destruct (write_memory_context cpu1 memory mem_size (sp - 4) (pc cpu)
              SIZE_LONG) as (Wpc & Wd & Wa & _).
  fold w in Wpc, Wd, Wa. cbn [pc d a set_a cpu1] in Wpc, Wd, Wa.
  assert (Ha1 : a (fst call) = upd (a cpu) 7 (sp - 4))
    by (rewrite Hcall; exact Wa).
  assert (Hsp1 : idx (a (fst call)) 7 = sp - 4)
    by (rewrite Ha1; apply idx_upd_eq; [lia | rewrite Hlen; lia]).
  assert (Hread :
    fst (m68k_read_memory (fst call) (snd call) mem_size (sp - 4) SIZE_LONG)
    = pc cpu).
  { rewrite Hcall. cbn [snd]. subst w.
    rewrite read_after_write; cbn [OperandSize_to_Z]; auto; try lia.
    unfold truncate. change (2 ^ (8 * OperandSize_to_Z SIZE_LONG)) with (2 ^ 32).
    apply Z.mod_small. assumption. }
  destruct (read_memory_context (fst call) (snd call) mem_size (sp - 4)
              SIZE_LONG) as (_ & Rd & Ra & _).
  assert (Hret : ret
    = let r := m68k_read_memory (fst call) (snd call) mem_size (sp - 4)
                 SIZE_LONG in
      (set_pc (fst r)
         (set_a (upd (a (snd r)) 7 (u32 (idx (a (snd r)) 7 + 4))) (snd r)),
       snd call)).
  { subst ret. unfold m68k_execute_branches. rewrite Hsp1.
    destruct (m68k_read_memory (fst call) (snd call) mem_size (sp - 4)
                SIZE_LONG) as [x cr].
    reflexivity. }
  cbv zeta in Hret. rewrite Hret. cbn [fst snd pc a d set_pc set_a].
  rewrite Ra, Rd, Hsp1, Ha1, upd_upd.
  rewrite (u32_small (sp - 4 + 4)) by lia.
  replace (sp - 4 + 4) with sp by lia.
  repeat split.
  - rewrite Hcall. cbn [fst pc set_branch_taken set_branch_count set_pc].
    rewrite Wpc. reflexivity.
  - assumption.
  - subst sp. apply upd_same. rewrite Hlen. lia.
  - rewrite Hcall. cbn [fst d set_branch_taken set_branch_count set_pc].
    assumption.
Qed.

Lemma bsr_then_rts_returns_witness :
  let cpu := set_a [0; 0; 0; 0; 0; 0; 0; 16] (set_pc 2 power_on) in
  let call := m68k_execute_branches cpu (repeat 0 16) 16 OP_BSR 0x6104 in
  let ret :=
    m68k_execute_branches (fst call) (snd call) 16 OP_RTS 0x4E75 in
  pc (fst call) = 6
  /\ idx (a (fst call)) 7 = 12
  /\ pc (fst ret) = 2
  /\ a (fst ret) = [0; 0; 0; 0; 0; 0; 0; 16]
  /\ d (fst ret) = d power_on
  /\ snd ret = snd call.
Proof.
  exact (bsr_then_rts_returns
           (set_a [0; 0; 0; 0; 0; 0; 0; 16] (set_pc 2 power_on))
           (repeat 0 16) 16 0x6104 0x4E75 eq_refl
           ltac:(vm_compute; split; congruence) eq_refl
           ltac:(vm_compute; congruence) ltac:(vm_compute; congruence)
           ltac:(vm_compute; split; congruence)
           ltac:(vm_compute; congruence)).
Defined.

Lemma fetch_word_context cpu memory mem_size :
  let cpu' := snd (m68k_fetch_word cpu memory mem_size) in
  d cpu' = d cpu /\ a cpu' = a cpu /\ sr cpu' = sr cpu
  /\ branch_count cpu' = branch_count cpu
  /\ branch_taken cpu' = branch_taken cpu.
Proof.
  unfold m68k_fetch_word.
  destruct (pc cpu >=? size_t (mem_size - 1)); cbn; auto.
Qed.

(** X17. LINK followed by UNLK on the same address register (other than
    A7) restores every address register, whatever the frame displacement:
    LINK pushes the register and UNLK pops it from where LINK put it. *)
Theorem link_then_unlk_restores
    (cpu : M68K_CPU) (memory : list Z) (mem_size opcode opcode' : Z) :
  length (a cpu) = 8%nat ->
  Z.land opcode 0x7 <> 7 -> Z.land opcode' 0x7 = Z.land opcode 0x7 ->
  4 <= idx (a cpu) 7 <= mem_size -> idx (a cpu) 7 < 2 ^ 32 ->
  0 <= idx (a cpu) (Z.land opcode 0x7) < 2 ^ 32 ->
  mem_size <= Z.of_nat (length memory) -> mem_size <= 2 ^ 32 ->
  let link := m68k_execute_special cpu memory mem_size OP_LINK opcode in
  let unlk :=
    m68k_execute_special (fst link) (snd link) mem_size OP_UNLK opcode' in
  idx (a (fst link)) (Z.land opcode 0x7) = idx (a cpu) 7 - 4
  /\ a (fst unlk) = a cpu
  /\ d (fst unlk) = d cpu
  /\ snd unlk = snd link.
Proof.
  intros Hlen Hreg Hsame Hsp Hsp32 Hfp Hmem Hmax link unlk.
  set (reg := Z.land opcode 0x7) in *.
  set (sp := idx (a cpu) 7) in *. set (fp := idx (a cpu) reg) in *.
  pose proof (land7_range opcode) as Hr. fold reg in Hr.
  set (f := m68k_fetch_word cpu memory mem_size).
  destruct (fetch_word_context cpu memory mem_size) as (Fd & Fa & _).
  fold f in Fd, Fa.
  set (cpu1 := set_a (upd (a cpu) 7 (sp - 4)) (snd f)).
  set (w := m68k_write_memory cpu1 memory mem_size (sp - 4) fp SIZE_LONG).
  destruct (write_memory_context cpu1 memory mem_size (sp - 4) fp SIZE_LONG)
    as (_ & Wd & Wa & _).
  fold w in Wd, Wa. cbn [d a set_a cpu1] in Wd, Wa.
  assert (Hlink : link
    = (set_a (upd (upd (a (fst w)) reg (sp - 4)) 7
                (u32 (sp - 4 + s16 (fst f))))
         (fst w), snd w)).
  { subst link. unfold m68k_execute_special. fold reg. fold f.
    destruct f as [wd cf] eqn:Ef. cbn [fst snd] in *.
    rewrite Fa. fold sp. rewrite (u32_small (sp - 4)) by lia.
    cbn [a set_a]. rewrite idx_upd_eq by (rewrite ?Hlen; lia).
    rewrite idx_upd_ne by lia. fold fp.
    fold cpu1. fold w. destruct w as [cw mw] eqn:Ew. cbn [fst snd] in *.
    cbn [a set_a].
    rewrite Wa. rewrite idx_upd_eq by (rewrite ?Hlen; lia).
    rewrite idx_upd_ne by lia.
    rewrite idx_upd_eq by (rewrite ?Hlen; lia).
    reflexivity. }
  assert (Ha1 : a (fst link)
                = upd (upd (upd (a cpu) 7 (sp - 4)) reg (sp - 4)) 7
                    (u32 (sp - 4 + s16 (fst f))))
    by (rewrite Hlink; cbn [fst a set_a]; rewrite Wa; reflexivity).
  assert (Hfp1 : idx (a (fst link)) reg = sp - 4).
  { rewrite Ha1. rewrite idx_upd_ne by lia.
    apply idx_upd_eq; [lia | rewrite length_upd, Hlen; lia]. }
  set (cpu2 := set_a (upd (a (fst link)) 7 (sp - 4)) (fst link)).
  assert (Hread :
    fst (m68k_read_memory cpu2 (snd link) mem_size (sp - 4) SIZE_LONG) = fp).
  { rewrite Hlink. cbn [snd]. subst w.
    rewrite read_after_write; cbn [OperandSize_to_Z]; auto; try lia.
    unfold truncate. change (2 ^ (8 * OperandSize_to_Z SIZE_LONG)) with (2 ^ 32).
    apply Z.mod_small. assumption. }
  destruct (read_memory_context cpu2 (snd link) mem_size (sp - 4) SIZE_LONG)
    as (_ & Rd & Ra & _).
  cbn [d a set_a cpu2] in Rd, Ra.
  assert (Hunlk : unlk
    = let r := m68k_read_memory cpu2 (snd link) mem_size (sp - 4) SIZE_LONG in
      (set_a (upd (upd (a (snd r)) reg (fst r)) 7 sp) (snd r), snd link)).
  { subst unlk. unfold m68k_execute_special. rewrite Hsame. fold reg.
    rewrite Hfp1. fold cpu2.
    assert (H7 : idx (a cpu2) 7 = sp - 4).
    { cbn [a set_a cpu2]. apply idx_upd_eq; [lia |].
      rewrite Ha1, !length_upd, Hlen. lia. }
    rewrite H7.
    destruct (m68k_read_memory cpu2 (snd link) mem_size (sp - 4) SIZE_LONG)
      as [x cr] eqn:Er.
    cbn [fst snd a set_a] in *.
    rewrite idx_upd_ne by lia. rewrite Ra.
    rewrite idx_upd_eq by (rewrite ?Ha1, ?length_upd, ?Hlen; lia).
    rewrite (u32_small (sp - 4 + 4)) by lia.
    replace (sp - 4 + 4) with sp by lia. reflexivity. }
  cbv zeta in Hunlk. split; [exact Hfp1 |].
  rewrite Hunlk. cbn [fst snd a d set_a].
  rewrite Hread, Ra, Rd, Ha1.
  split; [| split; [| reflexivity]].
  - unfold upd. apply list_eq. intros i.
    assert (Hi7 : Z.to_nat 7 = 7%nat) by reflexivity.
    destruct (decide (i = 7%nat)) as [-> | Hn7].
    + rewrite <- Hi7.
      rewrite list_lookup_insert_eq by (rewrite !length_insert, Hlen; lia).
      subst sp. unfold idx.
      destruct (lookup_lt_is_Some_2 (a cpu) (Z.to_nat 7)
                  ltac:(rewrite Hlen; lia)) as [x Hx].
      rewrite Hx. reflexivity.
    + rewrite (list_lookup_insert_ne _ (Z.to_nat 7)) by lia.
      destruct (decide (i = Z.to_nat reg)) as [-> | Hnr].
      * rewrite list_lookup_insert_eq
          by (rewrite !length_insert, Hlen; lia).
        subst fp. unfold idx.
        destruct (lookup_lt_is_Some_2 (a cpu) (Z.to_nat reg)
                    ltac:(rewrite Hlen; lia)) as [x Hx].
        rewrite Hx. reflexivity.
      * rewrite !list_lookup_insert_ne by lia. reflexivity.
  - rewrite Hlink. cbn [fst d set_a]. rewrite Wd. assumption.
Qed.

Lemma link_then_unlk_restores_witness :
  let cpu := set_a [0; 0; 0; 0; 0; 0; 0x1234; 16] power_on in
  let link :=
    m68k_execute_special cpu (load_words [0xFFF8] 16) 16 OP_LINK 0x4E56 in
  let unlk :=
    m68k_execute_special (fst link) (snd link) 16 OP_UNLK 0x4E5E in
  idx (a (fst link)) 6 = 12
  /\ a (fst unlk) = [0; 0; 0; 0; 0; 0; 0x1234; 16]
  /\ d (fst unlk) = d power_on
  /\ snd unlk = snd link.
Proof.
  exact (link_then_unlk_restores
           (set_a [0; 0; 0; 0; 0; 0; 0x1234; 16] power_on)
           (load_words [0xFFF8] 16) 16 0x4E56 0x4E5E eq_refl
           ltac:(vm_compute; congruence) eq_refl
           ltac:(vm_compute; split; congruence) eq_refl
           ltac:(vm_compute; split; congruence)
           ltac:(vm_compute; congruence) ltac:(vm_compute; congruence)).
Defined.

Lemma fetch_word_branch_count cpu memory mem_size x :
  m68k_fetch_word (set_branch_count x cpu) memory mem_size
  = (fst (m68k_fetch_word cpu memory mem_size),
     set_branch_count x (snd (m68k_fetch_word cpu memory mem_size))).
Proof.
  unfold m68k_fetch_word. cbn [pc set_branch_count].
  destruct (pc cpu >=? size_t (mem_size - 1)); reflexivity.
Qed.

(** X18. A conditional branch is decided by the condition field of the
    opcode word (bits 8-11), whichever of the fourteen tags it carries.
    Not taken, it changes only the branch counter, and so does not step
    over the extension word of a word displacement.  Taken, it adds to the
    PC the sign-extended displacement byte or, when that byte is zero, the
    sign-extended low byte of the fetched extension word. *)
Theorem conditional_branch_follows_opcode
    (cpu : M68K_CPU) (memory : list Z) (mem_size : Z) (op : OpCode)
    (opcode : Z) :
  op ∈ conditional_branch_tags ->
  let taken := m68k_test_condition cpu (Z.land (Z.shiftr opcode 8) 0xF) in
  let disp := s8 (Z.land opcode 0xFF) in
  let fetched := m68k_fetch_word cpu memory mem_size in
  let r := m68k_execute_branches cpu memory mem_size op opcode in
  snd r = memory
  /\ d (fst r) = d cpu /\ a (fst r) = a cpu /\ sr (fst r) = sr cpu
  /\ branch_count (fst r) = u64 (branch_count cpu + 1)
  /\ branch_taken (fst r)
     = (if taken then u64 (branch_taken cpu + 1) else branch_taken cpu)
  /\ pc (fst r)
     = (if taken then
          if disp =? 0 then u32 (pc (snd fetched) + s8 (fst fetched))
          else u32 (pc cpu + disp)
        else pc cpu).
Proof.
  intros Hop taken disp fetched r.
  assert (Hr : r
    = let cpu0 := set_branch_count (u64 (branch_count cpu + 1)) cpu in
      if taken then
        if disp =? 0 then
          (set_branch_taken (u64 (branch_taken cpu + 1))
             (set_pc (u32 (pc (snd fetched) + s8 (fst fetched)))
                (set_branch_count (u64 (branch_count cpu + 1))
                   (snd fetched))), memory)
        else
          (set_branch_taken (u64 (branch_taken cpu + 1))
             (set_pc (u32 (pc cpu + disp)) cpu0), memory)
      else (cpu0, memory)).
  { assert (Hbody :
      (let condition := Z.land (Z.shiftr opcode 8) 0xF in
       let cpu := set_branch_count (u64 (branch_count cpu + 1)) cpu in
       if m68k_test_condition cpu condition then
         let '(displacement, cpu) :=
           if disp =? 0 then
             let '(w, cpu) := m68k_fetch_word cpu memory mem_size in
             (s8 (s16 w), cpu)
           else (disp, cpu) in
         let cpu := set_pc (u32 (pc cpu + displacement)) cpu in
         let cpu := set_branch_taken (u64 (branch_taken cpu + 1)) cpu in
         (cpu, memory)
       else (cpu, memory))
      = let cpu0 := set_branch_count (u64 (branch_count cpu + 1)) cpu in
        if taken then
          if disp =? 0 then
            (set_branch_taken (u64 (branch_taken cpu + 1))
               (set_pc (u32 (pc (snd fetched) + s8 (fst fetched)))
                  (set_branch_count (u64 (branch_count cpu + 1))
                     (snd fetched))), memory)
          else
            (set_branch_taken (u64 (branch_taken cpu + 1))
               (set_pc (u32 (pc cpu + disp)) cpu0), memory)
        else (cpu0, memory)).
    { cbv zeta.
      change (m68k_test_condition
                (set_branch_count (u64 (branch_count cpu + 1)) cpu)
                (Z.land (Z.shiftr opcode 8) 0xF)) with taken.
      destruct taken; [| reflexivity].
      destruct (disp =? 0); [| reflexivity].
      rewrite fetch_word_branch_count. fold fetched.
      destruct (fetch_word_context cpu memory mem_size)
        as (_ & _ & _ & _ & Hbt).
      fold fetched in Hbt.
      cbn [pc branch_taken set_branch_count set_pc].
      rewrite s8_s16, Hbt. reflexivity. }
    subst r. unfold conditional_branch_tags in Hop.
    repeat (apply elem_of_cons in Hop as [-> | Hop]);
      [exact Hbody .. | inversion Hop]. }
  cbv zeta in Hr. rewrite Hr.
  destruct (fetch_word_context cpu memory mem_size)
    as (Hd & Ha & Hsr & _ & _).
  fold fetched in Hd, Ha, Hsr.
  destruct taken; [destruct (disp =? 0) |]; cbn; auto 10.
Qed.

Lemma conditional_branch_follows_opcode_witness :
  pc (fst (m68k_execute_branches power_on (repeat 0 16) 16 OP_BEQ 0x6604)) = 4
  /\ branch_taken
       (fst (m68k_execute_branches power_on (repeat 0 16) 16 OP_BEQ 0x6604))
     = 1.
Proof.
  pose proof (conditional_branch_follows_opcode power_on (repeat 0 16) 16
                OP_BEQ 0x6604 ltac:(constructor)) as H.
  cbv zeta in H. destruct H as (_ & _ & _ & _ & _ & Ht & Hpc).
  exact (conj Hpc Ht).
Defined.

Lemma keep_high_bits (k x : Z) :
  0 <= k <= 32 -> 0 <= x < 2 ^ 32 ->
  Z.land x (Z.shiftl (Z.ones (32 - k)) k) = x - x mod 2 ^ k.
Proof.
  intros Hk Hx.
  assert (Hsplit : x - x mod 2 ^ k = Z.shiftl (Z.shiftr x k) k).
  { rewrite Z.shiftl_mul_pow2, Z.shiftr_div_pow2 by lia.
    pose proof (Z.div_mod x (2 ^ k) ltac:(lia)). lia. }
  rewrite Hsplit. apply Z.bits_inj'. intros n Hn.
  rewrite Z.land_spec.
  destruct (Z.ltb_spec n k).
  - rewrite !Z.shiftl_spec_low by lia. apply andb_false_r.
  - rewrite !Z.shiftl_spec, Z.shiftr_spec by lia.
    replace (n - k + k) with n by lia.
    destruct (Z.ltb_spec n 32).
    + rewrite Z.ones_spec_low by lia. apply andb_true_r.
    + rewrite Z.ones_spec_high by lia. rewrite andb_false_r.
      symmetry. apply Z.bits_above_log2; [lia |].
      destruct (Z.eq_dec x 0) as [-> | Hne]; [cbn; lia |].
      apply Z.log2_lt_pow2; [lia |].
      apply Z.lt_le_trans with (2 ^ 32); [lia |].
      apply Z.pow_le_mono_r; lia.
Qed.

Lemma replace_low_bits (k x v : Z) :
  0 <= k <= 32 -> 0 <= x < 2 ^ 32 -> 0 <= v < 2 ^ k ->
  Z.lor (Z.land x (Z.shiftl (Z.ones (32 - k)) k)) v = x - x mod 2 ^ k + v.
Proof.
  intros Hk Hx Hv. rewrite keep_high_bits by assumption.
  rewrite <- Z.add_nocarry_lor; [reflexivity |].
  replace (x - x mod 2 ^ k) with (Z.shiftl (Z.shiftr x k) k).
  - apply Z.bits_inj'. intros n Hn. rewrite Z.land_spec, Z.bits_0.
    destruct (Z.ltb_spec n k).
    + now rewrite Z.shiftl_spec_low by lia.
    + destruct (Z.eq_dec v 0) as [-> | Hne];
        [now rewrite Z.bits_0, andb_false_r |].
      rewrite (Z.bits_above_log2 v n), andb_false_r; [reflexivity | lia |].
      apply Z.log2_lt_pow2; [lia |].
      apply Z.lt_le_trans with (2 ^ k); [lia |].
      apply Z.pow_le_mono_r; lia.
  - rewrite Z.shiftl_mul_pow2, Z.shiftr_div_pow2 by lia.
    pose proof (Z.div_mod x (2 ^ k) ltac:(lia)). lia.
Qed.

(** X19. DBcc.  When the condition field of the opcode word holds, only the
    displacement word is fetched.  Otherwise the low word of the data
    register is decremented modulo 2^16 with its high word kept, and the
    branch by the fetched 16-bit displacement is taken unless the counter
    was 0 (and is now 0xFFFF); the other data registers stay. *)
Theorem decrement_and_branch_counts
    (cpu : M68K_CPU) (memory : list Z) (mem_size : Z) (op : OpCode)
    (opcode : Z) :
  op ∈ decrement_branch_tags ->
  length (d cpu) = 8%nat ->
  0 <= idx (d cpu) (Z.land opcode 0x7) < 2 ^ 32 ->
  let reg := Z.land opcode 0x7 in
  let taken := m68k_test_condition cpu (Z.land (Z.shiftr opcode 8) 0xF) in
  let fetched := m68k_fetch_word cpu memory mem_size in
  let x := idx (d cpu) reg in
  let r := m68k_execute_branches cpu memory mem_size op opcode in
  snd r = memory
  /\ a (fst r) = a cpu /\ sr (fst r) = sr cpu
  /\ (taken = true -> fst r = snd fetched)
  /\ (taken = false ->
      idx (d (fst r)) reg
      = x - x mod 0x10000 + (x mod 0x10000 - 1) mod 0x10000
      /\ (forall j, 0 <= j -> j <> reg -> idx (d (fst r)) j = idx (d cpu) j)
      /\ pc (fst r)
         = (if x mod 0x10000 =? 0 then pc (snd fetched)
            else u32 (pc (snd fetched) + s16 (fst fetched)))).
Proof.
  intros Hop Hlen Hx reg taken fetched x r.
  pose proof (land7_range opcode) as Hreg. fold reg in Hreg, Hx. fold x in Hx.
  destruct (fetch_word_context cpu memory mem_size)
    as (Hd & Ha & Hsr & _ & _).
  fold fetched in Hd, Ha, Hsr.
  set (counter := u16 (Z.land x 0xFFFF - 1)).
  assert (Hr : r
    = if negb taken then
        let cpu1 :=
          set_d (upd (d cpu) reg (Z.lor (Z.land x 0xFFFF0000) counter))
            (snd fetched) in
        if negb (counter =? 0xFFFF) then
          (set_pc (u32 (pc (snd fetched) + s16 (fst fetched))) cpu1, memory)
        else (cpu1, memory)
      else (snd fetched, memory)).
  { assert (Hbody :
      (let condition := Z.land (Z.shiftr opcode 8) 0xF in
       let '(w, cpu) := m68k_fetch_word cpu memory mem_size in
       let displacement := s16 w in
       if negb (m68k_test_condition cpu condition) then
         let counter := Z.land (idx (d cpu) reg) 0xFFFF in
         let counter := u16 (counter - 1) in
         let cpu :=
           set_d (upd (d cpu) reg
                    (Z.lor (Z.land (idx (d cpu) reg) 0xFFFF0000) counter))
                 cpu in
         if negb (counter =? 0xFFFF) then
           (set_pc (u32 (pc cpu + displacement)) cpu, memory)
         else (cpu, memory)
       else (cpu, memory))
      = if negb taken then
          let cpu1 :=
            set_d (upd (d cpu) reg (Z.lor (Z.land x 0xFFFF0000) counter))
              (snd fetched) in
          if negb (counter =? 0xFFFF) then
            (set_pc (u32 (pc (snd fetched) + s16 (fst fetched))) cpu1, memory)
          else (cpu1, memory)
        else (snd fetched, memory)).
    { cbv zeta. fold fetched.
      assert (Ht : m68k_test_condition (snd fetched)
                     (Z.land (Z.shiftr opcode 8) 0xF) = taken).
      { unfold taken, m68k_test_condition, m68k_get_flag. rewrite Hsr.
        reflexivity. }
      destruct fetched as [w cf] eqn:Ef. cbn [fst snd] in *.
      rewrite Ht, Hd. reflexivity. }
    subst r. unfold decrement_branch_tags in Hop.
    repeat (apply elem_of_cons in Hop as [-> | Hop]);
      [exact Hbody .. | inversion Hop]. }
  assert (Hlow : Z.land x 0xFFFF = x mod 0x10000).
  { change 0xFFFF with (Z.ones 16). rewrite Z.land_ones by lia. reflexivity. }
  assert (Hc : counter = (x mod 0x10000 - 1) mod 0x10000).
  { unfold counter, u16. rewrite Hlow. reflexivity. }
  assert (Hcr : 0 <= counter < 2 ^ 16).
  { rewrite Hc. apply Z.mod_pos_bound. lia. }
  assert (Hval : Z.lor (Z.land x 0xFFFF0000) counter
                 = x - x mod 0x10000 + (x mod 0x10000 - 1) mod 0x10000).
  { change 0xFFFF0000 with (Z.shiftl (Z.ones (32 - 16)) 16).
    rewrite replace_low_bits by lia. rewrite Hc. reflexivity. }
  assert (Hwrap : (counter =? 0xFFFF) = (x mod 0x10000 =? 0)).
  { rewrite Hc. pose proof (Z.mod_pos_bound x 0x10000 ltac:(lia)).
    destruct (Z.eqb_spec (x mod 0x10000) 0) as [-> | Hne].
    - reflexivity.
    - rewrite Z.mod_small by lia. apply Z.eqb_neq. lia. }
  rewrite Hr, Hval, Hwrap.
  destruct taken; cbn [negb].
  - cbn [fst snd]. split; [reflexivity |]. split; [assumption |].
    split; [assumption |]. split; [reflexivity | discriminate].
  - cbv zeta.
    destruct (x mod 0x10000 =? 0); cbn [negb fst snd a sr d pc set_pc set_d];
      (split; [reflexivity |]; split; [assumption |]; split; [assumption |];
       split; [discriminate |]; intros _;
       split; [apply idx_upd_eq; [lia | rewrite Hlen; lia] |];
       split; [| reflexivity];
       intros j Hj Hne; apply idx_upd_ne; lia).
Qed.

Lemma decrement_and_branch_counts_witness :
  let cpu := set_d [0x10003; 0; 0; 0; 0; 0; 0; 0] power_on in
  let r :=
    m68k_execute_branches cpu (load_words [0x0006] 16) 16 OP_DBF 0x51C8 in
  idx (d (fst r)) 0 = 0x10002 /\ pc (fst r) = 8.
Proof.
  pose proof (decrement_and_branch_counts
                (set_d [0x10003; 0; 0; 0; 0; 0; 0; 0] power_on)
                (load_words [0x0006] 16) 16 OP_DBF 0x51C8
                ltac:(unfold decrement_branch_tags; do 15 right; left)
                eq_refl ltac:(vm_compute; split; congruence)) as H.
  cbv zeta in H. destruct H as (_ & _ & _ & _ & H).
  destruct (H eq_refl) as (Hd & _ & Hpc).
  exact (conj Hd Hpc).
Defined.

(** X20. Scc writes 0xFF or 0x00 into the low byte of the data register,
    according to the condition field of the opcode word, and keeps the
    upper 24 bits; nothing else changes. *)
Theorem set_on_condition_writes_low_byte
    (cpu : M68K_CPU) (memory : list Z) (mem_size : Z) (op : OpCode)
    (opcode : Z) :
  op ∈ set_on_condition_tags ->
  length (d cpu) = 8%nat ->
  0 <= idx (d cpu) (Z.land opcode 0x7) < 2 ^ 32 ->
  let reg := Z.land opcode 0x7 in
  let taken := m68k_test_condition cpu (Z.land (Z.shiftr opcode 8) 0xF) in
  let x := idx (d cpu) reg in
  let r := m68k_execute_branches cpu memory mem_size op opcode in
  snd r = memory
  /\ idx (d (fst r)) reg = x - x mod 0x100 + (if taken then 0xFF else 0)
  /\ (forall j, 0 <= j -> j <> reg -> idx (d (fst r)) j = idx (d cpu) j)
  /\ a (fst r) = a cpu /\ sr (fst r) = sr cpu /\ pc (fst r) = pc cpu.
Proof.
  intros Hop Hlen Hx reg taken x r.
  pose proof (land7_range opcode) as Hreg. fold reg in Hreg, Hx. fold x in Hx.
  assert (Hr : r
    = (set_d (upd (d cpu) reg
                (x - x mod 0x100 + (if taken then 0xFF else 0))) cpu,
       memory)).
  { assert (Hbody :
      (let condition := Z.land (Z.shiftr opcode 8) 0xF in
       let reg := Z.land opcode 0x7 in
       if m68k_test_condition cpu condition then
         (set_d (upd (d cpu) reg
                   (Z.lor (Z.land (idx (d cpu) reg) 0xFFFFFF00) 0xFF)) cpu,
          memory)
       else
         (set_d (upd (d cpu) reg (Z.land (idx (d cpu) reg) 0xFFFFFF00)) cpu,
          memory))
      = (set_d (upd (d cpu) reg
                  (x - x mod 0x100 + (if taken then 0xFF else 0))) cpu,
         memory)).
    { cbv zeta. fold reg. fold x. fold taken.
      change 0xFFFFFF00 with (Z.shiftl (Z.ones (32 - 8)) 8).
      destruct taken.
      - rewrite replace_low_bits by lia. reflexivity.
      - rewrite keep_high_bits by lia. rewrite Z.add_0_r. reflexivity. }
    subst r. unfold set_on_condition_tags in Hop.
    repeat (apply elem_of_cons in Hop as [-> | Hop]);
      [exact Hbody .. | inversion Hop]. }
  rewrite Hr. cbn [fst snd d a sr pc set_d].
  split; [reflexivity |].
  split; [apply idx_upd_eq; [lia | rewrite Hlen; lia] |].
  split; [intros j Hj Hne; apply idx_upd_ne; lia |].
  auto.
Qed.

Lemma set_on_condition_writes_low_byte_witness :
  let cpu := set_d [0x12345678; 0; 0; 0; 0; 0; 0; 0] power_on in
  idx (d (fst (m68k_execute_branches cpu (repeat 0 16) 16 OP_SF 0x50C0))) 0
  = 0x123456FF.
Proof.
  pose proof (set_on_condition_writes_low_byte
                (set_d [0x12345678; 0; 0; 0; 0; 0; 0; 0] power_on)
                (repeat 0 16) 16 OP_SF 0x50C0
                ltac:(unfold set_on_condition_tags; do 15 right; left)
                eq_refl ltac:(vm_compute; split; congruence)) as H.
  cbv zeta in H. destruct H as (_ & H & _). exact H.
Defined.

(** ** Packed decimal arithmetic *)

Lemma abcd_all_bytes :
  forall_from 10 0 (fun sh => forall_from 10 0 (fun sl =>
    forall_from 10 0 (fun th => forall_from 10 0 (fun tl =>
      abcd_byte_ok (16 * sh + sl) (16 * th + tl) 0
      && abcd_byte_ok (16 * sh + sl) (16 * th + tl) 1)))) = true.
Proof. vm_compute. reflexivity. Qed.

Lemma sbcd_all_bytes :
  forall_from 10 0 (fun sh => forall_from 10 0 (fun sl =>
    forall_from 10 0 (fun th => forall_from 10 0 (fun tl =>
      sbcd_byte_ok (16 * sh + sl) (16 * th + tl) 0
      && sbcd_byte_ok (16 * sh + sl) (16 * th + tl) 1)))) = true.
Proof. vm_compute. reflexivity. Qed.

Lemma bcd_digits b :
  0 <= b < 0x100 -> bcd_valid b = true ->
  0 <= b / 16 <= 9 /\ 0 <= b mod 16 <= 9 /\ b = 16 * (b / 16) + b mod 16.
Proof.
  intros Hb Hv. unfold bcd_valid in Hv. apply andb_prop in Hv as [H1 H2].
  apply Z.leb_le in H1, H2.
  pose proof (Z.div_pos b 16 ltac:(lia) ltac:(lia)).
  pose proof (Z.mod_pos_bound b 16 ltac:(lia)).
  pose proof (Z.div_mod b 16 ltac:(lia)). lia.
Qed.

Lemma abcd_byte_correct s t x :
  0 <= s < 0x100 -> 0 <= t < 0x100 -> x = 0 \/ x = 1 ->
  bcd_valid s = true -> bcd_valid t = true -> abcd_byte_ok s t x = true.
Proof.
  intros Hs Ht Hx Vs Vt.
  destruct (bcd_digits s Hs Vs) as (Hsh & Hsl & Es).
  destruct (bcd_digits t Ht Vt) as (Hth & Htl & Et).
  pose proof (forall_from_spec _ _ _ abcd_all_bytes (s / 16) ltac:(lia)) as H1.
  cbv beta in H1.
  pose proof (forall_from_spec _ _ _ H1 (s mod 16) ltac:(lia)) as H2.
  cbv beta in H2.
  pose proof (forall_from_spec _ _ _ H2 (t / 16) ltac:(lia)) as H3.
  cbv beta in H3.
  pose proof (forall_from_spec _ _ _ H3 (t mod 16) ltac:(lia)) as H4.
  cbv beta in H4. rewrite <- Es, <- Et in H4.
  apply andb_prop in H4 as [H0 H1']. destruct Hx as [-> | ->]; assumption.
Qed.

Lemma sbcd_byte_correct s t x :
  0 <= s < 0x100 -> 0 <= t < 0x100 -> x = 0 \/ x = 1 ->
  bcd_valid s = true -> bcd_valid t = true -> sbcd_byte_ok s t x = true.
Proof.
  intros Hs Ht Hx Vs Vt.
  destruct (bcd_digits s Hs Vs) as (Hsh & Hsl & Es).
  destruct (bcd_digits t Ht Vt) as (Hth & Htl & Et).
  pose proof (forall_from_spec _ _ _ sbcd_all_bytes (s / 16) ltac:(lia)) as H1.
  cbv beta in H1.
  pose proof (forall_from_spec _ _ _ H1 (s mod 16) ltac:(lia)) as H2.
  cbv beta in H2.
  pose proof (forall_from_spec _ _ _ H2 (t / 16) ltac:(lia)) as H3.
  cbv beta in H3.
  pose proof (forall_from_spec _ _ _ H3 (t mod 16) ltac:(lia)) as H4.
  cbv beta in H4. rewrite <- Es, <- Et in H4.
  apply andb_prop in H4 as [H0 H1']. destruct Hx as [-> | ->]; assumption.
Qed.

Lemma execute_abcd_digits cpu opcode :
  m68k_execute_bcd cpu OP_ABCD opcode
  = let reg_dst := Z.land (Z.shiftr opcode 9) 0x7 in
    let rc :=
      abcd_byte (Z.land (idx (d cpu) (Z.land opcode 0x7)) 0xFF)
        (Z.land (idx (d cpu) reg_dst) 0xFF)
        (if m68k_get_flag cpu SR_EXTEND then 1 else 0) in
    let cpu1 :=
      set_d (upd (d cpu) reg_dst
               (Z.lor (Z.land (idx (d cpu) reg_dst) 0xFFFFFF00) (fst rc)))
        cpu in
    let cpu2 := m68k_set_flag cpu1 SR_CARRY (negb (snd rc =? 0)) in
    let cpu3 := m68k_set_flag cpu2 SR_EXTEND (negb (snd rc =? 0)) in
    if negb (fst rc =? 0) then m68k_set_flag cpu3 SR_ZERO false else cpu3.
Proof.
  unfold m68k_execute_bcd, abcd_byte. cbv zeta.
  match goal with |- context [if ?b >? 9 then _ else _] =>
    destruct (b >? 9) end; cbv beta iota;
  match goal with |- context [if ?b >? 9 then _ else _] =>
    destruct (b >? 9) end; reflexivity.
Qed.

Lemma execute_sbcd_digits cpu opcode :
  m68k_execute_bcd cpu OP_SBCD opcode
  = let reg_dst := Z.land (Z.shiftr opcode 9) 0x7 in
    let rc :=
      sbcd_byte (Z.land (idx (d cpu) (Z.land opcode 0x7)) 0xFF)
        (Z.land (idx (d cpu) reg_dst) 0xFF)
        (if m68k_get_flag cpu SR_EXTEND then 1 else 0) in
    let cpu1 :=
      set_d (upd (d cpu) reg_dst
               (Z.lor (Z.land (idx (d cpu) reg_dst) 0xFFFFFF00) (fst rc)))
        cpu in
    let cpu2 := m68k_set_flag cpu1 SR_CARRY (negb (snd rc =? 0)) in
    let cpu3 := m68k_set_flag cpu2 SR_EXTEND (negb (snd rc =? 0)) in
    if negb (fst rc =? 0) then m68k_set_flag cpu3 SR_ZERO false else cpu3.
Proof.
  unfold m68k_execute_bcd, sbcd_byte. cbv zeta.
  match goal with |- context [if ?b <? 0 then _ else _] =>
    destruct (b <? 0) end; cbv beta iota;
  match goal with |- context [if ?b <? 0 then _ else _] =>
    destruct (b <? 0) end; reflexivity.
Qed.

Lemma low_byte (x : Z) : Z.land x 0xFF = x mod 0x100.
Proof. change 0xFF with (Z.ones 8). apply Z.land_ones. lia. Qed.

(** What the three flag stores at the end of a BCD handler leave in the
    carry and extend flags and in the data registers. *)
Lemma bcd_flag_stores cpu1 (c z : bool) :
  let cpu2 := m68k_set_flag cpu1 SR_CARRY c in
  let cpu3 := m68k_set_flag cpu2 SR_EXTEND c in
  let cpu4 := if z then m68k_set_flag cpu3 SR_ZERO false else cpu3 in
  d cpu4 = d cpu1
  /\ m68k_get_flag cpu4 SR_CARRY = c /\ m68k_get_flag cpu4 SR_EXTEND = c.
Proof.
  cbv zeta. change SR_CARRY with (2 ^ 0). change SR_EXTEND with (2 ^ 4).
  change SR_ZERO with (2 ^ 2).
  destruct z.
  - split; [rewrite !set_flag_d; reflexivity |]. split.
    + rewrite (get_set_flag_ne _ 2 0), (get_set_flag_ne _ 4 0) by lia.
      apply get_set_flag_eq. lia.
    + rewrite (get_set_flag_ne _ 2 4) by lia. apply get_set_flag_eq. lia.
  - split; [rewrite !set_flag_d; reflexivity |]. split.
    + rewrite (get_set_flag_ne _ 4 0) by lia. apply get_set_flag_eq. lia.
    + apply get_set_flag_eq. lia.
Qed.

Lemma byte_into_register (old r : Z) :
  0 <= old < 2 ^ 32 -> 0 <= r < 0x100 ->
  let new := Z.lor (Z.land old 0xFFFFFF00) r in
  new mod 0x100 = r /\ new / 0x100 = old / 0x100.
Proof.
  intros Ho Hr new. subst new.
  change 0xFFFFFF00 with (Z.shiftl (Z.ones (32 - 8)) 8).
  rewrite replace_low_bits by lia. change (2 ^ 8) with 0x100.
  pose proof (Z.div_mod old 0x100 ltac:(lia)) as Hdm.
  pose proof (Z.mod_pos_bound old 0x100 ltac:(lia)).
  replace (old - old mod 0x100 + r) with (r + (old / 0x100) * 0x100) by lia.
  split.
  - rewrite Z.mod_add by lia. apply Z.mod_small. lia.
  - rewrite Z.div_add by lia. rewrite Z.div_small by lia. lia.
Qed.

(** X21. ABCD adds decimally.  When the low bytes of the two data registers
    hold valid packed decimal digits, the low byte of the destination
    becomes the valid packed decimal of (source + destination + X) modulo
    100, the carry and extend flags tell whether that sum reached 100, and
    the upper 24 bits of the destination are kept. *)
Theorem abcd_adds_decimally (cpu : M68K_CPU) (opcode : Z) :
  let reg_src := Z.land opcode 0x7 in
  let reg_dst := Z.land (Z.shiftr opcode 9) 0x7 in
  let s := idx (d cpu) reg_src mod 0x100 in
  let t := idx (d cpu) reg_dst mod 0x100 in
  let x := if m68k_get_flag cpu SR_EXTEND then 1 else 0 in
  length (d cpu) = 8%nat ->
  0 <= idx (d cpu) reg_dst < 2 ^ 32 ->
  bcd_valid s = true -> bcd_valid t = true ->
  let cpu' := m68k_execute_bcd cpu OP_ABCD opcode in
  let res := idx (d cpu') reg_dst in
  bcd_valid (res mod 0x100) = true
  /\ bcd_value (res mod 0x100) = (bcd_value s + bcd_value t + x) mod 100
  /\ res / 0x100 = idx (d cpu) reg_dst / 0x100
  /\ m68k_get_flag cpu' SR_CARRY = (100 <=? bcd_value s + bcd_value t + x)
  /\ m68k_get_flag cpu' SR_EXTEND = (100 <=? bcd_value s + bcd_value t + x).
Proof.
  intros reg_src reg_dst s t x Hlen Hold Vs Vt cpu' res.
  assert (Hok : abcd_byte_ok s t x = true).
  { apply abcd_byte_correct; try assumption;
      try (apply Z.mod_pos_bound; lia).
    subst x. destruct (m68k_get_flag cpu SR_EXTEND); auto. }
  unfold abcd_byte_ok in Hok.
  subst res cpu'. rewrite execute_abcd_digits. cbv zeta.
  fold reg_src reg_dst. rewrite !low_byte. fold s t x.
  destruct (abcd_byte s t x) as [r c] eqn:Er. cbn [fst snd].
  repeat (apply andb_prop in Hok as [Hok ?]).
  match goal with H : Bool.eqb _ _ = true |- _ =>
    apply Bool.eqb_prop in H; rename H into Hc end.
  match goal with H : (bcd_value r =? _) = true |- _ =>
    apply Z.eqb_eq in H; rename H into Hv end.
  assert (Hr : 0 <= r < 0x100) by lia.
  pose proof (land7_range (Z.shiftr opcode 9)) as Hreg. fold reg_dst in Hreg.
  destruct (bcd_flag_stores
              (set_d (upd (d cpu) reg_dst
                        (Z.lor (Z.land (idx (d cpu) reg_dst) 0xFFFFFF00) r))
                 cpu) (negb (c =? 0)) (negb (r =? 0))) as (Hd & HC & HX).
  cbv zeta in Hd, HC, HX.
  destruct (byte_into_register (idx (d cpu) reg_dst) r Hold Hr) as [Hm Hq].
  cbv zeta in Hm, Hq.
  rewrite Hd. cbn [d set_d].
  rewrite idx_upd_eq by (rewrite ?Hlen; lia).
  rewrite Hm, Hq, HC, HX, Hc. auto.
Qed.

Lemma abcd_adds_decimally_witness :
  let cpu := set_d [0x58; 0x12345667; 0; 0; 0; 0; 0; 0] power_on in
  let cpu' := m68k_execute_bcd cpu OP_ABCD 0xC300 in
  bcd_value (idx (d cpu') 1 mod 0x100) = 25
  /\ idx (d cpu') 1 / 0x100 = 0x123456
  /\ m68k_get_flag cpu' SR_CARRY = true.
Proof.
  pose proof (abcd_adds_decimally
                (set_d [0x58; 0x12345667; 0; 0; 0; 0; 0; 0] power_on) 0xC300
                eq_refl ltac:(vm_compute; split; congruence) eq_refl eq_refl)
    as H.
  cbv zeta in H. destruct H as (_ & Hv & Hq & Hc & _).
  exact (conj Hv (conj Hq Hc)).
Defined.

(** X22. SBCD subtracts decimally.  On valid packed decimal low bytes the
    low byte of the destination becomes the valid packed decimal of
    (destination - source - X) modulo 100, the carry and extend flags tell
    whether a borrow occurred, and the upper 24 bits of the destination are
    kept. *)
Theorem sbcd_subtracts_decimally (cpu : M68K_CPU) (opcode : Z) :
  let reg_src := Z.land opcode 0x7 in
  let reg_dst := Z.land (Z.shiftr opcode 9) 0x7 in
  let s := idx (d cpu) reg_src mod 0x100 in
  let t := idx (d cpu) reg_dst mod 0x100 in
  let x := if m68k_get_flag cpu SR_EXTEND then 1 else 0 in
  length (d cpu) = 8%nat ->
  0 <= idx (d cpu) reg_dst < 2 ^ 32 ->
  bcd_valid s = true -> bcd_valid t = true ->
  let cpu' := m68k_execute_bcd cpu OP_SBCD opcode in
  let res := idx (d cpu') reg_dst in
  bcd_valid (res mod 0x100) = true
  /\ bcd_value (res mod 0x100) = (bcd_value t - bcd_value s - x) mod 100
  /\ res / 0x100 = idx (d cpu) reg_dst / 0x100
  /\ m68k_get_flag cpu' SR_CARRY = (bcd_value t - bcd_value s - x <? 0)
  /\ m68k_get_flag cpu' SR_EXTEND = (bcd_value t - bcd_value s - x <? 0).
Proof.
  intros reg_src reg_dst s t x Hlen Hold Vs Vt cpu' res.
  assert (Hok : sbcd_byte_ok s t x = true).
  { apply sbcd_byte_correct; try assumption;
      try (apply Z.mod_pos_bound; lia).
    subst x. destruct (m68k_get_flag cpu SR_EXTEND); auto. }
  unfold sbcd_byte_ok in Hok.
  subst res cpu'. rewrite execute_sbcd_digits. cbv zeta.
  fold reg_src reg_dst. rewrite !low_byte. fold s t x.
  destruct (sbcd_byte s t x) as [r c] eqn:Er. cbn [fst snd].
  repeat (apply andb_prop in Hok as [Hok ?]).
  match goal with H : Bool.eqb _ _ = true |- _ =>
    apply Bool.eqb_prop in H; rename H into Hc end.
  match goal with H : (bcd_value r =? _) = true |- _ =>
    apply Z.eqb_eq in H; rename H into Hv end.
  assert (Hr : 0 <= r < 0x100) by lia.
  pose proof (land7_range (Z.shiftr opcode 9)) as Hreg. fold reg_dst in Hreg.
  destruct (bcd_flag_stores
              (set_d (upd (d cpu) reg_dst
                        (Z.lor (Z.land (idx (d cpu) reg_dst) 0xFFFFFF00) r))
                 cpu) (negb (c =? 0)) (negb (r =? 0))) as (Hd & HC & HX).
  cbv zeta in Hd, HC, HX.
  destruct (byte_into_register (idx (d cpu) reg_dst) r Hold Hr) as [Hm Hq].
  cbv zeta in Hm, Hq.
  rewrite Hd. cbn [d set_d].
  rewrite idx_upd_eq by (rewrite ?Hlen; lia).
  rewrite Hm, Hq, HC, HX, Hc. auto.
Qed.

Lemma sbcd_subtracts_decimally_witness :
  let cpu := set_d [0x58; 0x12345625; 0; 0; 0; 0; 0; 0] power_on in
  let cpu' := m68k_execute_bcd cpu OP_SBCD 0x8300 in
  bcd_value (idx (d cpu') 1 mod 0x100) = 67
  /\ idx (d cpu') 1 / 0x100 = 0x123456
  /\ m68k_get_flag cpu' SR_CARRY = true.
Proof.
  pose proof (sbcd_subtracts_decimally
                (set_d [0x58; 0x12345625; 0; 0; 0; 0; 0; 0] power_on) 0x8300
                eq_refl ltac:(vm_compute; split; congruence) eq_refl eq_refl)
    as H.
  cbv zeta in H. destruct H as (_ & Hv & Hq & Hc & _).
  exact (conj Hv (conj Hq Hc)).
Defined.

(** ** Register exchange *)

Lemma lor_shiftl_add (k hi lo : Z) :
  0 <= k -> 0 <= hi -> 0 <= lo < 2 ^ k ->
  Z.lor (Z.shiftl hi k) lo = 2 ^ k * hi + lo.
Proof.
  intros Hk Hh Hl.
  rewrite <- Z.add_nocarry_lor.
  - rewrite Z.shiftl_mul_pow2 by lia. lia.
  - apply Z.bits_inj'. intros n Hn. rewrite Z.land_spec, Z.bits_0.
    destruct (Z.ltb_spec n k).
    + now rewrite Z.shiftl_spec_low by lia.
    + destruct (Z.eq_dec lo 0) as [-> | Hne];
        [now rewrite Z.bits_0, andb_false_r |].
      rewrite (Z.bits_above_log2 lo n), andb_false_r; [reflexivity | lia |].
      apply Z.log2_lt_pow2; [lia |].
      apply Z.lt_le_trans with (2 ^ k); [lia |].
      apply Z.pow_le_mono_r; lia.
Qed.

Lemma swap_halves (v : Z) :
  0 <= v < 2 ^ 32 ->
  u32 (Z.lor (Z.shiftl (Z.land v 0xFFFF) 16)
             (Z.land (Z.shiftr v 16) 0xFFFF))
  = 0x10000 * (v mod 0x10000) + v / 0x10000.
Proof.
  intros Hv. change 0xFFFF with (Z.ones 16).
  rewrite !Z.land_ones, Z.shiftr_div_pow2 by lia.
  change (2 ^ 16) with 0x10000.
  pose proof (Z.mod_pos_bound v 0x10000 ltac:(lia)).
  assert (0 <= v / 0x10000 < 0x10000).
  { split; [apply Z.div_pos; lia | apply Z.div_lt_upper_bound; lia]. }
  rewrite (Z.mod_small (v / 0x10000)) by lia.
  rewrite lor_shiftl_add by lia. change (2 ^ 16) with 0x10000.
  apply u32_small. lia.
Qed.

Lemma clear_cv_context cpu :
  d (clear_cv cpu) = d cpu /\ a (clear_cv cpu) = a cpu
  /\ pc (clear_cv cpu) = pc cpu.
Proof. rewrite clear_cv_only_sr. auto. Qed.

Lemma set_flags_context cpu result size :
  d (m68k_set_flags cpu result size) = d cpu
  /\ a (m68k_set_flags cpu result size) = a cpu
  /\ pc (m68k_set_flags cpu result size) = pc cpu.
Proof. rewrite set_flags_only_sr. auto. Qed.

(** X23. SWAP exchanges the two halves of a data register and sets Z from
    the result; a second SWAP of the same register restores the data
    registers.  The memory is not touched. *)
Theorem swap_twice_restores
    (cpu : M68K_CPU) (memory : list Z) (mem_size opcode : Z) :
  length (d cpu) = 8%nat ->
  0 <= idx (d cpu) (Z.land opcode 0x7) < 2 ^ 32 ->
  let reg := Z.land opcode 0x7 in
  let v := idx (d cpu) reg in
  let once := m68k_execute_special cpu memory mem_size OP_SWAP opcode in
  let twice :=
    m68k_execute_special (fst once) (snd once) mem_size OP_SWAP opcode in
  idx (d (fst once)) reg = 0x10000 * (v mod 0x10000) + v / 0x10000
  /\ m68k_get_flag (fst once) SR_ZERO = (v =? 0)
  /\ d (fst twice) = d cpu
  /\ snd twice = memory.
Proof.
  intros Hlen Hv reg v once twice.
  pose proof (land7_range opcode) as Hreg. fold reg in Hreg, Hv. fold v in Hv.
  set (w := 0x10000 * (v mod 0x10000) + v / 0x10000).
  pose proof (Z.mod_pos_bound v 0x10000 ltac:(lia)) as Hlo.
  assert (Hhi : 0 <= v / 0x10000 < 0x10000).
  { split; [apply Z.div_pos; lia | apply Z.div_lt_upper_bound; lia]. }
  assert (Hw : 0 <= w < 2 ^ 32) by (unfold w; lia).
  assert (Honce : once
    = (clear_cv (m68k_set_flags (set_d (upd (d cpu) reg w) cpu) w SIZE_LONG),
       memory)).
  { subst once. unfold m68k_execute_special. fold reg. fold v.
    rewrite swap_halves by assumption. fold w. cbn [d set_d].
    rewrite idx_upd_eq by (rewrite ?Hlen; lia). reflexivity. }
  assert (Hd1 : d (fst once) = upd (d cpu) reg w).
  { rewrite Honce. cbn [fst].
    rewrite (proj1 (clear_cv_context _)), set_flags_d. reflexivity. }
  assert (Hv1 : idx (d (fst once)) reg = w).
  { rewrite Hd1. apply idx_upd_eq; [lia | rewrite Hlen; lia]. }
  split; [exact Hv1 |]. split.
  - rewrite Honce. cbn [fst]. unfold clear_cv.
    change SR_ZERO with (2 ^ 2). change SR_CARRY with (2 ^ 0).
    change SR_OVERFLOW with (2 ^ 1).
    rewrite !get_set_flag_ne by lia. change (2 ^ 2) with SR_ZERO.
    rewrite set_flags_zero by auto. unfold truncate.
    change (2 ^ (8 * OperandSize_to_Z SIZE_LONG)) with (2 ^ 32).
    rewrite Z.mod_small by assumption.
    destruct (Z.eqb_spec v 0) as [-> | Hne]; [reflexivity |].
    apply Z.eqb_neq. unfold w.
    destruct (Z.eq_dec (v mod 0x10000) 0) as [E0 | E0]; [| lia].
    pose proof (Z.div_mod v 0x10000 ltac:(lia)). lia.
  - assert (Htwice : twice
      = (clear_cv
           (m68k_set_flags (set_d (upd (d (fst once)) reg v) (fst once)) v
              SIZE_LONG), memory)).
    { subst twice. unfold m68k_execute_special. fold reg. rewrite Hv1.
      rewrite swap_halves by assumption.
      replace (0x10000 * (w mod 0x10000) + w / 0x10000) with v.
      - cbn [d set_d]. rewrite idx_upd_eq by (rewrite ?Hd1, ?length_upd, ?Hlen; lia).
        rewrite Honce. reflexivity.
      - unfold w.
        replace (0x10000 * (v mod 0x10000) + v / 0x10000)
          with (v / 0x10000 + (v mod 0x10000) * 0x10000) by lia.
        rewrite Z.mod_add, Z.div_add by lia.
        rewrite (Z.mod_small (v / 0x10000)) by lia.
        rewrite (Z.div_small (v / 0x10000)) by lia.
        pose proof (Z.div_mod v 0x10000 ltac:(lia)). lia. }
    rewrite Htwice. cbn [fst snd]. split; [| reflexivity].
    rewrite (proj1 (clear_cv_context _)), set_flags_d. cbn [d set_d].
    rewrite Hd1, upd_upd. apply upd_same. rewrite Hlen. lia.
Qed.

Lemma swap_twice_restores_witness :
  let cpu := set_d [0x12345678; 0; 0; 0; 0; 0; 0; 0] power_on in
  let once := m68k_execute_special cpu (repeat 0 16) 16 OP_SWAP 0x4840 in
  let twice :=
    m68k_execute_special (fst once) (snd once) 16 OP_SWAP 0x4840 in
  idx (d (fst once)) 0 = 0x56781234
  /\ m68k_get_flag (fst once) SR_ZERO = false
  /\ d (fst twice) = [0x12345678; 0; 0; 0; 0; 0; 0; 0]
  /\ snd twice = repeat 0 16.
Proof.
  exact (swap_twice_restores
           (set_d [0x12345678; 0; 0; 0; 0; 0; 0; 0] power_on) (repeat 0 16)
           16 0x4840 eq_refl ltac:(vm_compute; split; congruence)).
Defined.

Lemma exchange_twice (l : list Z) (i j : Z) :
  0 <= i -> 0 <= j ->
  (Z.to_nat i < length l)%nat -> (Z.to_nat j < length l)%nat ->
  let l1 := upd (upd l i (idx l j)) j (idx l i) in
  upd (upd l1 i (idx l1 j)) j (idx l1 i) = l.
Proof.
  intros Hi Hj Hil Hjl l1.
  assert (H1j : idx l1 j = idx l i).
  { unfold l1. apply idx_upd_eq; [lia | rewrite length_upd; lia]. }
  assert (H1i : idx l1 i = if decide (i = j) then idx l i else idx l j).
  { unfold l1. destruct (decide (i = j)) as [-> | Hne].
    - apply idx_upd_eq; [lia | rewrite length_upd; lia].
    - rewrite idx_upd_ne by lia. apply idx_upd_eq; lia. }
  rewrite H1j, H1i. unfold l1, upd, idx. apply list_eq. intros k.
  destruct (lookup_lt_is_Some_2 l (Z.to_nat i) Hil) as [x Hx].
  destruct (lookup_lt_is_Some_2 l (Z.to_nat j) Hjl) as [y Hy].
  rewrite Hx, Hy. cbn [default].
  destruct (decide (i = j)) as [-> | Hne].
  - rewrite Hx in Hy. injection Hy as ->.
    rewrite !list_insert_insert_eq.
    destruct (decide (k = Z.to_nat j)) as [-> | Hk].
    + rewrite list_lookup_insert_eq by lia. symmetry. assumption.
    + rewrite list_lookup_insert_ne by lia. reflexivity.
  - destruct (decide (k = Z.to_nat j)) as [-> | Hkj].
    + rewrite list_lookup_insert_eq by (rewrite !length_insert; lia).
      symmetry. assumption.
    + rewrite list_lookup_insert_ne by lia.
      destruct (decide (k = Z.to_nat i)) as [-> | Hki].
      * rewrite list_lookup_insert_eq by (rewrite !length_insert; lia).
        symmetry. assumption.
      * rewrite !list_lookup_insert_ne by lia. reflexivity.
Qed.

(** X24. EXG exchanges the two registers its opcode word names, in each
    of its three forms (mode field 0x08 data-data, 0x09 address-address,
    0x11 data with address), and leaves every other register; with any
    other mode field a single call returns the CPU and the memory as they
    are.  Status word, PC and memory are never touched.  EXG is its own
    inverse: a second call with the same opcode word restores the data and
    the address registers, also when both register numbers coincide. *)
Theorem exg_twice_restores
    (cpu : M68K_CPU) (memory : list Z) (mem_size opcode : Z) :
  length (d cpu) = 8%nat -> length (a cpu) = 8%nat ->
  let reg1 := Z.land (Z.shiftr opcode 9) 0x7 in
  let reg2 := Z.land opcode 0x7 in
  let mode := Z.land (Z.shiftr opcode 3) 0x1F in
  let once := m68k_execute_special cpu memory mem_size OP_EXG opcode in
  let twice :=
    m68k_execute_special (fst once) (snd once) mem_size OP_EXG opcode in
  (mode = 0x08 ->
   idx (d (fst once)) reg1 = idx (d cpu) reg2
   /\ idx (d (fst once)) reg2 = idx (d cpu) reg1
   /\ (forall k, 0 <= k -> k <> reg1 -> k <> reg2 ->
       idx (d (fst once)) k = idx (d cpu) k)
   /\ a (fst once) = a cpu)
  /\ (mode = 0x09 ->
      idx (a (fst once)) reg1 = idx (a cpu) reg2
      /\ idx (a (fst once)) reg2 = idx (a cpu) reg1
      /\ (forall k, 0 <= k -> k <> reg1 -> k <> reg2 ->
          idx (a (fst once)) k = idx (a cpu) k)
      /\ d (fst once) = d cpu)
  /\ (mode = 0x11 ->
      idx (d (fst once)) reg1 = idx (a cpu) reg2
      /\ idx (a (fst once)) reg2 = idx (d cpu) reg1
      /\ (forall k, 0 <= k -> k <> reg1 ->
          idx (d (fst once)) k = idx (d cpu) k)
      /\ (forall k, 0 <= k -> k <> reg2 ->
          idx (a (fst once)) k = idx (a cpu) k))
  /\ (mode <> 0x08 -> mode <> 0x09 -> mode <> 0x11 -> once = (cpu, memory))
  /\ (snd once = memory /\ sr (fst once) = sr cpu /\ pc (fst once) = pc cpu)
  /\ d (fst twice) = d cpu /\ a (fst twice) = a cpu /\ snd twice = memory
  /\ sr (fst twice) = sr cpu /\ pc (fst twice) = pc cpu.
Proof.
  intros Hd Ha reg1 reg2 mode once twice. subst twice once.
  pose proof (land7_range opcode) as H2.
  pose proof (land7_range (Z.shiftr opcode 9)) as H1.
  fold reg1 in H1. fold reg2 in H2.
  assert (Hswap : forall l : list Z, length l = 8%nat ->
            let l' := upd (upd l reg1 (idx l reg2)) reg2 (idx l reg1) in
            idx l' reg1 = idx l reg2 /\ idx l' reg2 = idx l reg1
            /\ (forall k, 0 <= k -> k <> reg1 -> k <> reg2 ->
                idx l' k = idx l k)).
  { intros l Hl l'. subst l'. split; [| split].
    - destruct (decide (reg1 = reg2)) as [Heq | Hne].
      + rewrite Heq. apply idx_upd_eq; [lia |]. rewrite length_upd, Hl. lia.
      + rewrite idx_upd_ne by lia. apply idx_upd_eq; [lia |].
        rewrite Hl. lia.
    - apply idx_upd_eq; [lia |]. rewrite length_upd, Hl. lia.
    - intros k Hk Hk1 Hk2. rewrite !idx_upd_ne by lia. reflexivity. }
  unfold m68k_execute_special. fold reg1. fold reg2. fold mode.
  destruct (Z.eqb_spec mode 0x08) as [M8 | M8].
  { cbn [fst snd d a sr pc set_d].
    split; [intros _; destruct (Hswap (d cpu) Hd) as (? & ? & ?); auto |].
    split; [intros M; rewrite M8 in M; discriminate M |].
    split; [intros M; rewrite M8 in M; discriminate M |].
    split; [intros M; contradiction |].
    split; [auto |]. split; [| auto].
    apply (exchange_twice (d cpu) reg1 reg2); rewrite ?Hd; lia. }
  destruct (Z.eqb_spec mode 0x09) as [M9 | M9].
  { cbn [fst snd d a sr pc set_a].
    split; [intros M; contradiction |].
    split; [intros _; destruct (Hswap (a cpu) Ha) as (? & ? & ?); auto |].
    split; [intros M; rewrite M9 in M; discriminate M |].
    split; [intros _ M; contradiction |].
    split; [auto |]. split; [reflexivity |]. split; [| auto].
    apply (exchange_twice (a cpu) reg1 reg2); rewrite ?Ha; lia. }
  destruct (Z.eqb_spec mode 0x11) as [M11 | M11].
  { cbn [fst snd d a sr pc set_a set_d].
    split; [intros M; contradiction |].
    split; [intros M; contradiction |].
    split.
    { intros _.
      split; [apply idx_upd_eq; [lia | rewrite Hd; lia] |].
      split; [apply idx_upd_eq; [lia | rewrite Ha; lia] |].
      split; intros k Hk Hne; apply idx_upd_ne; lia. }
    split; [intros _ _ M; contradiction |].
    split; [auto |].
    rewrite !idx_upd_eq by (rewrite ?Hd, ?Ha; lia).
    rewrite !upd_upd.
    split; [apply upd_same; rewrite Hd; lia |].
    split; [apply upd_same; rewrite Ha; lia |]. auto. }
  cbn [fst snd].
  split; [intros M; contradiction |].
  split; [intros M; contradiction |].
  split; [intros M; contradiction |].
  auto 10.
Qed.

(** EXG D1,A2 (0xC38A, mode 0x11): D1 and A2 change places and come back;
    the word 0xC380 has mode field 0x10 and does nothing. *)
Lemma exg_twice_restores_witness :
  let cpu :=
    set_a [10; 11; 12; 13; 14; 15; 16; 17]
      (set_d [0; 1; 2; 3; 4; 5; 6; 7] power_on) in
  let once := m68k_execute_special cpu (repeat 0 16) 16 OP_EXG 0xC38A in
  let twice :=
    m68k_execute_special (fst once) (snd once) 16 OP_EXG 0xC38A in
  (idx (d (fst once)) 1 = 12 /\ idx (a (fst once)) 2 = 1)
  /\ d (fst twice) = [0; 1; 2; 3; 4; 5; 6; 7]
  /\ a (fst twice) = [10; 11; 12; 13; 14; 15; 16; 17]
  /\ m68k_execute_special cpu (repeat 0 16) 16 OP_EXG 0xC380
     = (cpu, repeat 0 16).
Proof.
  pose proof (exg_twice_restores
                (set_a [10; 11; 12; 13; 14; 15; 16; 17]
                   (set_d [0; 1; 2; 3; 4; 5; 6; 7] power_on))
                (repeat 0 16) 16 0xC38A eq_refl eq_refl) as H.
  pose proof (exg_twice_restores
                (set_a [10; 11; 12; 13; 14; 15; 16; 17]
                   (set_d [0; 1; 2; 3; 4; 5; 6; 7] power_on))
                (repeat 0 16) 16 0xC380 eq_refl eq_refl) as H0.
  cbv zeta in H, H0.
  destruct H as (_ & _ & Hx & _ & _ & H1 & H2 & _).
  destruct H0 as (_ & _ & _ & Hn & _).
  destruct (Hx eq_refl) as (Hd1 & Ha2 & _).
  exact (conj (conj Hd1 Ha2)
           (conj H1 (conj H2
              (Hn ltac:(discriminate) ltac:(discriminate)
                  ltac:(discriminate))))).
Defined.

(** ** Shifts and rotates *)

Lemma shift_loop_context op : forall n v cpu,
  d (snd (shift_loop op n v cpu)) = d cpu
  /\ a (snd (shift_loop op n v cpu)) = a cpu
  /\ pc (snd (shift_loop op n v cpu)) = pc cpu
  /\ instruction_count (snd (shift_loop op n v cpu)) = instruction_count cpu.
Proof.
  induction n as [| n IH]; intros v cpu; [cbn; auto |].
  cbn [shift_loop].
  match goal with
  | |- context [let '(_, _) := ?p in _] => destruct p as [carry v']
  end.
  destruct (IH v' (m68k_set_flag (m68k_set_flag cpu SR_CARRY carry)
                     SR_EXTEND carry)) as (Hd & Ha & Hp & Hi).
  rewrite Hd, Ha, Hp, Hi.
  rewrite (set_flag_only_sr (m68k_set_flag cpu SR_CARRY carry)).
  rewrite (set_flag_only_sr cpu). auto.
Qed.

Lemma shift_loop_lsl op : forall n v cpu,
  op = OP_LSL \/ op = OP_ASL ->
  fst (shift_loop op n v cpu) = u32 (u32 v * 2 ^ Z.of_nat n)
  \/ n = 0%nat /\ fst (shift_loop op n v cpu) = v.
Proof.
  intros n v cpu Hop.
  destruct n as [| n]; [right; auto |]. left. revert v cpu.
  induction n as [| n IH]; intros v cpu.
  - destruct Hop as [-> | ->]; cbn [shift_loop]; simpl (OpCode_eqb _ _);
      cbn [orb fst]; rewrite Z.shiftl_mul_pow2 by lia; unfold u32;
      change (2 ^ Z.of_nat 1) with (2 ^ 1);
      rewrite Z.mul_mod_idemp_l by lia; reflexivity.
  - assert (Hstep : forall cpu0, exists cpu1,
              shift_loop op (S (S n)) v cpu0
              = shift_loop op (S n) (u32 (Z.shiftl v 1)) cpu1).
    { intros cpu0. destruct Hop as [-> | ->];
        cbn [shift_loop]; simpl (OpCode_eqb _ _); cbn [orb];
        eexists; reflexivity. }
    destruct (Hstep cpu) as [cpu1 ->]. rewrite IH.
    rewrite Z.shiftl_mul_pow2 by lia. unfold u32.
    rewrite Z.mod_mod by lia.
    rewrite Z.mul_mod_idemp_l by lia.
    rewrite (Z.mul_mod_idemp_l v) by lia.
    f_equal. replace (Z.of_nat (S (S n))) with (Z.of_nat (S n) + 1) by lia.
    rewrite Z.pow_add_r by lia. lia.
Qed.

Lemma shift_loop_lsr : forall n v cpu,
  0 <= v ->
  fst (shift_loop OP_LSR n v cpu) = v / 2 ^ Z.of_nat n.
Proof.
  induction n as [| n IH]; intros v cpu Hv.
  - cbn. now rewrite Z.div_1_r.
  - assert (Hstep : exists cpu1,
              shift_loop OP_LSR (S n) v cpu
              = shift_loop OP_LSR n (Z.shiftr v 1) cpu1).
    { cbn [shift_loop]. simpl (OpCode_eqb _ _). cbn [orb].
      eexists; reflexivity. }
    destruct Hstep as [cpu1 ->].
    rewrite IH by (apply Z.shiftr_nonneg; lia).
    rewrite Z.shiftr_div_pow2 by lia.
    rewrite Z.div_div by lia.
    f_equal. replace (Z.of_nat (S n)) with (1 + Z.of_nat n) by lia.
    rewrite Z.pow_add_r by lia. reflexivity.
Qed.

Lemma s32_range z : - 2 ^ 31 <= s32 z < 2 ^ 31.
Proof.
  unfold s32. pose proof (u32_range z).
  destruct (Z.ltb_spec (u32 z) 0x80000000); lia.
Qed.

Lemma s32_of_u32_small y : - 2 ^ 31 <= y < 2 ^ 31 -> s32 (u32 y) = y.
Proof.
  intros Hy. rewrite s32_u32. unfold s32, u32.
  destruct (Z.lt_ge_cases y 0).
  - replace (y mod 0x100000000) with (y + 0x100000000)
      by (apply Z.mod_unique with (-1); lia).
    destruct (Z.ltb_spec (y + 0x100000000) 0x80000000); lia.
  - rewrite Z.mod_small by lia.
    destruct (Z.ltb_spec y 0x80000000); lia.
Qed.

Lemma u32_s32 z : u32 (s32 z) = u32 z.
Proof.
  unfold s32. pose proof (u32_range z).
  destruct (Z.ltb_spec (u32 z) 0x80000000).
  - apply u32_u32.
  - unfold u32 at 1.
    replace (u32 z - 0x100000000) with (u32 z + (-1) * 0x100000000) by lia.
    rewrite Z.mod_add by lia. apply u32_u32.
Qed.

Lemma shift_loop_asr : forall n v cpu,
  fst (shift_loop OP_ASR n v cpu) = u32 (s32 v / 2 ^ Z.of_nat n)
  \/ n = 0%nat /\ fst (shift_loop OP_ASR n v cpu) = v.
Proof.
  intros n v cpu.
  destruct n as [| n]; [right; auto |]. left. revert v cpu.
  induction n as [| n IH]; intros v cpu.
  - cbn [shift_loop]. simpl (OpCode_eqb _ _). cbn [orb fst].
    rewrite Z.shiftr_div_pow2 by lia. reflexivity.
  - assert (Hstep : exists cpu1,
              shift_loop OP_ASR (S (S n)) v cpu
              = shift_loop OP_ASR (S n) (u32 (Z.shiftr (s32 v) 1)) cpu1).
    { cbn [shift_loop]. simpl (OpCode_eqb _ _). cbn [orb].
      eexists; reflexivity. }
    destruct Hstep as [cpu1 ->]. rewrite IH.
    pose proof (s32_range v) as Hr.
    rewrite s32_of_u32_small.
    + rewrite Z.shiftr_div_pow2, Z.div_div by lia.
      f_equal. f_equal.
      replace (Z.of_nat (S (S n))) with (1 + Z.of_nat (S n)) by lia.
      rewrite Z.pow_add_r by lia. reflexivity.
    + rewrite Z.shiftr_div_pow2 by lia. change (2 ^ 1) with 2.
      split; [apply Z.div_le_lower_bound | apply Z.div_lt_upper_bound]; lia.
Qed.

Lemma shift_handler_value (E : Externals) cpu memory mem_size op opcode :
  op = OP_ASL \/ op = OP_ASR \/ op = OP_LSL \/ op = OP_LSR
  \/ op = OP_ROL \/ op = OP_ROR ->
  length (d cpu) = 8%nat ->
  let r := Z.land (Z.shiftr opcode 9) 0x7 in
  let n := if r =? 0 then 8 else r in
  exists cpu',
    m68k_execute_instruction E cpu memory mem_size op opcode
    = Some (cpu', memory)
    /\ d cpu'
       = upd (d cpu) r (fst (shift_loop op (Z.to_nat n) (idx (d cpu) r) cpu))
    /\ a cpu' = a cpu /\ pc cpu' = pc cpu
    /\ instruction_count cpu' = u64 (instruction_count cpu + 1).
Proof.
  intros Hop Hlen r n.
  assert (Hout : m68k_execute_instruction E cpu memory mem_size op opcode
    = let sl := shift_loop op (Z.to_nat n) (idx (d cpu) r) cpu in
      Some (set_instruction_count
         (u64 (instruction_count
                 (m68k_set_flags
                    (set_d (upd (d (snd sl)) r (fst sl)) (snd sl)) (fst sl)
                    (get_size opcode)) + 1))
         (m68k_set_flags (set_d (upd (d (snd sl)) r (fst sl)) (snd sl))
            (fst sl) (get_size opcode)), memory)).
  { unfold m68k_execute_instruction. fold r. fold n.
    destruct Hop as [-> | [-> | [-> | [-> | [-> | ->]]]]];
      cbv zeta;
      destruct (shift_loop _ (Z.to_nat n) (idx (d cpu) r) cpu) as [x c];
      reflexivity. }
  cbv zeta in Hout. rewrite Hout. eexists. split; [reflexivity |].
  destruct (shift_loop_context op (Z.to_nat n) (idx (d cpu) r) cpu)
    as (Hd & Ha & Hp & Hi).
  cbn [d a pc instruction_count set_instruction_count].
  rewrite set_flags_instruction_count.
  destruct (set_flags_context
              (set_d (upd (d (snd (shift_loop op (Z.to_nat n)
                                     (idx (d cpu) r) cpu))) r
                        (fst (shift_loop op (Z.to_nat n) (idx (d cpu) r)
                                cpu)))
                 (snd (shift_loop op (Z.to_nat n) (idx (d cpu) r) cpu)))
              (fst (shift_loop op (Z.to_nat n) (idx (d cpu) r) cpu))
              (get_size opcode)) as (Fd & Fa & Fp).
  rewrite Fd, Fa, Fp. cbn [d a pc instruction_count set_d].
  rewrite Hd, Ha, Hp, Hi. auto.
Qed.

(** X25. The shift handlers take the shift count (1 to 8, with 0 standing
    for 8) from bits 9-11 of the opcode word, the very field that names
    the data register.  LSL and ASL multiply the register by 2^count modulo
    2^32, LSR divides it by 2^count, ASR divides its signed value by
    2^count rounding down; each of them counts one instruction and leaves
    the memory untouched. *)
Theorem shift_by_register_field
    (E : Externals) (cpu : M68K_CPU) (memory : list Z) (mem_size opcode : Z) :
  length (d cpu) = 8%nat ->
  0 <= idx (d cpu) (Z.land (Z.shiftr opcode 9) 0x7) < 2 ^ 32 ->
  let r := Z.land (Z.shiftr opcode 9) 0x7 in
  let n := if r =? 0 then 8 else r in
  let v := idx (d cpu) r in
  let out op := m68k_execute_instruction E cpu memory mem_size op opcode in
  (exists cpu', out OP_LSL = Some (cpu', memory)
     /\ idx (d cpu') r = (v * 2 ^ n) mod 2 ^ 32
     /\ instruction_count cpu' = u64 (instruction_count cpu + 1))
  /\ (exists cpu', out OP_ASL = Some (cpu', memory)
        /\ idx (d cpu') r = (v * 2 ^ n) mod 2 ^ 32
        /\ instruction_count cpu' = u64 (instruction_count cpu + 1))
  /\ (exists cpu', out OP_LSR = Some (cpu', memory)
        /\ idx (d cpu') r = v / 2 ^ n
        /\ instruction_count cpu' = u64 (instruction_count cpu + 1))
  /\ (exists cpu', out OP_ASR = Some (cpu', memory)
        /\ idx (d cpu') r = (s32 v / 2 ^ n) mod 2 ^ 32
        /\ instruction_count cpu' = u64 (instruction_count cpu + 1)).
Proof.
  intros Hlen Hv r n v out.
  pose proof (land7_range (Z.shiftr opcode 9)) as Hr. fold r in Hr, Hv.
  fold v in Hv.
  assert (Hn : 1 <= n <= 8) by (unfold n; destruct (Z.eqb_spec r 0); lia).
  assert (Hnn : Z.of_nat (Z.to_nat n) = n) by lia.
  assert (Hidx : forall x, idx (upd (d cpu) r x) r = x)
    by (intros x; apply idx_upd_eq; [lia | rewrite Hlen; lia]).
  subst out. cbv beta.
  destruct (shift_handler_value E cpu memory mem_size OP_LSL opcode
              ltac:(auto 10) Hlen) as (c1 & E1 & D1 & _ & _ & I1).
  destruct (shift_handler_value E cpu memory mem_size OP_ASL opcode
              ltac:(auto 10) Hlen) as (c2 & E2 & D2 & _ & _ & I2).
  destruct (shift_handler_value E cpu memory mem_size OP_LSR opcode
              ltac:(auto 10) Hlen) as (c3 & E3 & D3 & _ & _ & I3).
  destruct (shift_handler_value E cpu memory mem_size OP_ASR opcode
              ltac:(auto 10) Hlen) as (c4 & E4 & D4 & _ & _ & I4).
  cbv zeta in D1, D2, D3, D4. fold r n v in D1, D2, D3, D4.
  split; [exists c1 | split; [exists c2 | split; [exists c3 | exists c4]]];
    (split; [assumption |]); (split; [| assumption]);
    rewrite ?D1, ?D2, ?D3, ?D4, Hidx.
  - destruct (shift_loop_lsl OP_LSL (Z.to_nat n) v cpu ltac:(auto))
      as [-> | [H0 _]]; [| lia].
    rewrite Hnn, (u32_small v) by assumption. reflexivity.
  - destruct (shift_loop_lsl OP_ASL (Z.to_nat n) v cpu ltac:(auto))
      as [-> | [H0 _]]; [| lia].
    rewrite Hnn, (u32_small v) by assumption. reflexivity.
  - rewrite shift_loop_lsr by lia. rewrite Hnn. reflexivity.
  - destruct (shift_loop_asr (Z.to_nat n) v cpu) as [-> | [H0 _]]; [| lia].
    rewrite Hnn. reflexivity.
Qed.

Lemma shift_by_register_field_witness :
  let cpu := set_d [0; 0; 0; 0x80000005; 0; 0; 0; 0] power_on in
  let out op :=
    m68k_execute_instruction idle_externals cpu (repeat 0 16) 16 op 0xE708 in
  (exists cpu', out OP_LSL = Some (cpu', repeat 0 16)
     /\ idx (d cpu') 3 = 0x28)
  /\ (exists cpu', out OP_LSR = Some (cpu', repeat 0 16)
        /\ idx (d cpu') 3 = 0x10000000)
  /\ (exists cpu', out OP_ASR = Some (cpu', repeat 0 16)
        /\ idx (d cpu') 3 = 0xF0000000).
Proof.
  pose proof (shift_by_register_field idle_externals
                (set_d [0; 0; 0; 0x80000005; 0; 0; 0; 0] power_on)
                (repeat 0 16) 16 0xE708 eq_refl
                ltac:(vm_compute; split; congruence)) as H.
  cbv zeta in H.
  destruct H as ((c1 & E1 & H1 & _) & _ & (c3 & E3 & H3 & _)
                 & (c4 & E4 & H4 & _)).
  exact (conj (ex_intro _ c1 (conj E1 H1))
           (conj (ex_intro _ c3 (conj E3 H3))
              (ex_intro _ c4 (conj E4 H4)))).
Defined.

Lemma top_bit_test (v : Z) :
  0 <= v < 2 ^ 32 ->
  negb (Z.land v 0x80000000 =? 0) = (0x80000000 <=? v).
Proof.
  intros Hv. change 0x80000000 with (2 ^ 31) at 1.
  rewrite land_pow2 by lia. rewrite testbit_top by assumption.
  destruct (0x80000000 <=? v); reflexivity.
Qed.

Lemma low_bit_test (v : Z) :
  0 <= v -> negb (Z.land v 0x1 =? 0) = (v mod 2 =? 1).
Proof.
  intros Hv.
  assert (Hl : Z.land v 0x1 = v mod 2) by apply (Z.land_ones v 1 ltac:(lia)).
  rewrite Hl. pose proof (Z.mod_pos_bound v 2 ltac:(lia)).
  destruct (Z.eqb_spec (v mod 2) 0), (Z.eqb_spec (v mod 2) 1);
    cbn; try reflexivity; lia.
Qed.

Lemma rotate_left_once_value (v : Z) :
  0 <= v < 2 ^ 32 ->
  rotate_left_once v
  = if 0x80000000 <=? v then 2 * v - 2 ^ 32 + 1 else 2 * v.
Proof.
  intros Hv. unfold rotate_left_once. rewrite top_bit_test by assumption.
  rewrite Z.shiftl_mul_pow2 by lia. change (2 ^ 1) with 2.
  destruct (Z.leb_spec 0x80000000 v).
  - assert (Hu : u32 (v * 2) = Z.shiftl (v - 0x80000000) 1).
    { rewrite Z.shiftl_mul_pow2 by lia. unfold u32. symmetry.
      apply Z.mod_unique with 1; lia. }
    rewrite Hu, lor_shiftl_add by lia. lia.
  - rewrite u32_small by lia. rewrite Z.lor_0_r. lia.
Qed.

Lemma rotate_right_once_value (v : Z) :
  0 <= v < 2 ^ 32 ->
  rotate_right_once v = v / 2 + (v mod 2) * 2 ^ 31.
Proof.
  intros Hv. unfold rotate_right_once. rewrite low_bit_test by lia.
  rewrite Z.shiftr_div_pow2 by lia. change (2 ^ 1) with 2.
  pose proof (Z.mod_pos_bound v 2 ltac:(lia)).
  assert (0 <= v / 2 < 2 ^ 31).
  { split; [apply Z.div_pos; lia | apply Z.div_lt_upper_bound; lia]. }
  destruct (Z.eqb_spec (v mod 2) 1) as [E1 | E1].
  - rewrite Z.lor_comm. change 0x80000000 with (Z.shiftl 1 31).
    rewrite lor_shiftl_add by lia. lia.
  - rewrite Z.lor_0_r. lia.
Qed.

Lemma rotate_once_inverse (v : Z) :
  0 <= v < 2 ^ 32 ->
  0 <= rotate_left_once v < 2 ^ 32
  /\ 0 <= rotate_right_once v < 2 ^ 32
  /\ rotate_right_once (rotate_left_once v) = v
  /\ rotate_left_once (rotate_right_once v) = v.
Proof.
  intros Hv.
  pose proof (Z.mod_pos_bound v 2 ltac:(lia)) as Hm.
  pose proof (Z.div_mod v 2 ltac:(lia)) as Hdm.
  assert (Hl : 0 <= rotate_left_once v < 2 ^ 32).
  { rewrite rotate_left_once_value by assumption.
    destruct (Z.leb_spec 0x80000000 v); lia. }
  assert (Hr : 0 <= rotate_right_once v < 2 ^ 32).
  { rewrite rotate_right_once_value by assumption. lia. }
  split; [assumption |]. split; [assumption |]. split.
  - rewrite rotate_right_once_value by assumption.
    rewrite rotate_left_once_value by assumption.
    destruct (Z.leb_spec 0x80000000 v).
    + replace (2 * v - 2 ^ 32 + 1) with (1 + (v - 2 ^ 31) * 2) by lia.
      rewrite Z.div_add, Z.mod_add by lia.
      change (1 / 2) with 0. change (1 mod 2) with 1. lia.
    + replace (2 * v) with (0 + v * 2) by lia.
      rewrite Z.div_add, Z.mod_add by lia.
      change (0 / 2) with 0. change (0 mod 2) with 0. lia.
  - rewrite rotate_left_once_value by assumption.
    rewrite rotate_right_once_value by assumption.
    destruct (Z.leb_spec 0x80000000 (v / 2 + v mod 2 * 2 ^ 31)); lia.
Qed.

Lemma shift_loop_rol : forall n v cpu,
  fst (shift_loop OP_ROL n v cpu) = Nat.iter n rotate_left_once v.
Proof.
  induction n as [| n IH]; intros v cpu; [reflexivity |].
  assert (Hstep : exists cpu1,
            shift_loop OP_ROL (S n) v cpu
            = shift_loop OP_ROL n (rotate_left_once v) cpu1).
  { cbn [shift_loop]. simpl (OpCode_eqb _ _). cbn [orb].
    eexists; reflexivity. }
  destruct Hstep as [cpu1 ->]. rewrite IH. symmetry. apply Nat.iter_succ_r.
Qed.

Lemma shift_loop_ror : forall n v cpu,
  fst (shift_loop OP_ROR n v cpu) = Nat.iter n rotate_right_once v.
Proof.
  induction n as [| n IH]; intros v cpu; [reflexivity |].
  assert (Hstep : exists cpu1,
            shift_loop OP_ROR (S n) v cpu
            = shift_loop OP_ROR n (rotate_right_once v) cpu1).
  { cbn [shift_loop]. simpl (OpCode_eqb _ _). cbn [orb].
    eexists; reflexivity. }
  destruct Hstep as [cpu1 ->]. rewrite IH. symmetry. apply Nat.iter_succ_r.
Qed.

Lemma rotate_iter_inverse : forall n v,
  0 <= v < 2 ^ 32 ->
  0 <= Nat.iter n rotate_left_once v < 2 ^ 32
  /\ 0 <= Nat.iter n rotate_right_once v < 2 ^ 32
  /\ Nat.iter n rotate_right_once (Nat.iter n rotate_left_once v) = v
  /\ Nat.iter n rotate_left_once (Nat.iter n rotate_right_once v) = v.
Proof.
  induction n as [| n IH]; intros v Hv; [cbn; auto |].
  destruct (IH v Hv) as (Hl & Hr & Hrl & Hlr).
  destruct (rotate_once_inverse _ Hl) as (Hl1 & _ & Hrl1 & _).
  destruct (rotate_once_inverse _ Hr) as (_ & Hr1 & _ & Hlr1).
  split; [rewrite Nat.iter_succ; assumption |].
  split; [rewrite Nat.iter_succ; assumption |].
  split.
  - rewrite (Nat.iter_succ _ rotate_left_once), Nat.iter_succ_r, Hrl1.
    assumption.
  - rewrite (Nat.iter_succ _ rotate_right_once), Nat.iter_succ_r, Hlr1.
    assumption.
Qed.

(** X26. ROL and ROR undo each other: rotating a data register left and
    then right through the handlers, with the same opcode word (so the
    same register and count), restores the data registers, and so does
    rotating right and then left. *)
Theorem rotate_there_and_back
    (E : Externals) (cpu : M68K_CPU) (memory : list Z) (mem_size opcode : Z) :
  length (d cpu) = 8%nat ->
  0 <= idx (d cpu) (Z.land (Z.shiftr opcode 9) 0x7) < 2 ^ 32 ->
  let step op (state : option M68K_CPU) :=
    state ≫= fun c =>
      fst <$> m68k_execute_instruction E c memory mem_size op opcode in
  d <$> step OP_ROR (step OP_ROL (Some cpu)) = Some (d cpu)
  /\ d <$> step OP_ROL (step OP_ROR (Some cpu)) = Some (d cpu).
Proof.
  intros Hlen Hv step.
  set (r := Z.land (Z.shiftr opcode 9) 0x7) in *.
  set (n := if r =? 0 then 8 else r).
  pose proof (land7_range (Z.shiftr opcode 9)) as Hr. fold r in Hr.
  destruct (rotate_iter_inverse (Z.to_nat n) _ Hv) as (_ & _ & Hrl & Hlr).
  assert (Hback : forall op1 op2 f1 f2,
    op1 = OP_ROL /\ op2 = OP_ROR \/ op1 = OP_ROR /\ op2 = OP_ROL ->
    (forall v c, fst (shift_loop op1 (Z.to_nat n) v c)
                 = Nat.iter (Z.to_nat n) f1 v) ->
    (forall v c, fst (shift_loop op2 (Z.to_nat n) v c)
                 = Nat.iter (Z.to_nat n) f2 v) ->
    Nat.iter (Z.to_nat n) f2 (Nat.iter (Z.to_nat n) f1 (idx (d cpu) r))
    = idx (d cpu) r ->
    d <$> step op2 (step op1 (Some cpu)) = Some (d cpu)).
  { intros op1 op2 f1 f2 Hops H1 H2 Hinv. subst step. cbv beta.
    destruct (shift_handler_value E cpu memory mem_size op1 opcode
                ltac:(destruct Hops as [[-> _] | [-> _]]; auto 10) Hlen)
      as (c1 & E1 & D1 & _).
    cbv zeta in D1. fold r n in D1.
    destruct (shift_handler_value E c1 memory mem_size op2 opcode
                ltac:(destruct Hops as [[_ ->] | [_ ->]]; auto 10)
                ltac:(rewrite D1, length_upd; assumption))
      as (c2 & E2 & D2 & _).
    cbv zeta in D2. fold r n in D2.
    change (Some cpu ≫= ?f) with (f cpu). cbv beta. rewrite E1.
    change (fst <$> Some (c1, memory)) with (Some c1).
    change (Some c1 ≫= ?f) with (f c1). cbv beta. rewrite E2.
    change (d <$> (fst <$> Some (c2, memory))) with (Some (d c2)).
    f_equal.
    rewrite D2, D1, H1, H2.
    rewrite idx_upd_eq by (rewrite ?Hlen; lia).
    rewrite Hinv, upd_upd. apply upd_same. rewrite Hlen. lia. }
  split.
  - apply (Hback OP_ROL OP_ROR rotate_left_once rotate_right_once);
      auto using shift_loop_rol, shift_loop_ror.
  - apply (Hback OP_ROR OP_ROL rotate_right_once rotate_left_once);
      auto using shift_loop_rol, shift_loop_ror.
Qed.

Lemma rotate_there_and_back_witness :
  let cpu := set_d [0; 0; 0; 0x80000005; 0; 0; 0; 0] power_on in
  let step op (state : option M68K_CPU) :=
    state ≫= fun c =>
      fst <$> m68k_execute_instruction idle_externals c (repeat 0 16) 16 op
                0xE718 in
  d <$> step OP_ROL (Some cpu) = Some [0; 0; 0; 0x2C; 0; 0; 0; 0]
  /\ d <$> step OP_ROR (step OP_ROL (Some cpu))
     = Some [0; 0; 0; 0x80000005; 0; 0; 0; 0].
Proof.
  pose proof (rotate_there_and_back idle_externals
                (set_d [0; 0; 0; 0x80000005; 0; 0; 0; 0] power_on)
                (repeat 0 16) 16 0xE718 eq_refl
                ltac:(vm_compute; split; congruence)) as H.
  cbv zeta in H. destruct H as (H1 & _).
  exact (conj eq_refl H1).
Defined.

(** ** Bit manipulation *)

Lemma bit_mask_value (n : Z) : 0 <= n < 32 -> u32 (Z.shiftl 1 n) = 2 ^ n.
Proof.
  intros Hn. rewrite Z.shiftl_mul_pow2, Z.mul_1_l by lia.
  apply u32_small. split; [lia |]. apply Z.pow_lt_mono_r; lia.
Qed.

Lemma testbit_above (v k : Z) :
  0 <= v < 2 ^ 32 -> 32 <= k -> Z.testbit v k = false.
Proof.
  intros Hv Hk. destruct (Z.eq_dec v 0) as [-> | Hne]; [apply Z.bits_0 |].
  apply Z.bits_above_log2; [lia |].
  apply Z.log2_lt_pow2; [lia |].
  apply Z.lt_le_trans with (2 ^ 32); [lia |]. apply Z.pow_le_mono_r; lia.
Qed.

Lemma bit_test (v n : Z) :
  0 <= n -> negb (Z.land v (2 ^ n) =? 0) = Z.testbit v n.
Proof.
  intros Hn. rewrite land_pow2 by lia.
  destruct (Z.testbit v n); [| reflexivity].
  assert (0 < 2 ^ n) by (apply Z.pow_pos_nonneg; lia).
  destruct (Z.eqb_spec (2 ^ n) 0); [lia | reflexivity].
Qed.

(** X27. The register forms of the bit instructions, for a bit number
    below 31 (the low five bits of the source register).  Each sets Z to
    the complement of the tested bit of the destination register; BTST
    leaves the register, BSET sets that one bit, BCLR clears it, BCHG
    inverts it, and every other bit of the register stays. *)
Theorem bit_operations_on_register
    (cpu : M68K_CPU) (memory : list Z) (mem_size opcode : Z) :
  length (d cpu) = 8%nat ->
  Z.land opcode 0x0100 <> 0 ->
  Z.land (idx (d cpu) (Z.land (Z.shiftr opcode 9) 0x7)) 0x1F < 31 ->
  0 <= idx (d cpu) (Z.land opcode 0x7) < 2 ^ 32 ->
  let n := Z.land (idx (d cpu) (Z.land (Z.shiftr opcode 9) 0x7)) 0x1F in
  let r := Z.land opcode 0x7 in
  let v := idx (d cpu) r in
  let out op := m68k_execute_bit_ops cpu memory mem_size op opcode in
  exists c_tst c_set c_clr c_chg,
    out OP_BTST = Some (c_tst, memory) /\ out OP_BSET = Some (c_set, memory)
    /\ out OP_BCLR = Some (c_clr, memory)
    /\ out OP_BCHG = Some (c_chg, memory)
    /\ (forall c, c = c_tst \/ c = c_set \/ c = c_clr \/ c = c_chg ->
        m68k_get_flag c SR_ZERO = negb (Z.testbit v n))
    /\ idx (d c_tst) r = v
    /\ forall k, 0 <= k ->
         Z.testbit (idx (d c_set) r) k = (Z.testbit v k || (k =? n))
         /\ Z.testbit (idx (d c_clr) r) k = (Z.testbit v k && negb (k =? n))
         /\ Z.testbit (idx (d c_chg) r) k = xorb (Z.testbit v k) (k =? n).
Proof.
  intros Hlen Hreg Hn Hv n r v out.
  pose proof (land7_range opcode) as Hr. fold r in Hr, Hv. fold v in Hv.
  fold n in Hn.
  assert (Hn0 : 0 <= n).
  { unfold n. change 0x1F with (Z.ones 5). rewrite Z.land_ones by lia.
    apply Z.mod_pos_bound. lia. }
  assert (Hidx : forall x c, d c = d cpu -> idx (upd (d c) r x) r = x).
  { intros x c ->. apply idx_upd_eq; [lia | rewrite Hlen; lia]. }
  assert (Hout : forall op, out op
    = Some
        match op with
        | OP_BTST =>
            (m68k_set_flag cpu SR_ZERO (negb (Z.testbit v n)), memory)
        | OP_BCHG =>
            (set_d (upd (d cpu) r (Z.lxor v (2 ^ n)))
               (m68k_set_flag cpu SR_ZERO (negb (Z.testbit v n))), memory)
        | OP_BCLR =>
            (set_d (upd (d cpu) r (Z.land v (u32 (Z.lnot (2 ^ n)))))
               (m68k_set_flag cpu SR_ZERO (negb (Z.testbit v n))), memory)
        | OP_BSET =>
            (set_d (upd (d cpu) r (Z.lor v (2 ^ n)))
               (m68k_set_flag cpu SR_ZERO (negb (Z.testbit v n))), memory)
        | _ => (cpu, memory)
        end).
  { intros op. subst out. cbv beta. unfold m68k_execute_bit_ops.
    destruct (Z.eqb_spec (Z.land opcode 0x0100) 0); [contradiction |].
    fold r. fold n. fold v.
    destruct (Z.leb_spec 32 n); [lia |].
    rewrite bit_mask_value by lia.
    rewrite bit_test by lia.
    destruct op; try reflexivity; cbv zeta; rewrite set_flag_d; reflexivity. }
  rewrite !Hout. do 4 eexists.
  do 4 (split; [reflexivity |]).
  split; [| split].
  - change SR_ZERO with (2 ^ 2).
    intros c [-> | [-> | [-> | ->]]];
      try change (m68k_get_flag (set_d ?x ?c) ?f) with (m68k_get_flag c f);
      apply get_set_flag_eq; lia.
  - rewrite set_flag_d. reflexivity.
  - intros k Hk. cbn [d set_d].
    rewrite !idx_upd_eq by (rewrite ?Hlen; lia).
    rewrite Z.lor_spec, Z.land_spec, Z.lxor_spec, u32_testbit,
      Z.lnot_spec, Z.pow2_bits_eqb by lia.
    rewrite (Z.eqb_sym n k).
    destruct (Z.ltb_spec k 32).
    + cbn [andb]. auto.
    + rewrite (testbit_above v k) by lia.
      destruct (Z.eqb_spec k n); [lia |]. cbn. auto.
Qed.

(** BTST and BCLR D1,D0 (0x0300) with D1 = 3 and D0 = 0x0F: bit 3 is set,
    so Z is clear; BTST leaves D0 and BCLR clears its bit 3. *)
Lemma bit_operations_on_register_witness :
  let cpu := set_d [0x0F; 3; 0; 0; 0; 0; 0; 0] power_on in
  let out op := m68k_execute_bit_ops cpu (repeat 0 16) 16 op 0x0300 in
  exists c_tst c_clr,
    out OP_BTST = Some (c_tst, repeat 0 16)
    /\ out OP_BCLR = Some (c_clr, repeat 0 16)
    /\ m68k_get_flag c_clr SR_ZERO = false
    /\ idx (d c_tst) 0 = 0x0F
    /\ Z.testbit (idx (d c_clr) 0) 3 = false.
Proof.
  pose proof (bit_operations_on_register
                (set_d [0x0F; 3; 0; 0; 0; 0; 0; 0] power_on) (repeat 0 16)
                16 0x0300 eq_refl ltac:(vm_compute; congruence) eq_refl
                ltac:(vm_compute; split; congruence)) as H.
  cbv zeta in H.
  destruct H as (c_tst & c_set & c_clr & c_chg & E1 & _ & E3 & _ & Hz & Ht
                 & Hb).
  pose proof (Hz c_clr ltac:(auto)) as Hz'.
  destruct (Hb 3 ltac:(lia)) as (_ & Hc & _).
  exists c_tst, c_clr.
  exact (conj E1 (conj E3 (conj Hz' (conj Ht Hc)))).
Defined.

(** The immediate form takes its bit number from the low byte of the
    extension word: BTST #32,D0 (0x0800 with extension 0x0020) asks for
    [1 << 32], which has no defined value. *)
Lemma bit_number_from_32_undefined :
  m68k_execute_bit_ops power_on (load_words [0x0020] 16) 16 OP_BTST 0x0800
  = None.
Proof. reflexivity. Qed.

(** ** Effective addresses *)

(** X28. Predecrement and postincrement form a stack.  A value written
    through -(An) and read back through (An)+ with the same size comes back
    truncated to the size, and the address register returns to where it
    was, provided the operand lies inside the buffer. *)
Theorem push_then_pop
    (cpu : M68K_CPU) (memory : list Z) (mem_size reg value : Z)
    (size : OperandSize) :
  size = SIZE_BYTE \/ size = SIZE_WORD \/ size = SIZE_LONG ->
  length (a cpu) = 8%nat -> 0 <= reg < 8 ->
  OperandSize_to_Z size <= idx (a cpu) reg <= mem_size ->
  idx (a cpu) reg < 2 ^ 32 ->
  mem_size <= Z.of_nat (length memory) -> mem_size <= 2 ^ 32 ->
  let push := m68k_set_ea_value cpu memory mem_size 4 reg value size in
  let pop := m68k_get_ea_value (fst push) (snd push) mem_size 3 reg size in
  idx (a (fst push)) reg = idx (a cpu) reg - OperandSize_to_Z size
  /\ fst pop = truncate size value
  /\ a (snd pop) = a cpu
  /\ d (snd pop) = d cpu.
Proof.
  intros Hsize Hlen Hreg Hsp Hsp32 Hmem Hmax push pop.
  set (sp := idx (a cpu) reg) in *.
  set (n := OperandSize_to_Z size) in *.
  assert (Hn : 1 <= n <= 4)
    by (unfold n; destruct Hsize as [-> | [-> | ->]]; cbn; lia).
  set (cpu1 := set_a (upd (a cpu) reg (sp - n)) cpu).
  assert (Hpush : push
    = m68k_write_memory cpu1 memory mem_size (sp - n) value size).
  { subst push. unfold m68k_set_ea_value. fold sp. fold n.
    rewrite (u32_small (sp - n)) by lia. cbn [a set_a].
    rewrite idx_upd_eq by (rewrite ?Hlen; lia). reflexivity. }
  destruct (write_memory_context cpu1 memory mem_size (sp - n) value size)
    as (_ & Wd & Wa & _).
  rewrite <- Hpush in Wd, Wa. cbn [d a set_a cpu1] in Wd, Wa.
  assert (Hsp1 : idx (a (fst push)) reg = sp - n).
  { rewrite Wa. apply idx_upd_eq; [lia | rewrite Hlen; lia]. }
  set (cpu2 := set_a (upd (a (fst push)) reg (u32 (sp - n + n))) (fst push)).
  assert (Hpop : pop
    = m68k_read_memory cpu2 (snd push) mem_size (sp - n) size).
  { subst pop. unfold m68k_get_ea_value. rewrite Hsp1. reflexivity. }
  destruct (read_memory_context cpu2 (snd push) mem_size (sp - n) size)
    as (_ & Rd & Ra & _).
  rewrite <- Hpop in Rd, Ra. cbn [d a set_a cpu2] in Rd, Ra.
  split; [exact Hsp1 |]. split; [| split].
  - rewrite Hpop, Hpush. apply read_after_write; try assumption; lia.
  - rewrite Ra, Wa, upd_upd.
    replace (sp - n + n) with sp by lia. rewrite u32_small by lia.
    apply upd_same. rewrite Hlen. lia.
  - rewrite Rd. exact Wd.
Qed.

Lemma push_then_pop_witness :
  let cpu := set_a [0; 0; 0; 0; 0; 0; 0; 16] power_on in
  let push := m68k_set_ea_value cpu (repeat 0 16) 16 4 7 0x12345678 SIZE_WORD in
  let pop := m68k_get_ea_value (fst push) (snd push) 16 3 7 SIZE_WORD in
  idx (a (fst push)) 7 = 14
  /\ fst pop = 0x5678
  /\ a (snd pop) = [0; 0; 0; 0; 0; 0; 0; 16]
  /\ d (snd pop) = d power_on.
Proof.
  exact (push_then_pop (set_a [0; 0; 0; 0; 0; 0; 0; 16] power_on)
           (repeat 0 16) 16 7 0x12345678 SIZE_WORD ltac:(auto) eq_refl
           ltac:(lia) ltac:(vm_compute; split; congruence) eq_refl
           ltac:(vm_compute; congruence) ltac:(vm_compute; congruence)).
Defined.

(** ** Long division and 64-bit arithmetic *)

(** X29. DIVUL.  A zero divisor halts the CPU and leaves the data
    registers; otherwise the remainder goes to the register named by the
    extension word and the quotient to the destination register.  The
    remainder is stored last, so when both are the same register the
    quotient is lost.  Z is set from the quotient, and 78 cycles are
    counted either way. *)
Theorem divul_quotient_and_remainder
    (cpu : M68K_CPU) (memory : list Z) (mem_size opcode : Z) :
  let reg_dst := Z.land (Z.shiftr opcode 9) 0x7 in
  let reg_src := Z.land opcode 0x7 in
  let fetched := m68k_fetch_word cpu memory mem_size in
  let dreg := Z.land (Z.shiftr (fst fetched) 12) 0x7 in
  let divisor := idx (d cpu) reg_src in
  let dividend := idx (d cpu) dreg in
  length (d cpu) = 8%nat ->
  0 <= divisor < 2 ^ 32 -> 0 <= dividend < 2 ^ 32 ->
  exists cpu',
    m68k_execute_extended cpu memory mem_size OP_DIVUL opcode
    = Some (cpu', memory)
    /\ cycle_count cpu' = u64 (cycle_count (snd fetched) + 78)
    /\ (divisor = 0 -> halted cpu' = true /\ d cpu' = d cpu)
    /\ (divisor <> 0 ->
        halted cpu' = halted (snd fetched)
        /\ idx (d cpu') dreg = dividend mod divisor
        /\ (reg_dst <> dreg -> idx (d cpu') reg_dst = dividend / divisor)
        /\ m68k_get_flag cpu' SR_ZERO = (dividend / divisor =? 0)).
Proof.
  intros reg_dst reg_src fetched dreg divisor dividend Hlen Hdiv Hdvd.
  pose proof (land7_range (Z.shiftr opcode 9)) as Hrd. fold reg_dst in Hrd.
  pose proof (land7_range (Z.shiftr (fst fetched) 12)) as Hrr.
  fold dreg in Hrr.
  destruct (fetch_word_context cpu memory mem_size) as (Fd & _).
  fold fetched in Fd.
  assert (Hout : m68k_execute_extended cpu memory mem_size OP_DIVUL opcode
    = let c := snd fetched in
      let c' :=
        if divisor =? 0 then set_halted true c
        else
          m68k_set_flags
            (set_d (upd (upd (d c) reg_dst (dividend / divisor)) dreg
                      (dividend mod divisor)) c)
            (dividend / divisor) SIZE_LONG in
      Some (set_cycle_count (u64 (cycle_count c' + 78)) c', memory)).
  { unfold m68k_execute_extended.
    fold reg_dst reg_src divisor fetched.
    destruct fetched as [w c] eqn:Ef. cbn [fst snd] in *.
    fold dreg. rewrite Fd. fold dividend.
    destruct (Z.eqb_spec divisor 0) as [E0 | E0]; [reflexivity |].
    cbv zeta. cbn [d set_d].
    rewrite Z.quot_div_nonneg, Z.rem_mod_nonneg by lia.
    pose proof (Z.mod_pos_bound dividend divisor ltac:(lia)).
    assert (0 <= dividend / divisor <= dividend).
    { split; [apply Z.div_pos; lia |].
      apply Z.div_le_upper_bound; [lia |]. nia. }
    rewrite !u32_small by lia. reflexivity. }
  cbv zeta in Hout. rewrite Hout. eexists. split; [reflexivity |].
  destruct (Z.eqb_spec divisor 0) as [E0 | E0].
  - cbn [cycle_count halted d set_cycle_count set_halted].
    split; [reflexivity |]. split; [auto | contradiction].
  - cbn [cycle_count halted d set_cycle_count].
    rewrite set_flags_only_sr.
    cbn [cycle_count halted d set_sr set_d].
    split; [reflexivity |]. split; [contradiction |]. intros _.
    split; [reflexivity |].
    split; [apply idx_upd_eq; [lia | rewrite length_upd, Fd, Hlen; lia] |].
    split.
    + intros Hne. rewrite idx_upd_ne by lia.
      apply idx_upd_eq; [lia | rewrite Fd, Hlen; lia].
    + change (m68k_get_flag (set_cycle_count ?x ?c) ?f)
        with (m68k_get_flag c f).
      rewrite <- set_flags_only_sr. rewrite set_flags_zero by auto.
      unfold truncate.
      change (2 ^ (8 * OperandSize_to_Z SIZE_LONG)) with (2 ^ 32).
      assert (0 <= dividend / divisor <= dividend).
      { split; [apply Z.div_pos; lia |].
        apply Z.div_le_upper_bound; [lia |]. nia. }
      rewrite Z.mod_small by lia. reflexivity.
Qed.

Lemma divul_quotient_and_remainder_witness :
  let cpu := set_d [7; 100; 0; 0; 0; 0; 0; 0] power_on in
  exists cpu',
    m68k_execute_extended cpu (load_words [0x1000] 16) 16 OP_DIVUL 0x4C40
    = Some (cpu', load_words [0x1000] 16)
    /\ idx (d cpu') 1 = 2
    /\ idx (d cpu') 6 = 14
    /\ m68k_get_flag cpu' SR_ZERO = false.
Proof.
  pose proof (divul_quotient_and_remainder
                (set_d [7; 100; 0; 0; 0; 0; 0; 0] power_on)
                (load_words [0x1000] 16) 16 0x4C40 eq_refl
                ltac:(vm_compute; split; congruence)
                ltac:(vm_compute; split; congruence)) as H.
  cbv zeta in H. destruct H as (cpu' & He & _ & _ & H).
  destruct (H ltac:(vm_compute; congruence)) as (_ & Hr & Hq & Hz).
  exists cpu'.
  exact (conj He (conj Hr (conj (Hq ltac:(vm_compute; congruence)) Hz))).
Defined.

(** DIVSL of [INT_MIN] by [-1] (extension word 0x1000 names D1 as the
    dividend register): the quotient is not an [int32_t] and the handler
    has no result. *)
Lemma divsl_int_min_by_minus_one_undefined :
  let cpu := set_d [0xFFFFFFFF; 0x80000000; 0; 0; 0; 0; 0; 0] power_on in
  m68k_execute_extended cpu (load_words [0x1000] 16) 16 OP_DIVSL 0x4C40
  = None.
Proof. reflexivity. Qed.





